(** * Data-access layer of the tweet store: BLL.py, DAL.py, models.py

    A shallow embedding of the business-logic layer ([BLL.py]) and of the
    repositories it drives ([DAL.py]) over the tables of [models.py].

    - Python [str] is [string]; every character is read as the code point
      of the same number (0..255), so [len], slicing and [\w] are those of
      Python on that range.
    - [datetime] is the number of microseconds since [datetime.min].
    - The store compares text exactly (a binary collation).
    - A function of the layer is a computation in [M]: it threads the
      [World] (committed store, open sessions, event log, schedule of the
      store's behaviour) and ends in [Ret v] or in [Raise e].  Effects made
      before an exception stay, as in Python.
    - The store decides from its rows: primary keys, the unique text of
      [hashtag] and [topic], the unique username on the plain INSERT of an
      author, NOT NULL of [tweet.content], and the foreign keys.  Every
      other rejection (lost connection, deadlock, a value too long for its
      column) enters as a [Fault] tick of the schedule; a concurrent caller
      that commits a tag row enters as a [Rival] tick.
    - The author upsert is described for a username that no other author
      holds ([username_free]); what the store does with one that is held
      is not decided here, and the statements about that write say so. *)

From Stdlib Require Import ZArith List String Ascii Bool Lia Permutation.
Import ListNotations.
Local Open Scope string_scope.
Local Open Scope list_scope.
Local Open Scope Z_scope.

(* ================================================================== *)
(** * Python values used by the layer *)
(* ================================================================== *)

(** [datetime.min] and [datetime.max], in microseconds since
    0001-01-01 00:00:00. *)
Definition datetime_min : Z := 0.
Definition datetime_max : Z := 315537897599999999.

(** [s[:n]] *)
Definition py_prefix (n : nat) (s : string) : string := substring 0 n s.

(** [Py_UNICODE_ISALNUM(c) or c == '_'] on the code points 0..255: what
    [\w] matches in a [str] pattern. *)
Definition is_word (c : ascii) : bool :=
  let n := Z.of_nat (nat_of_ascii c) in
  ((48 <=? n) && (n <=? 57)) || ((65 <=? n) && (n <=? 90)) || (n =? 95)
  || ((97 <=? n) && (n <=? 122)) || (n =? 170) || ((178 <=? n) && (n <=? 179))
  || (n =? 181) || ((185 <=? n) && (n <=? 186)) || ((188 <=? n) && (n <=? 190))
  || ((192 <=? n) && (n <=? 214)) || ((216 <=? n) && (n <=? 246))
  || ((248 <=? n) && (n <=? 255)).

Definition is_hash (c : ascii) : bool := Ascii.eqb c "#"%char.

Definition emit (w : string) (l : list string) : list string :=
  match w with EmptyString => l | _ => w :: l end.

(** [re.findall('#(\w+)', s)], scanning left to right.  [cur] is the word
    collected since the last ['#'] ([None] outside a candidate match). *)
Fixpoint findall_from (s : string) (cur : option string) : list string :=
  match s with
  | EmptyString => match cur with Some w => emit w [] | None => [] end
  | String c r =>
      match cur with
      | Some w =>
          if is_word c then findall_from r (Some (w ++ String c EmptyString)%string)
          else emit w (findall_from r (if is_hash c then Some EmptyString else None))
      | None => findall_from r (if is_hash c then Some EmptyString else None)
      end
  end.

Definition re_findall_hashtag (s : string) : list string := findall_from s None.

(** [s.replace('#', '')] *)
Fixpoint strip_hash (s : string) : string :=
  match s with
  | EmptyString => EmptyString
  | String c r => if is_hash c then strip_hash r else String c (strip_hash r)
  end.

(** Truthiness of the optional arguments of the filter builder. *)
Definition truthy_int (x : option Z) : bool :=
  match x with Some n => negb (n =? 0) | None => false end.
Definition truthy_str (x : option string) : bool :=
  match x with Some EmptyString => false | Some _ => true | None => false end.
Definition truthy_list {A} (x : option (list A)) : bool :=
  match x with Some (_ :: _) => true | _ => false end.

(** ** A [set] of [str]

    The order in which a set of strings is iterated depends on the hash
    seed of the process.  The model ranks the distinct elements by an
    arbitrary key [seed] (ties keep the order of first insertion): every
    order of a given set is the order of some seed. *)
Fixpoint str_mem (x : string) (l : list string) : bool :=
  match l with [] => false | y :: r => String.eqb x y || str_mem x r end.

Fixpoint str_dedup (seen l : list string) : list string :=
  match l with
  | [] => []
  | x :: r => if str_mem x seen then str_dedup seen r else x :: str_dedup (x :: seen) r
  end.

Fixpoint rank_insert (seed : string -> Z) (x : string) (l : list string) : list string :=
  match l with
  | [] => [x]
  | y :: r => if seed y <=? seed x then y :: rank_insert seed x r else x :: y :: r
  end.

Definition str_set (seed : string -> Z) (l : list string) : list string :=
  fold_left (fun acc x => rank_insert seed x acc) (str_dedup [] l) [].

(** ** A [set] of [int]: the hash table of CPython's [setobject.c]

    [hash(n)] of a non-negative [int] is [n mod (2^61 - 1)]; the table
    starts with 8 slots, is probed from [hash & mask] (9 linear probes
    where they fit, then [i*5 + 1 + perturb]), grows to the first power of
    two above four times its size once 3/5 full, and is iterated in slot
    order.  The layer only adds, so no slot is ever a dummy. *)
Definition py_hash_int (n : Z) : Z :=
  if 0 <=? n then n mod (2 ^ 61 - 1)
  else let h := - ((- n) mod (2 ^ 61 - 1)) in if h =? -1 then -2 else h.

Record PySet := { so_table : list (option Z); so_mask : Z; so_fill : Z }.

Definition set_new : PySet :=
  {| so_table := repeat None 8; so_mask := 7; so_fill := 0 |}.

Inductive Probe := Unused (i : nat) | Active | Miss.

Fixpoint set_scan (table : list (option Z)) (key : Z) (i : nat) (probes : nat) : Probe :=
  match nth i table None with
  | None => Unused i
  | Some k =>
      if k =? key then Active
      else match probes with
           | O => Miss
           | S p => set_scan table key (S i) p
           end
  end.

Fixpoint set_lookkey (fuel : nat) (table : list (option Z)) (mask key i perturb : Z) : Probe :=
  match fuel with
  | O => Miss
  | S f =>
      let probes := if i + 9 <=? mask then 9%nat else 0%nat in
      match set_scan table key (Z.to_nat i) probes with
      | Miss =>
          let perturb' := Z.shiftr perturb 5 in
          set_lookkey f table mask key (Z.land (i * 5 + 1 + perturb') mask) perturb'
      | r => r
      end
  end.

Definition set_probe (table : list (option Z)) (mask key : Z) : Probe :=
  let h := py_hash_int key in
  set_lookkey (Z.to_nat mask + 70) table mask key (Z.land h mask) (h mod 2 ^ 64).

Fixpoint set_store (table : list (option Z)) (i : nat) (key : Z) : list (option Z) :=
  match table, i with
  | [], _ => []
  | _ :: r, O => Some key :: r
  | e :: r, S j => e :: set_store r j key
  end.

Definition set_keys (table : list (option Z)) : list Z :=
  flat_map (fun e => match e with Some k => [k] | None => [] end) table.

(** [set_insert_clean], for every key of the old table in slot order. *)
Definition set_table_resize (so : PySet) (minused : Z) : PySet :=
  let newsize := Z.max 8 (2 ^ (Z.log2 minused + 1)) in
  let mask := newsize - 1 in
  let table :=
    fold_left
      (fun t k => match set_probe t mask k with Unused i => set_store t i k | _ => t end)
      (set_keys (so_table so)) (repeat None (Z.to_nat newsize)) in
  {| so_table := table; so_mask := mask; so_fill := so_fill so |}.

(** [so.add(key)] *)
Definition set_add (so : PySet) (key : Z) : PySet :=
  match set_probe (so_table so) (so_mask so) key with
  | Unused i =>
      let so' := {| so_table := set_store (so_table so) i key;
                    so_mask := so_mask so; so_fill := so_fill so + 1 |} in
      if so_fill so' * 5 <? so_mask so' * 3 then so'
      else set_table_resize so' (if 50000 <? so_fill so' then so_fill so' * 2
                                 else so_fill so' * 4)
  | _ => so
  end.

(** [for x in so] *)
Definition set_iter (so : PySet) : list Z := set_keys (so_table so).

(** [enumerate(xs)] *)
Fixpoint enumerate_from {A} (i : Z) (l : list A) : list (Z * A) :=
  match l with [] => [] | x :: r => (i, x) :: enumerate_from (i + 1) r end.
Definition enumerate {A} (l : list A) : list (Z * A) := enumerate_from 0 l.


(* ================================================================== *)
(** * models.py: the tables *)
(* ================================================================== *)

(** [twitter_user] *)
Record TwitterUser := {
  tu_id : Z;
  tu_username : string;
  tu_display_name : string;
  tu_last_updated : Z
}.

(** [tweet]; [content] is NOT NULL, [language] and [sentiment_score] are
    nullable. *)
Record Tweet := {
  tw_id : Z;
  tw_user_id : Z;
  tw_content : string;
  tw_language : option string;
  tw_created_at : Z;
  tw_sentiment_score : option Z;
  tw_like_count : Z;
  tw_retweet_count : Z;
  tw_reply_count : Z
}.

(** A row of [hashtag] (text in column [hashtag]) or of [topic] (text in
    column [title]): the two tables have the same shape. *)
Record Tag := { tag_id : Z; tag_text : string; tag_use_count : Z }.

Inductive TagKind := KHashtag | KTopic.

(** The committed store.  [hashtag_seq] and [topic_seq] are the next
    AUTO_INCREMENT values; a row of [tweet_hashtag] is
    [(tweet_id, hashtag_id)], a row of [tweet_topic] is
    [(tweet_id, topic_id, sort_order)]. *)
Record DB := {
  twitter_user : list TwitterUser;
  tweet : list Tweet;
  hashtag : list Tag;
  hashtag_seq : Z;
  topic : list Tag;
  topic_seq : Z;
  tweet_hashtag : list (Z * Z);
  tweet_topic : list (Z * Z * Z)
}.

Definition empty_db : DB :=
  {| twitter_user := []; tweet := []; hashtag := []; hashtag_seq := 1;
     topic := []; topic_seq := 1; tweet_hashtag := []; tweet_topic := [] |}.

Definition with_twitter_user (l : list TwitterUser) (d : DB) : DB :=
  {| twitter_user := l; tweet := tweet d; hashtag := hashtag d;
     hashtag_seq := hashtag_seq d; topic := topic d; topic_seq := topic_seq d;
     tweet_hashtag := tweet_hashtag d; tweet_topic := tweet_topic d |}.
Definition with_tweet (l : list Tweet) (d : DB) : DB :=
  {| twitter_user := twitter_user d; tweet := l; hashtag := hashtag d;
     hashtag_seq := hashtag_seq d; topic := topic d; topic_seq := topic_seq d;
     tweet_hashtag := tweet_hashtag d; tweet_topic := tweet_topic d |}.
Definition with_tweet_hashtag (l : list (Z * Z)) (d : DB) : DB :=
  {| twitter_user := twitter_user d; tweet := tweet d; hashtag := hashtag d;
     hashtag_seq := hashtag_seq d; topic := topic d; topic_seq := topic_seq d;
     tweet_hashtag := l; tweet_topic := tweet_topic d |}.
Definition with_tweet_topic (l : list (Z * Z * Z)) (d : DB) : DB :=
  {| twitter_user := twitter_user d; tweet := tweet d; hashtag := hashtag d;
     hashtag_seq := hashtag_seq d; topic := topic d; topic_seq := topic_seq d;
     tweet_hashtag := tweet_hashtag d; tweet_topic := l |}.

Definition tags (k : TagKind) (d : DB) : list Tag :=
  match k with KHashtag => hashtag d | KTopic => topic d end.
Definition tag_seq (k : TagKind) (d : DB) : Z :=
  match k with KHashtag => hashtag_seq d | KTopic => topic_seq d end.
Definition with_tags (k : TagKind) (l : list Tag) (d : DB) : DB :=
  match k with
  | KHashtag =>
      {| twitter_user := twitter_user d; tweet := tweet d; hashtag := l;
         hashtag_seq := hashtag_seq d; topic := topic d; topic_seq := topic_seq d;
         tweet_hashtag := tweet_hashtag d; tweet_topic := tweet_topic d |}
  | KTopic =>
      {| twitter_user := twitter_user d; tweet := tweet d; hashtag := hashtag d;
         hashtag_seq := hashtag_seq d; topic := l; topic_seq := topic_seq d;
         tweet_hashtag := tweet_hashtag d; tweet_topic := tweet_topic d |}
  end.
Definition with_tag_seq (k : TagKind) (n : Z) (d : DB) : DB :=
  match k with
  | KHashtag =>
      {| twitter_user := twitter_user d; tweet := tweet d; hashtag := hashtag d;
         hashtag_seq := n; topic := topic d; topic_seq := topic_seq d;
         tweet_hashtag := tweet_hashtag d; tweet_topic := tweet_topic d |}
  | KTopic =>
      {| twitter_user := twitter_user d; tweet := tweet d; hashtag := hashtag d;
         hashtag_seq := hashtag_seq d; topic := topic d; topic_seq := n;
         tweet_hashtag := tweet_hashtag d; tweet_topic := tweet_topic d |}
  end.

(** ** Row-level queries *)

Definition find_user (id : Z) (d : DB) : option TwitterUser :=
  find (fun u => tu_id u =? id) (twitter_user d).
Definition find_tweet (id : Z) (d : DB) : option Tweet :=
  find (fun t => tw_id t =? id) (tweet d).
Definition tags_with_text (k : TagKind) (text : string) (d : DB) : list Tag :=
  filter (fun r => String.eqb (tag_text r) text) (tags k d).
Definition has_tag_id (k : TagKind) (id : Z) (d : DB) : bool :=
  existsb (fun r => tag_id r =? id) (tags k d).
Definition has_tweet (id : Z) (d : DB) : bool :=
  existsb (fun t => tw_id t =? id) (tweet d).
Definition has_user (id : Z) (d : DB) : bool :=
  existsb (fun u => tu_id u =? id) (twitter_user d).

(** The hashtag texts linked to a tweet: the join of [tweet_hashtag] with
    [hashtag]. *)
Definition linked_hashtags (tweet_id : Z) (d : DB) : list string :=
  flat_map
    (fun l => if fst l =? tweet_id
              then map tag_text (filter (fun r => tag_id r =? snd l) (hashtag d))
              else [])
    (tweet_hashtag d).

(* ================================================================== *)
(** * The world: store, sessions, log, schedule *)
(* ================================================================== *)

Inductive Exn :=
| OperationalError      (* the store signals a failure *)
| IntegrityError        (* a constraint of the schema is violated *)
| MultipleResultsFound  (* scalar_one_or_none() on several rows *)
| UnboundLocalError
| AttributeError
| TypeError.

Inductive Res (A : Type) := Ret (a : A) | Raise (e : Exn).
Arguments Ret {A} a.
Arguments Raise {A} e.

Inductive Event := Open (s : nat) | Commit (s : nat) | Rollback (s : nat) | Close (s : nat).

(** What the store does at the next round trip: [Go] executes it, [Fault]
    signals a failure instead, [Rival k text] lets a concurrent caller
    commit a [k] row with [text] first and then executes it. *)
Inductive Tick := Go | Fault | Rival (k : TagKind) (text : string).

(** Objects handed to [session.add_all], inserted by the next flush. *)
Inductive NewObj :=
| NewTweetHashtag (tweet_id hashtag_id : Z)
| NewTweetTopic (tweet_id topic_id sort_order : Z).

(** A session holds the writes of its open transaction ([pending], the
    oldest first) and the objects not flushed yet. *)
Record Session := { pending : list (DB -> DB); new_objs : list NewObj }.

Record World := {
  db : DB;
  sessions : list (nat * Session);
  next_sid : nat;
  log : list Event;
  sched : list Tick;
  hashseed : string -> Z
}.

Definition init_world (d : DB) (sc : list Tick) (seed : string -> Z) : World :=
  {| db := d; sessions := []; next_sid := 0; log := []; sched := sc; hashseed := seed |}.

Definition with_db (d : DB) (w : World) : World :=
  {| db := d; sessions := sessions w; next_sid := next_sid w; log := log w;
     sched := sched w; hashseed := hashseed w |}.
Definition with_sessions (l : list (nat * Session)) (w : World) : World :=
  {| db := db w; sessions := l; next_sid := next_sid w; log := log w;
     sched := sched w; hashseed := hashseed w |}.
Definition with_sched (l : list Tick) (w : World) : World :=
  {| db := db w; sessions := sessions w; next_sid := next_sid w; log := log w;
     sched := l; hashseed := hashseed w |}.
Definition log_event (e : Event) (w : World) : World :=
  {| db := db w; sessions := sessions w; next_sid := next_sid w; log := log w ++ [e];
     sched := sched w; hashseed := hashseed w |}.

Definition empty_session : Session := {| pending := []; new_objs := [] |}.

Definition get_session (s : nat) (w : World) : Session :=
  match find (fun e => Nat.eqb (fst e) s) (sessions w) with
  | Some e => snd e
  | None => empty_session
  end.

Fixpoint put_first (s : nat) (x : Session) (l : list (nat * Session)) : list (nat * Session) :=
  match l with
  | [] => []
  | e :: r => if Nat.eqb (fst e) s then (s, x) :: r else e :: put_first s x r
  end.

Definition put_session (s : nat) (x : Session) (w : World) : World :=
  with_sessions (put_first s x (sessions w)) w.

Fixpoint drop_first (s : nat) (l : list (nat * Session)) : list (nat * Session) :=
  match l with
  | [] => []
  | e :: r => if Nat.eqb (fst e) s then r else e :: drop_first s r
  end.

Definition apply_writes (fs : list (DB -> DB)) (d : DB) : DB :=
  fold_left (fun acc f => f acc) fs d.

(** What session [s] reads: the committed store with its own writes. *)
Definition view (s : nat) (w : World) : DB :=
  apply_writes (pending (get_session s w)) (db w).

(** A row with the next AUTO_INCREMENT id. *)
Definition add_tag (k : TagKind) (id : Z) (text : string) (d : DB) : DB :=
  with_tags k (tags k d ++ [{| tag_id := id; tag_text := text; tag_use_count := 0 |}]) d.

Definition text_taken (k : TagKind) (text : string) (w : World) : bool :=
  existsb (fun r => String.eqb (tag_text r) text) (tags k (db w))
  || existsb
       (fun e => existsb (fun r => String.eqb (tag_text r) text)
                   (tags k (apply_writes (pending (snd e)) (db w))))
       (sessions w).

(** A concurrent caller commits a row: the unique index refuses it when the
    text is committed or held by an open transaction. *)
Definition rival_commit (k : TagKind) (text : string) (w : World) : World :=
  if text_taken k text w then w
  else with_db (with_tag_seq k (tag_seq k (db w) + 1)
                  (add_tag k (tag_seq k (db w)) text (db w))) w.

(** The store's answer to the next round trip. *)
Definition tick (w : World) : Tick * World :=
  match sched w with
  | [] => (Go, w)
  | t :: r =>
      match t with
      | Rival k text => (t, rival_commit k text (with_sched r w))
      | _ => (t, with_sched r w)
      end
  end.

(** ** Computations *)

Definition M (A : Type) : Type := World -> Res A * World.

Definition ret {A} (a : A) : M A := fun w => (Ret a, w).
Definition raise {A} (e : Exn) : M A := fun w => (Raise e, w).
Definition bind {A B} (m : M A) (f : A -> M B) : M B :=
  fun w => match m w with
           | (Ret a, w') => f a w'
           | (Raise e, w') => (Raise e, w')
           end.
(** The outcome of a [try] body, handed to its [except] and [finally]. *)
Definition attempt {A} (m : M A) : M (Res A) :=
  fun w => let (r, w') := m w in (Ret r, w').

Declare Scope py_scope.
Delimit Scope py_scope with py.
Notation "x <- c ;; k" := (bind c (fun x => k))
  (at level 100, c at next level, right associativity) : py_scope.
Notation "c ;; k" := (bind c (fun _ => k))
  (at level 100, right associativity) : py_scope.
Local Open Scope py_scope.

Definition is_ret {A} (r : Res A) : bool :=
  match r with Ret _ => true | Raise _ => false end.

(** [self._db.create_session()] *)
Definition create_session : M nat :=
  fun w =>
    let s := next_sid w in
    (Ret s,
     {| db := db w; sessions := (s, empty_session) :: sessions w;
        next_sid := S s; log := log w ++ [Open s]; sched := sched w;
        hashseed := hashseed w |}).

(** [session.close()]: the open transaction is given up. *)
Definition close (s : nat) : M unit :=
  fun w =>
    (Ret tt,
     log_event (Close s)
       (with_sessions (drop_first s (sessions w)) w)).

(** [session.rollback()] *)
Definition rollback (s : nat) : M unit :=
  fun w => (Ret tt, log_event (Rollback s) (put_session s empty_session w)).

(** [session.execute(stmt)]: one round trip.  [stmt] reads the session's
    view and gives its result with the write it makes, or the exception of
    the store. *)
Definition execute {A} (s : nat) (stmt : DB -> Res (A * (DB -> DB))) : M A :=
  fun w =>
    let (t, w1) := tick w in
    match t with
    | Fault => (Raise OperationalError, w1)
    | _ =>
        match stmt (view s w1) with
        | Ret (a, f) =>
            let x := get_session s w1 in
            (Ret a, put_session s {| pending := pending x ++ [f]; new_objs := new_objs x |} w1)
        | Raise e => (Raise e, w1)
        end
    end.

(** A SELECT: one round trip, nothing written. *)
Definition query {A} (s : nat) (q : DB -> Res A) : M A :=
  fun w =>
    let (t, w1) := tick w in
    match t with
    | Fault => (Raise OperationalError, w1)
    | _ => (q (view s w1), w1)
    end.

(** [session.add_all(objs)] *)
Definition add_all (s : nat) (objs : list NewObj) : M unit :=
  fun w =>
    let x := get_session s w in
    (Ret tt, put_session s {| pending := pending x; new_objs := new_objs x ++ objs |} w).

(** The INSERT of one link row: primary key and both foreign keys. *)
Definition insert_obj (o : NewObj) (d : DB) : option DB :=
  match o with
  | NewTweetHashtag t h =>
      if has_tweet t d && has_tag_id KHashtag h d
         && negb (existsb (fun l => (fst l =? t) && (snd l =? h)) (tweet_hashtag d))
      then Some (with_tweet_hashtag (tweet_hashtag d ++ [(t, h)]) d)
      else None
  | NewTweetTopic t p i =>
      if has_tweet t d && has_tag_id KTopic p d
         && negb (existsb (fun l => (fst (fst l) =? t) && (snd (fst l) =? p)) (tweet_topic d))
      then Some (with_tweet_topic (tweet_topic d ++ [(t, p, i)]) d)
      else None
  end.

Fixpoint insert_objs (os : list NewObj) (d : DB) : option DB :=
  match os with
  | [] => Some d
  | o :: r => match insert_obj o d with Some d' => insert_objs r d' | None => None end
  end.

(** The flush of the objects added: one INSERT round trip when there are
    any. *)
Definition flush (s : nat) : M unit :=
  fun w =>
    match new_objs (get_session s w) with
    | [] => (Ret tt, w)
    | os =>
        let (t, w1) := tick w in
        match t with
        | Fault => (Raise OperationalError, w1)
        | _ =>
            match insert_objs os (view s w1) with
            | Some _ =>
                let x := get_session s w1 in
                (Ret tt,
                 put_session s
                   {| pending := pending x
                                 ++ [fun d => match insert_objs os d with
                                              | Some d' => d'
                                              | None => d
                                              end];
                      new_objs := [] |} w1)
            | None => (Raise IntegrityError, w1)
            end
        end
    end.

(** [session.commit()]: flush, then the COMMIT round trip. *)
Definition commit (s : nat) : M unit :=
  flush s ;;
  fun w =>
    let (t, w1) := tick w in
    match t with
    | Fault => (Raise OperationalError, w1)
    | _ => (Ret tt, log_event (Commit s) (put_session s empty_session (with_db (view s w1) w1)))
    end.

(* ================================================================== *)
(** * DAL.py: the repositories *)
(* ================================================================== *)

(** The mapped classes a repository can stand for. *)
Inductive Entity :=
| EHashtag | ETopic | ETwitterUser | ETweet | ETweetHashtag | ETweetTopic.

(** [DELETE FROM entity WHERE id = :id].  Deleting a tweet cascades to its
    link rows; a referenced hashtag, topic or user cannot be deleted. *)
Definition delete_stmt (E : Entity) (id : Z) (d : DB) : Res (Z * (DB -> DB)) :=
  match E with
  | EHashtag =>
      if existsb (fun l => snd l =? id) (tweet_hashtag d) && has_tag_id KHashtag id d
      then Raise IntegrityError
      else Ret (Z.of_nat (List.length (filter (fun r => tag_id r =? id) (hashtag d))),
                fun d' => with_tags KHashtag
                            (filter (fun r => negb (tag_id r =? id)) (hashtag d')) d')
  | ETopic =>
      if existsb (fun l => snd (fst l) =? id) (tweet_topic d) && has_tag_id KTopic id d
      then Raise IntegrityError
      else Ret (Z.of_nat (List.length (filter (fun r => tag_id r =? id) (topic d))),
                fun d' => with_tags KTopic
                            (filter (fun r => negb (tag_id r =? id)) (topic d')) d')
  | ETwitterUser =>
      if existsb (fun t => tw_user_id t =? id) (tweet d) && has_user id d
      then Raise IntegrityError
      else Ret (Z.of_nat (List.length (filter (fun u => tu_id u =? id) (twitter_user d))),
                fun d' => with_twitter_user
                            (filter (fun u => negb (tu_id u =? id)) (twitter_user d')) d')
  | ETweet =>
      Ret (Z.of_nat (List.length (filter (fun t => tw_id t =? id) (tweet d))),
           fun d' =>
             with_tweet (filter (fun t => negb (tw_id t =? id)) (tweet d'))
               (with_tweet_hashtag (filter (fun l => negb (fst l =? id)) (tweet_hashtag d'))
                  (with_tweet_topic
                     (filter (fun l => negb (fst (fst l) =? id)) (tweet_topic d')) d')))
  | ETweetHashtag | ETweetTopic => Raise AttributeError
  end.

(** [BaseDAL.delete]: the [finally] returns [result.rowcount]; when
    [execute] raised, [result] was never bound. *)
Definition BaseDAL_delete (E : Entity) (session : nat) (id : Z) : M Z :=
  match E with
  | ETweetHashtag | ETweetTopic => raise UnboundLocalError  (* Entity.id *)
  | _ =>
      result <- attempt (execute session (delete_stmt E id)) ;;
      match result with
      | Ret rowcount => ret rowcount
      | Raise _ => raise UnboundLocalError
      end
  end.

(** [DELETE FROM entity] *)
Definition delete_all_stmt (E : Entity) (d : DB) : Res (Z * (DB -> DB)) :=
  match E with
  | EHashtag =>
      if existsb (fun l => has_tag_id KHashtag (snd l) d) (tweet_hashtag d)
      then Raise IntegrityError
      else Ret (Z.of_nat (List.length (hashtag d)), fun d' => with_tags KHashtag [] d')
  | ETopic =>
      if existsb (fun l => has_tag_id KTopic (snd (fst l)) d) (tweet_topic d)
      then Raise IntegrityError
      else Ret (Z.of_nat (List.length (topic d)), fun d' => with_tags KTopic [] d')
  | ETwitterUser =>
      if existsb (fun t => has_user (tw_user_id t) d) (tweet d)
      then Raise IntegrityError
      else Ret (Z.of_nat (List.length (twitter_user d)), fun d' => with_twitter_user [] d')
  | ETweet =>
      Ret (Z.of_nat (List.length (tweet d)),
           fun d' =>
             with_tweet []
               (with_tweet_hashtag
                  (filter (fun l => negb (has_tweet (fst l) d')) (tweet_hashtag d'))
                  (with_tweet_topic
                     (filter (fun l => negb (has_tweet (fst (fst l)) d')) (tweet_topic d'))
                     d')))
  | ETweetHashtag =>
      Ret (Z.of_nat (List.length (tweet_hashtag d)), fun d' => with_tweet_hashtag [] d')
  | ETweetTopic =>
      Ret (Z.of_nat (List.length (tweet_topic d)), fun d' => with_tweet_topic [] d')
  end.

(** [BaseDAL.delete_all]: the exception is printed and the function falls
    off its end, returning [None]. *)
Definition BaseDAL_delete_all (E : Entity) (session : nat) : M (option Z) :=
  r <- attempt (execute session (delete_all_stmt E)) ;;
  match r with
  | Ret affected_row_count => ret (Some affected_row_count)
  | Raise _ => ret None
  end.

(** [scalar_one_or_none()] *)
Definition scalar_one_or_none {A} (rows : list A) : Res (option A) :=
  match rows with
  | [] => Ret None
  | [r] => Ret (Some r)
  | _ => Raise MultipleResultsFound
  end.

(** [HashtagDAL.find_by_hashtag] and [TopicDAL.find_by_title] *)
Definition TagDAL_find (k : TagKind) (session : nat) (value : string) : M (option Tag) :=
  query session (fun d => scalar_one_or_none (tags_with_text k value d)).
Definition HashtagDAL_find_by_hashtag := TagDAL_find KHashtag.
Definition TopicDAL_find_by_title := TagDAL_find KTopic.

(** [session.add(item); session.flush(); return item.id]: the INSERT round
    trip.  The AUTO_INCREMENT value is drawn outside the transaction. *)
Definition insert_tag_row (k : TagKind) (session : nat) (value : string) : M Z :=
  fun w =>
    let (t, w1) := tick w in
    match t with
    | Fault => (Raise OperationalError, w1)
    | _ =>
        if existsb (fun r => String.eqb (tag_text r) value) (tags k (view session w1))
        then (Raise IntegrityError, w1)
        else
          let id := tag_seq k (db w1) in
          let w2 := with_db (with_tag_seq k (id + 1) (db w1)) w1 in
          let x := get_session session w2 in
          (Ret id,
           put_session session
             {| pending := pending x ++ [add_tag k id value]; new_objs := new_objs x |} w2)
    end.

(** [HashtagDAL.insert] strips every ['#'] first; [TopicDAL.insert] takes
    the title as it is. *)
Definition HashtagDAL_insert (session : nat) (hashtag : string) : M Z :=
  let value := strip_hash hashtag in
  insert_tag_row KHashtag session value.
Definition TopicDAL_insert (session : nat) (title : string) : M Z :=
  insert_tag_row KTopic session title.
Definition TagDAL_insert (k : TagKind) : nat -> string -> M Z :=
  match k with KHashtag => HashtagDAL_insert | KTopic => TopicDAL_insert end.

(** The row [INSERT ... ON DUPLICATE KEY UPDATE] of [TwitterUserDAL.upsert]
    leaves: each of the three columns takes the incoming value when the
    stored [last_updated] is older than the incoming one, and keeps its own
    otherwise ([last_updated] is assigned last).  The duplicate key is the
    primary key.  The column [username] is unique as well: what the store
    does with a username that another author holds is not described here,
    and the statements about the author write take the username to be
    free ([username_free] below). *)
Definition user_on_duplicate (old : TwitterUser) (username display_name : string)
    (last_updated : Z) : TwitterUser :=
  {| tu_id := tu_id old;
     tu_username := if tu_last_updated old <? last_updated then username
                    else tu_username old;
     tu_display_name := if tu_last_updated old <? last_updated then display_name
                        else tu_display_name old;
     tu_last_updated := if tu_last_updated old <? last_updated then last_updated
                        else tu_last_updated old |}.

Definition upsert_user_rows (id : Z) (username display_name : string) (last_updated : Z)
    (l : list TwitterUser) : list TwitterUser :=
  if existsb (fun u => tu_id u =? id) l
  then map (fun u => if tu_id u =? id
                     then user_on_duplicate u username display_name last_updated
                     else u) l
  else l ++ [{| tu_id := id; tu_username := username; tu_display_name := display_name;
                tu_last_updated := last_updated |}].

(** Affected rows of an upsert: 1 for an insert, 2 for an update, 1 for an
    update that changes nothing (the driver counts found rows). *)
Definition TwitterUserDAL_upsert (session : nat) (id : Z) (username display_name : string)
    (last_updated : Z) : M Z :=
  execute session
    (fun d =>
       let rowcount :=
         match find_user id d with
         | Some old => if tu_last_updated old <? last_updated then 2 else 1
         | None => 1
         end in
       Ret (rowcount,
            fun d' => with_twitter_user
                        (upsert_user_rows id username display_name last_updated
                           (twitter_user d')) d')).

Definition tweet_on_duplicate (old : Tweet) (content : string) (language : option string)
    (created_at : Z) (sentiment_score : option Z)
    (like_count retweet_count reply_count : Z) : Tweet :=
  {| tw_id := tw_id old; tw_user_id := tw_user_id old; tw_content := content;
     tw_language := language; tw_created_at := created_at;
     tw_sentiment_score := sentiment_score; tw_like_count := like_count;
     tw_retweet_count := retweet_count; tw_reply_count := reply_count |}.

Definition opt_eqb {A} (eqb : A -> A -> bool) (x y : option A) : bool :=
  match x, y with
  | Some a, Some b => eqb a b
  | None, None => true
  | _, _ => false
  end.

Definition tweet_eqb (a b : Tweet) : bool :=
  (tw_id a =? tw_id b) && (tw_user_id a =? tw_user_id b)
  && String.eqb (tw_content a) (tw_content b)
  && opt_eqb String.eqb (tw_language a) (tw_language b)
  && (tw_created_at a =? tw_created_at b)
  && opt_eqb Z.eqb (tw_sentiment_score a) (tw_sentiment_score b)
  && (tw_like_count a =? tw_like_count b)
  && (tw_retweet_count a =? tw_retweet_count b)
  && (tw_reply_count a =? tw_reply_count b).

Definition upsert_tweet_rows (tweet_id twitter_user_id : Z) (content : string)
    (language : option string) (created_at : Z) (sentiment_score : option Z)
    (like_count retweet_count reply_count : Z) (l : list Tweet) : list Tweet :=
  if existsb (fun t => tw_id t =? tweet_id) l
  then map (fun t => if tw_id t =? tweet_id
                     then tweet_on_duplicate t content language created_at sentiment_score
                            like_count retweet_count reply_count
                     else t) l
  else l ++ [{| tw_id := tweet_id; tw_user_id := twitter_user_id; tw_content := content;
                tw_language := language; tw_created_at := created_at;
                tw_sentiment_score := sentiment_score; tw_like_count := like_count;
                tw_retweet_count := retweet_count; tw_reply_count := reply_count |}].

(** [TweetDAL.upsert]: an unconditional overwrite of every column but
    [user_id] on a duplicate id (1 affected row when nothing changes). *)
Definition TweetDAL_upsert (session : nat) (tweet_id twitter_user_id : Z)
    (content : option string) (language : option string) (created_at : Z)
    (sentiment_score : option Z) (like_count retweet_count reply_count : Z) : M Z :=
  execute session
    (fun d =>
       match content with
       | None => Raise IntegrityError              (* content is NOT NULL *)
       | Some c =>
           match find_tweet tweet_id d with
           | Some old => Ret (
               (if tweet_eqb old (tweet_on_duplicate old c language created_at
                                    sentiment_score like_count retweet_count reply_count)
                then 1 else 2), fun d' =>
                 with_tweet (upsert_tweet_rows tweet_id twitter_user_id c language created_at
                               sentiment_score like_count retweet_count reply_count
                               (tweet d')) d')
           | None =>
               if has_user twitter_user_id d
               then Ret (1, fun d' =>
                 with_tweet (upsert_tweet_rows tweet_id twitter_user_id c language created_at
                               sentiment_score like_count retweet_count reply_count
                               (tweet d')) d')
               else Raise IntegrityError           (* user_id references twitter_user *)
           end
       end).

(** [TweetHashtagDAL.delete_by_tweet_id], [TweetTopicDAL.delete_by_tweet_id] *)
Definition TweetHashtagDAL_delete_by_tweet_id (session : nat) (tweet_id : Z) : M Z :=
  execute session
    (fun d =>
       Ret (Z.of_nat (List.length (filter (fun l => fst l =? tweet_id) (tweet_hashtag d))),
            fun d' => with_tweet_hashtag
                        (filter (fun l => negb (fst l =? tweet_id)) (tweet_hashtag d')) d')).

Definition TweetTopicDAL_delete_by_tweet_id (session : nat) (tweet_id : Z) : M Z :=
  execute session
    (fun d =>
       Ret (Z.of_nat (List.length (filter (fun l => fst (fst l) =? tweet_id) (tweet_topic d))),
            fun d' => with_tweet_topic
                        (filter (fun l => negb (fst (fst l) =? tweet_id)) (tweet_topic d')) d')).

(** ** Filtered reads of [TweetDAL] *)

(** The criteria [TweetBLL.__build_filters] can add to its set. *)
Inductive Pred :=
| P_user_id_eq (v : Z)             (* Tweet.user_id == v *)
| P_username_eq (v : string)       (* TwitterUser.username == v *)
| P_created_at_ge (v : Z)          (* Tweet.created_at >= v *)
| P_created_at_le (v : Z)          (* Tweet.created_at <= v *)
| P_hashtag_in (l : list string)   (* Hashtag.hashtag.in_(l) *)
| P_sentiment_ge (v : Z)           (* Tweet.sentiment_score >= v *)
| P_sentiment_le (v : Z)           (* Tweet.sentiment_score <= v *)
| P_language_eq (v : string).      (* Tweet.language == v *)

(** A comparison with NULL is not true. *)
Definition eval_pred (p : Pred) (t : Tweet) (u : TwitterUser) (h : option Tag) : bool :=
  match p with
  | P_user_id_eq v => tw_user_id t =? v
  | P_username_eq v => String.eqb (tu_username u) v
  | P_created_at_ge v => v <=? tw_created_at t
  | P_created_at_le v => tw_created_at t <=? v
  | P_hashtag_in l => match h with Some r => str_mem (tag_text r) l | None => false end
  | P_sentiment_ge v => match tw_sentiment_score t with Some x => v <=? x | None => false end
  | P_sentiment_le v => match tw_sentiment_score t with Some x => x <=? v | None => false end
  | P_language_eq v => match tw_language t with Some x => String.eqb x v | None => false end
  end.

Definition holds (filters : list Pred) (t : Tweet) (u : TwitterUser) (h : option Tag) : bool :=
  forallb (fun p => eval_pred p t u h) filters.

(** [e.left.key == Hashtag.hashtag.key] *)
Definition on_hashtag (p : Pred) : bool :=
  match p with P_hashtag_in _ => true | _ => false end.

Definition on_sentiment (p : Pred) : bool :=
  match p with P_sentiment_ge _ | P_sentiment_le _ => true | _ => false end.

(** The object [TweetDAL.filter] builds for a row: the tweet, its content
    or [None], and its author. *)
Record FilteredTweet := {
  ft_row : Tweet;
  ft_content : option string;
  ft_user : TwitterUser
}.

(** The SELECT of [TweetDAL.filter], rows in table order: with a hashtag
    criterion the distinct [(tweet, user)] of the join through
    [tweet_hashtag] and [hashtag], without it the join of [tweet] and
    [twitter_user].  The column [content] is deferred in the source and
    read per row when it is wanted; [TweetDAL_filter] below takes it with
    the row, in the one round trip of the SELECT. *)
Definition filter_rows (filters : list Pred) (d : DB) : list (Tweet * TwitterUser) :=
  let has_hashtag_filters := existsb on_hashtag filters in
  flat_map
    (fun t =>
       flat_map
         (fun u =>
            if (tw_user_id t =? tu_id u)
               && (if has_hashtag_filters
                   then existsb
                          (fun th => (tw_id t =? fst th)
                                     && existsb (fun h => (tag_id h =? snd th)
                                                          && holds filters t u (Some h))
                                          (hashtag d))
                          (tweet_hashtag d)
                   else holds filters t u None)
            then [(t, u)] else [])
         (twitter_user d))
    (tweet d).

Definition TweetDAL_filter (session : nat) (filters : list Pred) (exclude_content : bool)
  : M (list FilteredTweet) :=
  query session
    (fun d =>
       Ret (map (fun tu => {| ft_row := fst tu;
                              ft_content := if exclude_content then None
                                            else Some (tw_content (fst tu));
                              ft_user := snd tu |})
              (filter_rows filters d))).

(** [TweetDAL.count_if]: the row count over [tweet, twitter_user], and over
    [hashtag] too when a criterion names it (no join condition ties it). *)
Definition count_rows (filters : list Pred) (d : DB) : Z :=
  let has_hashtag_filters := existsb on_hashtag filters in
  Z.of_nat
    (List.length
       (flat_map
          (fun t =>
             flat_map
               (fun u =>
                  if tw_user_id t =? tu_id u
                  then if has_hashtag_filters
                       then filter (fun h => holds filters t u (Some h)) (hashtag d)
                       else if holds filters t u None
                            then [{| tag_id := 0; tag_text := EmptyString; tag_use_count := 0 |}]
                            else []
                  else [])
               (twitter_user d))
          (tweet d))).

Definition TweetDAL_count_if (session : nat) (filters : list Pred) : M Z :=
  query session (fun d => Ret (count_rows filters d)).

(* ================================================================== *)
(** * BLL.py: the business-logic layer *)
(* ================================================================== *)

Record Between := { low : Z; high : Z; inclusive : bool }.

(** [BaseBLL.delete].  The [except] block rolls back and returns 0, then
    the [finally] block closes the session and returns [res]: the return of
    [finally] is the one that counts, and reading [res] raises when
    [repo.delete] did not bind it. *)
Definition BaseBLL_delete (E : Entity) (id : Z) : M Z :=
  session <- create_session ;;
  res <- attempt (BaseDAL_delete E session id) ;;
  committed <- match res with
               | Ret _ => attempt (commit session)
               | Raise e => ret (Raise e)
               end ;;
  (if is_ret committed then ret tt else rollback session) ;;
  close session ;;
  match res with
  | Ret rowcount => ret rowcount
  | Raise _ => raise UnboundLocalError
  end.

(** [BaseBLL.delete_all]: [result] is what the repository returned ([None]
    when it swallowed an exception), whether the commit succeeded or not. *)
Definition BaseBLL_delete_all (E : Entity) : M (option Z) :=
  session <- create_session ;;
  result <- BaseDAL_delete_all E session ;;
  committed <- attempt (commit session) ;;
  (if is_ret committed then ret tt else rollback session) ;;
  close session ;;
  ret result.

(** [HashtagBLL.insert_if_not_exists] and [TopicBLL.insert_if_not_exists]:
    the same text but for the repository class. *)
Definition Tag_insert_if_not_exists (k : TagKind) (text : string) : M Z :=
  session <- create_session ;;
  (* Find: outside the try *)
  result <- TagDAL_find k session text ;;
  match result with
  | Some row => close session ;; ret (tag_id row)
  | None =>
      inserted <- attempt (TagDAL_insert k session text) ;;
      let record_id := match inserted with Ret id => id | Raise _ => 0 end in
      tried <- match inserted with
               | Ret _ => attempt (commit session)
               | Raise e => ret (Raise e)
               end ;;
      match tried with
      | Ret _ => close session ;; ret record_id
      | Raise _ =>
          (* except: a second session; the first is not closed *)
          session' <- create_session ;;
          result' <- attempt (TagDAL_find k session' text) ;;
          let record_id' :=
            match result' with
            | Ret (Some row) => tag_id row
            | _ => record_id      (* the find raised, or None.id raised *)
            end in
          close session' ;; ret record_id'
      end
  end.

Definition HashtagBLL_insert_if_not_exists (hashtag : string) : M Z :=
  Tag_insert_if_not_exists KHashtag hashtag.
Definition TopicBLL_insert_if_not_exists (title : string) : M Z :=
  Tag_insert_if_not_exists KTopic title.

(** [TopicBLL.find_by_title] *)
Definition TopicBLL_find_by_title (title : string) : M (option Tag) :=
  session <- create_session ;;
  TopicDAL_find_by_title session title.

(** [TwitterUserBLL.upsert] *)
Definition TwitterUserBLL_upsert (id : Z) (username display_name : string)
    (last_updated : Z) : M Z :=
  session <- create_session ;;
  r <- attempt (n <- TwitterUserDAL_upsert session id username display_name last_updated ;;
                commit session ;; ret n) ;;
  affected_row_count <- match r with
                        | Ret n => ret n
                        | Raise _ => rollback session ;; ret 0
                        end ;;
  close session ;;
  ret affected_row_count.

(** [TweetHashtagBLL.insert]: a bare [except] sets [success = False]. *)
Definition TweetHashtagBLL_insert (tweet_id : Z) (hashtag_id_list : list Z) : M bool :=
  session <- create_session ;;
  r <- attempt (TweetHashtagDAL_delete_by_tweet_id session tweet_id ;;
                add_all session (map (fun hashtag_id => NewTweetHashtag tweet_id hashtag_id)
                                   hashtag_id_list) ;;
                commit session) ;;
  close session ;;
  ret (is_ret r).

(** [TweetTopicBLL.insert]; [topic_id_list] is the sequence the argument
    yields when iterated. *)
Definition TweetTopicBLL_insert (tweet_id : Z) (topic_id_list : list Z) : M bool :=
  session <- create_session ;;
  r <- attempt (TweetTopicDAL_delete_by_tweet_id session tweet_id ;;
                add_all session (map (fun it => NewTweetTopic tweet_id (snd it) (fst it))
                                   (enumerate topic_id_list)) ;;
                commit session) ;;
  close session ;;
  ret (is_ret r).

(** [for e in hashtags: hashtag_ids.append(repo.insert_if_not_exists(e))] *)
Fixpoint hashtag_loop (hashtags : list string) : M (list Z) :=
  match hashtags with
  | [] => ret []
  | e :: rest =>
      hashtag_id <- HashtagBLL_insert_if_not_exists e ;;
      hashtag_ids <- hashtag_loop rest ;;
      ret (hashtag_id :: hashtag_ids)
  end.

(** [Topic.title.property.columns[0].type.length] *)
Definition title_max_length : nat := 100.

(** [for e in topics: ...; topic_ids.add(repo.insert_if_not_exists(e))] *)
Fixpoint topic_loop (topics : list string) (topic_ids : PySet) : M PySet :=
  match topics with
  | [] => ret topic_ids
  | e :: rest =>
      let e := if (title_max_length <? String.length e)%nat
               then py_prefix title_max_length e else e in
      topic_id <- TopicBLL_insert_if_not_exists e ;;
      topic_loop rest (set_add topic_ids topic_id)
  end.

Definition get_hashseed : M (string -> Z) := fun w => (Ret (hashseed w), w).

(** The statements of [TweetBLL.upsert] that follow [session.close()] in
    its [finally] block (hashtags, hashtag links, topics, topic links). *)
Definition TweetBLL_upsert_links (tweet_id : Z) (content : option string)
    (topics : option (list string)) : M unit :=
  match content with
  | None => raise TypeError                        (* re.findall on None *)
  | Some c =>
      seed <- get_hashseed ;;
      let hashtags := str_set seed (re_findall_hashtag c) in
      hashtag_ids <- hashtag_loop hashtags ;;
      TweetHashtagBLL_insert tweet_id hashtag_ids ;;
      match topics with
      | Some ((_ :: _) as topics) =>
          topic_ids <- topic_loop topics set_new ;;
          TweetTopicBLL_insert tweet_id (set_iter topic_ids) ;;
          ret tt
      | _ => ret tt
      end
  end.

Definition truncate (n : nat) (s : option string) : option string :=
  match s with
  | Some c => if (n <? String.length c)%nat then Some (py_prefix n c) else Some c
  | None => None
  end.

(** [TweetBLL.upsert] *)
Definition TweetBLL_upsert (tweet_id twitter_user_id : Z) (username display_name : string)
    (content language : option string) (created_at : Z) (sentiment_score : option Z)
    (like_count retweet_count reply_count : Z) (topics : option (list string)) : M Z :=
  session <- create_session ;;
  let content := truncate 280 content in
  let language := truncate 5 language in
  r <- attempt (TwitterUserDAL_upsert session twitter_user_id username display_name
                  created_at ;;
                n <- TweetDAL_upsert session tweet_id twitter_user_id content language
                       created_at sentiment_score like_count retweet_count reply_count ;;
                commit session ;;
                ret n) ;;
  affected_row_count <- match r with
                        | Ret n => ret n
                        | Raise _ => rollback session ;; ret 0
                        end ;;
  (* finally *)
  close session ;;
  TweetBLL_upsert_links tweet_id content topics ;;
  ret affected_row_count.

(** [TweetBLL.delete_all] *)
Definition TweetBLL_delete_all : M (option Z) :=
  session <- create_session ;;
  r <- attempt (n <- BaseDAL_delete_all ETweet session ;;
                BaseDAL_delete_all EHashtag session ;;
                commit session ;; ret n) ;;
  affected_row_count <- match r with
                        | Ret n => ret n
                        | Raise _ => rollback session ;; ret (Some 0)
                        end ;;
  close session ;;
  ret affected_row_count.

(** [TweetBLL.__build_filters]; the set is given in the order of the adds. *)
Definition build_filters (user_id : option Z) (username : option string) (since until : Z)
    (hashtags : option (list string)) (sentiment_score : option Between)
    (language : option string) : list Pred :=
  (if truthy_int user_id
   then match user_id with Some v => [P_user_id_eq v] | None => [] end else [])
  ++ (if truthy_str username
      then match username with Some v => [P_username_eq v] | None => [] end else [])
  ++ (if negb (since =? datetime_min) then [P_created_at_ge since] else [])
  ++ (if negb (until =? datetime_min) then [P_created_at_le until] else [])
  ++ (if truthy_list hashtags
      then match hashtags with Some l => [P_hashtag_in l] | None => [] end else [])
  ++ match sentiment_score with
     | Some b => [P_sentiment_ge (low b); P_sentiment_le (high b)]
     | None => []
     end
  ++ (if truthy_str language
      then match language with Some v => [P_language_eq v] | None => [] end else []).

(** [TweetBLL.filter_by]: nothing is assigned to [result] when the query
    raises, and the [finally] block returns it all the same. *)
Definition TweetBLL_filter_by (user_id : option Z) (username : option string)
    (since until : Z) (hashtags : option (list string)) (sentiment_score : option Between)
    (language : option string) (exclude_content : bool) : M (list FilteredTweet) :=
  session <- create_session ;;
  let filters := build_filters user_id username since until hashtags sentiment_score
                   language in
  result <- attempt (TweetDAL_filter session filters exclude_content) ;;
  close session ;;
  match result with
  | Ret rows => ret rows
  | Raise _ => raise UnboundLocalError
  end.

(** [TweetBLL.count_if] *)
Definition TweetBLL_count_if (user_id : option Z) (username : option string)
    (since until : Z) (hashtags : option (list string)) (sentiment_score : option Between)
    (language : option string) : M Z :=
  session <- create_session ;;
  let filters := build_filters user_id username since until hashtags sentiment_score
                   language in
  result <- attempt (TweetDAL_count_if session filters) ;;
  close session ;;
  match result with
  | Ret n => ret n
  | Raise _ => ret 0
  end.

(* ================================================================== *)
(** * Predicates of the statements proved below *)
(* ================================================================== *)

(** The store rejects nothing: every tick is [Go] or [Rival]. *)
Definition NoFault (sc : list Tick) : Prop := Forall (fun t => t <> Fault) sc.

(** The schema's guarantees on a tag table: unique text, unique id, every
    id below the next AUTO_INCREMENT value. *)
Definition tags_wf (k : TagKind) (d : DB) : Prop :=
  NoDup (map tag_text (tags k d))
  /\ NoDup (map tag_id (tags k d))
  /\ Forall (fun r => tag_id r < tag_seq k d) (tags k d).

(** The text as the repository stores it. *)
Definition stored_text (k : TagKind) (text : string) : string :=
  match k with KHashtag => strip_hash text | KTopic => text end.

(** The committed store after the next round trip of a world with open
    sessions [ss]. *)
Definition tick_db (ss : list (nat * Session)) (d : DB) (sc : list Tick) : DB :=
  db (snd (tick {| db := d; sessions := ss; next_sid := 0; log := []; sched := sc;
                   hashseed := fun _ => 0 |})).

(** Both tag tables are well formed. *)
Definition store_ok (d : DB) : Prop := tags_wf KHashtag d /\ tags_wf KTopic d.

(** Tag rows are only ever appended, and the AUTO_INCREMENT values only
    grow. *)
Definition tags_grow (d d' : DB) : Prop :=
  forall k, (exists extra, tags k d' = tags k d ++ extra) /\ tag_seq k d <= tag_seq k d'.

(** A row [(id, text)] written by an open transaction fits the table the
    commit will add it to. *)
Definition pending_ok (k : TagKind) (id : Z) (text : string) (d : DB) : Prop :=
  tags_wf k d /\ id < tag_seq k d
  /\ ~ In id (map tag_id (tags k d)) /\ ~ In text (map tag_text (tags k d)).

(** The tables a tag registry does not write. *)
Definition same_rows (d d' : DB) : Prop :=
  twitter_user d' = twitter_user d /\ tweet d' = tweet d
  /\ tweet_hashtag d' = tweet_hashtag d /\ tweet_topic d' = tweet_topic d.

(** No other author holds the username: the unique key of
    [twitter_user.username] does not stand in the way of the write. *)
Definition username_free (id : Z) (username : string) (d : DB) : Prop :=
  forall u, In u (twitter_user d) -> tu_username u = username -> tu_id u = id.

(** What [truncate] leaves of a non-null string. *)
Definition clip (n : nat) (c : string) : string :=
  if (n <? String.length c)%nat then py_prefix n c else c.

(** Every character is a word character. *)
Fixpoint all_word (s : string) : bool :=
  match s with
  | EmptyString => true
  | String c r => is_word c && all_word r
  end.

(** What follows a match of [\w+]: the end of the text or a character
    that is not a word character. *)
Definition word_boundary (post : string) : Prop :=
  match post with
  | EmptyString => True
  | String c _ => is_word c = false
  end.

(** The matches of ['#(\w+)'] said without scanning: [e] is a hashtag of
    [s] when [s] holds a ['#'] followed by [e], a non-empty run of word
    characters that no word character follows. *)
Definition hashtag_occurrence (s e : string) : Prop :=
  exists pre post,
    s = (pre ++ String "#"%char (e ++ post))%string
    /\ e <> EmptyString /\ all_word e = true /\ word_boundary post.

(** The scan is collecting the word [w] after a ['#'] and [s] is what is
    left of the text: the word ends as [e] where the word characters
    end. *)
Definition run_ends (s w e : string) : Prop :=
  exists s1 post,
    s = (s1 ++ post)%string /\ all_word s1 = true /\ word_boundary post
    /\ e = (w ++ s1)%string /\ e <> EmptyString.

(** Two stores with the same tag tables. *)
Definition same_tags (d d' : DB) : Prop :=
  forall k, tags k d' = tags k d /\ tag_seq k d' = tag_seq k d.

Definition is_topic_link (o : NewObj) : Prop :=
  match o with NewTweetTopic _ _ _ => True | NewTweetHashtag _ _ => False end.

Definition seed0 : string -> Z := fun _ => 0.

(** Stores of the examples. *)
Definition db_two_topics : DB :=
  with_tag_seq KTopic 3
    (with_tags KTopic [{| tag_id := 1; tag_text := "x"; tag_use_count := 0 |};
                       {| tag_id := 2; tag_text := "y"; tag_use_count := 0 |}] empty_db).

(** A text of 281 characters. *)
Fixpoint replicate (n : nat) (c : ascii) : string :=
  match n with O => EmptyString | S m => String c (replicate m c) end.
Definition long_text : string := replicate 281 "a"%char.

Definition db_alice : DB :=
  with_twitter_user [{| tu_id := 100; tu_username := "alice"; tu_display_name := "Alice";
                        tu_last_updated := 5 |}] empty_db.

Definition db_one_tweet : DB :=
  {| twitter_user := [{| tu_id := 100; tu_username := "alice"; tu_display_name := "Alice";
                         tu_last_updated := 5 |}];
     tweet := [{| tw_id := 1; tw_user_id := 100; tw_content := "Hello #btc #eth world";
                  tw_language := None; tw_created_at := 5; tw_sentiment_score := None;
                  tw_like_count := 0; tw_retweet_count := 0; tw_reply_count := 0 |}];
     hashtag := [{| tag_id := 1; tag_text := "btc"; tag_use_count := 0 |};
                 {| tag_id := 2; tag_text := "eth"; tag_use_count := 0 |}];
     hashtag_seq := 3; topic := []; topic_seq := 1;
     tweet_hashtag := [(1, 1); (1, 2)]; tweet_topic := [] |}.


(* ================================================================== *)
(** * Reads by primary key and whole-table reads *)
(* ================================================================== *)

(** An instance of a mapped class as a repository returns it. *)
Inductive Row :=
| RHashtag (r : Tag)
| RTopic (r : Tag)
| RTwitterUser (u : TwitterUser)
| RTweet (t : Tweet)
| RTweetHashtag (l : Z * Z)
| RTweetTopic (l : Z * Z * Z).

(** [SELECT ... WHERE id = :id] and [fetchone()]: the first row or [None].
    The link classes have no attribute [id]. *)
Definition find_by_id_stmt (E : Entity) (id : Z) (d : DB) : Res (option Row) :=
  match E with
  | EHashtag => Ret (option_map RHashtag (find (fun r => tag_id r =? id) (hashtag d)))
  | ETopic => Ret (option_map RTopic (find (fun r => tag_id r =? id) (topic d)))
  | ETwitterUser => Ret (option_map RTwitterUser (find_user id d))
  | ETweet => Ret (option_map RTweet (find_tweet id d))
  | ETweetHashtag | ETweetTopic => Raise AttributeError
  end.

(** [BaseDAL.find_by_id] *)
Definition BaseDAL_find_by_id (E : Entity) (session : nat) (id : Z) : M (option Row) :=
  match E with
  | ETweetHashtag | ETweetTopic => raise AttributeError      (* Entity.id *)
  | _ => query session (find_by_id_stmt E id)
  end.

Definition all_rows (E : Entity) (d : DB) : list Row :=
  match E with
  | EHashtag => map RHashtag (hashtag d)
  | ETopic => map RTopic (topic d)
  | ETwitterUser => map RTwitterUser (twitter_user d)
  | ETweet => map RTweet (tweet d)
  | ETweetHashtag => map RTweetHashtag (tweet_hashtag d)
  | ETweetTopic => map RTweetTopic (tweet_topic d)
  end.

(** [BaseDAL.find_all]: [session.query(Entity).all()] *)
Definition BaseDAL_find_all (E : Entity) (session : nat) : M (list Row) :=
  query session (fun d => Ret (all_rows E d)).

(** [BaseBLL.find_by_id].  The [except] block returns [None], then the
    [finally] block closes the session and returns [res], which the
    failed call did not bind. *)
Definition BaseBLL_find_by_id (E : Entity) (id : Z) : M (option Row) :=
  session <- create_session ;;
  res <- attempt (BaseDAL_find_by_id E session id) ;;
  close session ;;
  match res with
  | Ret row => ret row
  | Raise _ => raise UnboundLocalError
  end.

(** [BaseBLL.find_all], of the same shape. *)
Definition BaseBLL_find_all (E : Entity) : M (list Row) :=
  session <- create_session ;;
  results <- attempt (BaseDAL_find_all E session) ;;
  close session ;;
  match results with
  | Ret rows => ret rows
  | Raise _ => raise UnboundLocalError
  end.

(* ================================================================== *)
(** * Plain insert of an author *)
(* ================================================================== *)

(** The [server_default] of [twitter_user.last_updated],
    ['01-01-01 00:00:00']: the store reads the two-digit year as 2001. *)
Definition server_default_last_updated : Z := 63113904000000000.

(** [BaseDAL.insert(id=..., username=..., display_name=...)] on
    [TwitterUserDAL]: a plain INSERT, refused by the primary key on a
    stored id and by the unique key on a stored username. *)
Definition TwitterUserDAL_insert (session : nat) (id : Z) (username display_name : string)
  : M unit :=
  execute session
    (fun d =>
       if has_user id d
          || existsb (fun u => String.eqb (tu_username u) username) (twitter_user d)
       then Raise IntegrityError
       else Ret (tt,
                 fun d' => with_twitter_user
                             (twitter_user d'
                              ++ [{| tu_id := id; tu_username := username;
                                     tu_display_name := display_name;
                                     tu_last_updated := server_default_last_updated |}])
                             d')).

(** [TwitterUserBLL.insert]: the id on success, [None] otherwise. *)
Definition TwitterUserBLL_insert (record_id : Z) (username display_name : string)
  : M (option Z) :=
  session <- create_session ;;
  r <- attempt (TwitterUserDAL_insert session record_id username display_name ;;
                commit session) ;;
  record_id <- match r with
               | Ret _ => ret (Some record_id)
               | Raise _ => rollback session ;; ret None
               end ;;
  close session ;;
  ret record_id.

(* ================================================================== *)
(** * Predicates of the further statements *)
(* ================================================================== *)

(** The ids of the sessions that are open. *)
Definition open_ids (w : World) : list nat := map fst (sessions w).

(** A computation that returns with the sessions that were open before. *)
Definition keeps_sessions {A} (m : M A) : Prop :=
  forall w, open_ids (snd (m w)) = open_ids w.

(** A computation that ends in [Ret]. *)
Definition never_raises {A} (m : M A) : Prop :=
  forall w, exists a, fst (m w) = Ret a.

(** A computation that, run with session [s] opened last, returns with
    [s] released and the others as they were. *)
Definition releases {A} (s : nat) (m : M A) : Prop :=
  forall w ids, open_ids w = s :: ids -> open_ids (snd (m w)) = ids.

(** What the criteria of [filter_by] other than [hashtags] ask of a tweet
    [t] and its author [u]; a criterion that is falsy asks nothing, and
    so does a bound equal to [datetime.min]. *)
Definition criteria_hold (user_id : option Z) (username : option string) (since until : Z)
    (sentiment_score : option Between) (language : option string)
    (t : Tweet) (u : TwitterUser) : Prop :=
  (forall v, user_id = Some v -> v <> 0 -> tw_user_id t = v)
  /\ (forall v, username = Some v -> v <> EmptyString -> tu_username u = v)
  /\ (since <> datetime_min -> since <= tw_created_at t)
  /\ (until <> datetime_min -> tw_created_at t <= until)
  /\ (forall b, sentiment_score = Some b ->
        exists x, tw_sentiment_score t = Some x /\ low b <= x <= high b)
  /\ (forall v, language = Some v -> v <> EmptyString -> tw_language t = Some v).

(** The text holds a ['#']. *)
Fixpoint has_hash (s : string) : bool :=
  match s with
  | EmptyString => false
  | String c r => is_hash c || has_hash r
  end.

(** The bounds of the columns [tweet.content] and [tweet.language]. *)
Definition within_bounds (t : Tweet) : Prop :=
  (String.length (tw_content t) <= 280)%nat
  /\ match tw_language t with
     | Some code => (String.length code <= 5)%nat
     | None => True
     end.

(** The title [TweetBLL.upsert] hands to the topic registry. *)
Definition topic_title (e : string) : string :=
  if (title_max_length <? String.length e)%nat then py_prefix title_max_length e else e.
(* ================================================================== *)
(** * Runs on concrete inputs *)
(* ================================================================== *)

Example set_iter_21 : set_iter (fold_left set_add [2; 1] set_new) = [1; 2].
Proof. reflexivity. Qed.
Example set_iter_big :
  set_iter (fold_left set_add [1; 33; 65; 97; 129; 5] set_new) = [65; 1; 129; 97; 33; 5].
Proof. vm_compute. reflexivity. Qed.
Example set_iter_c : set_iter (fold_left set_add [7; 15; 23; 31] set_new) = [31; 15; 23; 7].
Proof. vm_compute. reflexivity. Qed.
Example set_iter_d :
  set_iter (fold_left set_add [5; 4; 3; 2; 1; 0; 100; 37; 69] set_new)
  = [0; 1; 2; 3; 4; 5; 100; 37; 69].
Proof. vm_compute. reflexivity. Qed.
Example findall_ex :
  re_findall_hashtag "Hello #btc #eth world ##x #a#b # #btc" = ["btc"; "eth"; "x"; "a"; "b"; "btc"].
Proof. reflexivity. Qed.

(** The scenario of the specification: a first upsert creates the
    hashtag rows and both links. *)
Example upsert_scenario_first :
  let '(r, w) := TweetBLL_upsert 1 100 "alice" "Alice" (Some "Hello #btc #eth world") None 5
                   None 0 0 0 None (init_world empty_db [] seed0) in
  r = Ret 1 /\ db w = db_one_tweet.
Proof. vm_compute. split; reflexivity. Qed.

(** ... and a second one with one hashtag less leaves one link; the
    [eth] row stays. *)
Example upsert_scenario_second :
  let '(r, w) := TweetBLL_upsert 1 100 "alice" "Alice" (Some "Hello #btc only") None 5
                   None 0 0 0 None (init_world db_one_tweet [] seed0) in
  r = Ret 2 /\ tweet_hashtag (db w) = [(1, 1)] /\ hashtag (db w) = hashtag db_one_tweet
  /\ linked_hashtags 1 (db w) = ["btc"].
Proof. vm_compute. repeat split; reflexivity. Qed.

(** A rejection inside the link step is swallowed: the DELETE of the old
    links fails, the call still returns the row count of the tweet, the new
    text is stored and the old links stay. *)
Example upsert_link_failure_is_silent :
  let '(r, w) := TweetBLL_upsert 1 100 "alice" "Alice" (Some "Hello #btc only") None 5
                   None 0 0 0 None
                   (init_world db_one_tweet [Go; Go; Go; Go; Fault] seed0) in
  r = Ret 2 /\ option_map tw_content (find_tweet 1 (db w)) = Some "Hello #btc only"
  /\ linked_hashtags 1 (db w) = ["btc"; "eth"].
Proof. vm_compute. repeat split; reflexivity. Qed.

(* ================================================================== *)
(** * The filter builder *)
(* ================================================================== *)

(** C5.  With every criterion at its default, and so [since] at
    [datetime.min] and [until] at [datetime.max], the filter builder
    returns one predicate, [Tweet.created_at <= datetime.max]: [until] is
    compared with [datetime.min], not with its own default.  That
    predicate holds of every row whose timestamp is a datetime, and an
    [until] given as [datetime.min] adds no bound at all. *)
Theorem build_filters_defaults_keep_until :
  build_filters None None datetime_min datetime_max None None None
  = [P_created_at_le datetime_max]
  /\ (forall (t : Tweet) (u : TwitterUser) (h : option Tag),
         eval_pred (P_created_at_le datetime_max) t u h
         = (tw_created_at t <=? datetime_max))
  /\ (forall (since : Z),
         build_filters None None since datetime_min None None None
         = if since =? datetime_min then [] else [P_created_at_ge since]).
Proof.
  split; [reflexivity|]. split; [reflexivity|].
  intros since. unfold build_filters. simpl.
  destruct (since =? datetime_min); reflexivity.
Qed.

Lemma filter_sentiment_pieces (user_id : option Z) (username : option string)
    (since until : Z) (hashtags : option (list string)) (tail : list Pred) :
  filter on_sentiment
    ((if truthy_int user_id
      then match user_id with Some v => [P_user_id_eq v] | None => [] end else [])
     ++ (if truthy_str username
         then match username with Some v => [P_username_eq v] | None => [] end else [])
     ++ (if negb (since =? datetime_min) then [P_created_at_ge since] else [])
     ++ (if negb (until =? datetime_min) then [P_created_at_le until] else [])
     ++ (if truthy_list hashtags
         then match hashtags with Some l => [P_hashtag_in l] | None => [] end else [])
     ++ tail)
  = filter on_sentiment tail.
Proof.
  destruct user_id as [v|]; [destruct (truthy_int (Some v))|];
    (destruct username as [[|c u]|]);
    (destruct (negb (since =? datetime_min)));
    (destruct (negb (until =? datetime_min)));
    (destruct hashtags as [[|x l]|]); reflexivity.
Qed.

(** C10.  The [inclusive] flag of [Between] is never read: whatever its
    value, the filter builder adds exactly the two inclusive predicates
    [sentiment_score >= low] and [sentiment_score <= high], and
    [filter_by] and [count_if] behave the same for both values. *)
Theorem between_inclusive_flag_has_no_effect :
  forall (user_id : option Z) (username : option string) (since until : Z)
         (hashtags : option (list string)) (language : option string)
         (lo hi : Z) (flag exclude_content : bool) (w : World),
    let b x := Some {| low := lo; high := hi; inclusive := x |} in
    filter on_sentiment
      (build_filters user_id username since until hashtags (b flag) language)
    = [P_sentiment_ge lo; P_sentiment_le hi]
    /\ build_filters user_id username since until hashtags (b true) language
       = build_filters user_id username since until hashtags (b false) language
    /\ TweetBLL_filter_by user_id username since until hashtags (b true) language
         exclude_content w
       = TweetBLL_filter_by user_id username since until hashtags (b false) language
           exclude_content w
    /\ TweetBLL_count_if user_id username since until hashtags (b true) language w
       = TweetBLL_count_if user_id username since until hashtags (b false) language w.
Proof.
  intros. subst b. split; [|split; [|split]].
  - unfold build_filters. rewrite filter_sentiment_pieces. simpl.
    destruct language as [[|c l]|]; reflexivity.
  - reflexivity.
  - reflexivity.
  - reflexivity.
Qed.

(* ================================================================== *)
(** * Write operations under a failure of the store *)
(* ================================================================== *)

(** C2.  [BaseBLL.delete] does not report a failure as 0.  When the DELETE
    statement fails, for any entity, id and store, the call raises
    [UnboundLocalError]; when the commit fails, it returns the row count of
    the statement it rolled back.  [BaseBLL.delete_all] returns [None] when
    its statement fails. *)
Theorem delete_failure_is_not_zero :
  (forall (E : Entity) (id : Z) (d : DB) (sc : list Tick) (seed : string -> Z),
      BaseBLL_delete E id (init_world d (Fault :: sc) seed)
      = (Raise UnboundLocalError,
         {| db := d; sessions := []; next_sid := 1;
            log := [Open 0; Rollback 0; Close 0];
            sched := match E with ETweetHashtag | ETweetTopic => Fault :: sc | _ => sc end;
            hashseed := seed |}))
  /\ (let '(r, w) := BaseBLL_delete ETweet 1 (init_world db_one_tweet [Go; Fault] seed0) in
      r = Ret 1 /\ db w = db_one_tweet /\ log w = [Open 0; Rollback 0; Close 0])
  /\ (forall (E : Entity) (d : DB) (seed : string -> Z),
         fst (BaseBLL_delete_all E (init_world d [Fault] seed)) = Ret None).
Proof.
  split; [|split].
  - intros. destruct E; reflexivity.
  - vm_compute. repeat split; reflexivity.
  - intros. destruct E; reflexivity.
Qed.

(** The sibling write operations do report 0: the author upsert when its
    statement or its commit fails, and the purge of the tweets when its
    commit fails. *)
Lemma sibling_writes_return_zero (id : Z) (un dn : string) (ts : Z) (d : DB)
    (sc : list Tick) (seed : string -> Z) :
  fst (TwitterUserBLL_upsert id un dn ts (init_world d (Fault :: sc) seed)) = Ret 0
  /\ fst (TwitterUserBLL_upsert id un dn ts (init_world d (Go :: Fault :: sc) seed)) = Ret 0
  /\ fst (TweetBLL_delete_all (init_world d [Go; Go; Fault] seed)) = Ret (Some 0).
Proof.
  split; [reflexivity|]. split; [reflexivity|].
  unfold TweetBLL_delete_all, BaseDAL_delete_all, bind, attempt, execute, init_world.
  simpl.
  destruct (existsb _ _); reflexivity.
Qed.

(* ================================================================== *)
(** * Sessions acquired and released *)
(* ================================================================== *)

(** C3.  On the retry path of [insert_if_not_exists] the first session is
    never closed.  A concurrent caller commits hashtag [a] between the
    lookup and the INSERT: the call opens sessions 0 and 1, closes session
    1 only, and returns with session 0 still open.  When the lookup itself
    fails, the call raises with its session open; and
    [TopicBLL.find_by_title] never closes the session it opens. *)
Theorem retry_path_leaves_session_open :
  (let '(r, w) := HashtagBLL_insert_if_not_exists "a"
                    (init_world empty_db [Go; Rival KHashtag "a"] seed0) in
   r = Ret 1 /\ log w = [Open 0; Open 1; Close 1]
   /\ map fst (sessions w) = [0%nat])
  /\ (forall (k : TagKind) (text : string) (d : DB) (sc : list Tick) (seed : string -> Z),
         Tag_insert_if_not_exists k text (init_world d (Fault :: sc) seed)
         = (Raise OperationalError,
            {| db := d; sessions := [(0%nat, empty_session)]; next_sid := 1;
               log := [Open 0]; sched := sc; hashseed := seed |}))
  /\ (forall (title : string) (d : DB) (seed : string -> Z),
         let w := snd (TopicBLL_find_by_title title (init_world d [] seed)) in
         log w = [Open 0] /\ map fst (sessions w) = [0%nat]).
Proof.
  split; [|split].
  - vm_compute. repeat split; reflexivity.
  - intros. reflexivity.
  - intros. split; reflexivity.
Qed.

(* ================================================================== *)
(** * Topic links *)
(* ================================================================== *)

(** C4.  The topic ids are collected in a [set], and the links are
    numbered in the order the set yields them.  With topics [x] (id 1) and
    [y] (id 2) in the store, an upsert with topics [["y"; "x"]] stores
    [x] at index 0 and [y] at index 1. *)
Theorem topic_links_follow_set_order :
  let '(r, w) := TweetBLL_upsert 10 100 "alice" "Alice" (Some "hi") None 5 None 0 0 0
                   (Some ["y"; "x"]) (init_world db_two_topics [] seed0) in
  r = Ret 1 /\ topic (db w) = topic db_two_topics
  /\ tweet_topic (db w) = [(10, 1, 0); (10, 2, 1)].
Proof. vm_compute. repeat split; reflexivity. Qed.

(* ================================================================== *)
(** * The ingestion upsert under a failure of its transaction *)
(* ================================================================== *)




(* ================================================================== *)
(** * Rows of a tag table *)
(* ================================================================== *)

Lemma existsb_text_In (l : list Tag) (s : string) :
  existsb (fun r => String.eqb (tag_text r) s) l = true <-> In s (map tag_text l).
Proof.
  induction l as [|a l IH]; simpl.
  - split; [discriminate | tauto].
  - rewrite orb_true_iff, IH, String.eqb_eq. tauto.
Qed.

Lemma existsb_text_false (l : list Tag) (s : string) :
  existsb (fun r => String.eqb (tag_text r) s) l = false <-> ~ In s (map tag_text l).
Proof.
  rewrite <- existsb_text_In. destruct (existsb _ l); split; congruence.
Qed.

Lemma filter_text_nil (l : list Tag) (s : string) :
  ~ In s (map tag_text l) -> filter (fun r => String.eqb (tag_text r) s) l = [].
Proof.
  induction l as [|a l IH]; simpl; intros H; [reflexivity|].
  destruct (String.eqb (tag_text a) s) eqn:E.
  - apply String.eqb_eq in E. tauto.
  - apply IH. tauto.
Qed.

Lemma filter_text_nil_inv (l : list Tag) (s : string) :
  filter (fun r => String.eqb (tag_text r) s) l = [] -> ~ In s (map tag_text l).
Proof.
  induction l as [|a l IH]; simpl; intros H; [tauto|].
  destruct (String.eqb (tag_text a) s) eqn:E; [discriminate|].
  apply String.eqb_neq in E. intros [F|F]; [congruence | exact (IH H F)].
Qed.

Lemma filter_text_unique (l : list Tag) (r : Tag) :
  NoDup (map tag_text l) -> In r l ->
  filter (fun x => String.eqb (tag_text x) (tag_text r)) l = [r].
Proof.
  induction l as [|a l IH]; simpl; intros ND Hin; [contradiction|].
  inversion ND as [|? ? Hn ND']; subst.
  destruct Hin as [->|Hin].
  - rewrite String.eqb_refl. f_equal. apply filter_text_nil. exact Hn.
  - destruct (String.eqb (tag_text a) (tag_text r)) eqn:E.
    + apply String.eqb_eq in E. exfalso. apply Hn. rewrite E. apply in_map. exact Hin.
    + apply IH; assumption.
Qed.

(** A unique text selects no row or one row. *)
Lemma filter_text_cases (l : list Tag) (s : string) :
  NoDup (map tag_text l) ->
  filter (fun r => String.eqb (tag_text r) s) l = []
  \/ exists r, In r l /\ tag_text r = s
               /\ filter (fun r => String.eqb (tag_text r) s) l = [r].
Proof.
  intros ND.
  destruct (existsb (fun r => String.eqb (tag_text r) s) l) eqn:E.
  - right. apply existsb_exists in E. destruct E as [r [Hin Heq]].
    apply String.eqb_eq in Heq. exists r. repeat split; try assumption.
    subst s. apply filter_text_unique; assumption.
  - left. apply filter_text_nil. apply existsb_text_false. exact E.
Qed.

Lemma filter_id_unique (l : list Tag) (r : Tag) :
  NoDup (map tag_id l) -> In r l ->
  filter (fun x => tag_id x =? tag_id r) l = [r].
Proof.
  induction l as [|a l IH]; simpl; intros ND Hin; [contradiction|].
  inversion ND as [|? ? Hn ND']; subst.
  destruct Hin as [->|Hin].
  - rewrite Z.eqb_refl. f_equal.
    clear IH ND ND'. induction l as [|b l IH]; simpl; [reflexivity|].
    simpl in Hn. destruct (tag_id b =? tag_id r) eqn:E.
    + apply Z.eqb_eq in E. tauto.
    + apply IH. tauto.
  - destruct (tag_id a =? tag_id r) eqn:E.
    + apply Z.eqb_eq in E. exfalso. apply Hn. rewrite E. apply in_map. exact Hin.
    + apply IH; assumption.
Qed.

Lemma has_tag_id_In (k : TagKind) (d : DB) (r : Tag) :
  In r (tags k d) -> has_tag_id k (tag_id r) d = true.
Proof.
  intros H. unfold has_tag_id. apply existsb_exists. exists r. split; [exact H|].
  apply Z.eqb_refl.
Qed.

(** ** Reading the fields of an updated store *)

Lemma tags_add_tag (k k' : TagKind) (id : Z) (s : string) (d : DB) :
  tags k' (add_tag k id s d)
  = match k, k' with
    | KHashtag, KHashtag | KTopic, KTopic =>
        tags k' d ++ [{| tag_id := id; tag_text := s; tag_use_count := 0 |}]
    | _, _ => tags k' d
    end.
Proof. destruct k, k'; reflexivity. Qed.

Lemma tags_with_tag_seq (k k' : TagKind) (n : Z) (d : DB) :
  tags k' (with_tag_seq k n d) = tags k' d.
Proof. destruct k, k'; reflexivity. Qed.

Lemma tag_seq_add_tag (k k' : TagKind) (id : Z) (s : string) (d : DB) :
  tag_seq k' (add_tag k id s d) = tag_seq k' d.
Proof. destruct k, k'; reflexivity. Qed.

Lemma tag_seq_with_tag_seq (k k' : TagKind) (n : Z) (d : DB) :
  tag_seq k' (with_tag_seq k n d)
  = match k, k' with
    | KHashtag, KHashtag | KTopic, KTopic => n
    | _, _ => tag_seq k' d
    end.
Proof. destruct k, k'; reflexivity. Qed.

Lemma tags_wf_bump (k k' : TagKind) (n : Z) (d : DB) :
  tag_seq k d <= n -> tags_wf k' d -> tags_wf k' (with_tag_seq k n d).
Proof.
  intros Hle [H1 [H2 H3]]. unfold tags_wf. rewrite tags_with_tag_seq.
  repeat split; try assumption.
  rewrite tag_seq_with_tag_seq.
  destruct k, k'; try assumption;
    (eapply Forall_impl; [|exact H3]); simpl; intros; simpl in *; lia.
Qed.

Lemma tags_wf_add_other (k k' : TagKind) (id : Z) (s : string) (d : DB) :
  k <> k' -> tags_wf k' d -> tags_wf k' (add_tag k id s d).
Proof.
  intros Hne H. unfold tags_wf in *. rewrite tags_add_tag, tag_seq_add_tag.
  destruct k, k'; try congruence; exact H.
Qed.

(** Committing a pending row keeps the table well formed. *)
Lemma pending_ok_commit (k : TagKind) (id : Z) (s : string) (d : DB) :
  pending_ok k id s d -> tags_wf k (add_tag k id s d).
Proof.
  intros [[H1 [H2 H3]] [Hlt [Hid Htx]]]. unfold tags_wf.
  rewrite tags_add_tag, tag_seq_add_tag.
  assert (E : (match k, k with
               | KHashtag, KHashtag | KTopic, KTopic =>
                   tags k d ++ [{| tag_id := id; tag_text := s; tag_use_count := 0 |}]
               | _, _ => tags k d
               end) = tags k d ++ [{| tag_id := id; tag_text := s; tag_use_count := 0 |}])
    by (destruct k; reflexivity).
  rewrite E. rewrite !map_app. simpl. repeat split.
  - apply NoDup_app; [exact H1 | repeat constructor; simpl; tauto |].
    intros x Hx [Hy|[]]. subst x. tauto.
  - apply NoDup_app; [exact H2 | repeat constructor; simpl; tauto |].
    intros x Hx [Hy|[]]. subst x. tauto.
  - apply Forall_app. split; [exact H3 | repeat constructor; simpl; exact Hlt].
Qed.

(* ================================================================== *)
(** * The store between two round trips *)
(* ================================================================== *)

Lemma NoFault_tl (sc : list Tick) : NoFault sc -> NoFault (tl sc).
Proof. intros H. destruct sc; [constructor | inversion H; assumption]. Qed.

Lemma tick_nofault (d : DB) (ss : list (nat * Session)) (n : nat) (lg : list Event)
    (sc : list Tick) (seed : string -> Z) :
  NoFault sc ->
  exists t, t <> Fault
    /\ tick {| db := d; sessions := ss; next_sid := n; log := lg; sched := sc;
               hashseed := seed |}
       = (t, {| db := tick_db ss d sc; sessions := ss; next_sid := n; log := lg;
                sched := tl sc; hashseed := seed |}).
Proof.
  intros H. destruct sc as [|[| |k s] r].
  - exists Go. split; [discriminate | reflexivity].
  - exists Go. split; [discriminate | reflexivity].
  - inversion H; subst. congruence.
  - exists (Rival k s). split; [discriminate|].
    unfold tick_db, tick, rival_commit, text_taken. simpl.
    destruct (existsb _ (tags k d) || existsb _ ss); reflexivity.
Qed.

(** The next round trip leaves the store as it is, or a rival commits one
    row whose text no one holds. *)
Lemma tick_db_cases (ss : list (nat * Session)) (d : DB) (sc : list Tick) :
  tick_db ss d sc = d
  \/ exists k s,
       ~ In s (map tag_text (tags k d))
       /\ (forall e, In e ss ->
             ~ In s (map tag_text (tags k (apply_writes (pending (snd e)) d))))
       /\ tick_db ss d sc
          = with_tag_seq k (tag_seq k d + 1) (add_tag k (tag_seq k d) s d).
Proof.
  destruct sc as [|[| |k s] r]; try (left; reflexivity).
  unfold tick_db, tick, rival_commit, text_taken. simpl.
  destruct (existsb (fun r0 => String.eqb (tag_text r0) s) (tags k d)) eqn:E1;
    [left; reflexivity|].
  destruct (existsb _ ss) eqn:E2; [left; reflexivity|].
  right. exists k, s. simpl. repeat split.
  - apply existsb_text_false. exact E1.
  - intros e He. apply existsb_text_false.
    apply not_true_is_false. intros F.
    assert (X : existsb
                  (fun e0 => existsb (fun r0 => String.eqb (tag_text r0) s)
                               (tags k (apply_writes (pending (snd e0)) d))) ss = true)
      by (apply existsb_exists; exists e; split; assumption).
    rewrite X in E2. discriminate.
Qed.

Lemma tick_db_frame (ss : list (nat * Session)) (d : DB) (sc : list Tick) :
  twitter_user (tick_db ss d sc) = twitter_user d
  /\ tweet (tick_db ss d sc) = tweet d
  /\ tweet_hashtag (tick_db ss d sc) = tweet_hashtag d
  /\ tweet_topic (tick_db ss d sc) = tweet_topic d.
Proof.
  destruct (tick_db_cases ss d sc) as [E|[k [s [_ [_ E]]]]]; rewrite E.
  - repeat split.
  - destruct k; repeat split.
Qed.

Lemma tags_grow_refl (d : DB) : tags_grow d d.
Proof. intros k. split; [exists []; symmetry; apply app_nil_r | lia]. Qed.

Lemma tags_grow_trans (a b c : DB) : tags_grow a b -> tags_grow b c -> tags_grow a c.
Proof.
  intros H1 H2 k. destruct (H1 k) as [[x Hx] L1]. destruct (H2 k) as [[y Hy] L2].
  split; [|lia]. exists (x ++ y). rewrite Hy, Hx. symmetry. apply app_assoc.
Qed.

Lemma tags_grow_In (d d' : DB) (k : TagKind) (r : Tag) :
  tags_grow d d' -> In r (tags k d) -> In r (tags k d').
Proof.
  intros H Hin. destruct (H k) as [[x Hx] _]. rewrite Hx. apply in_or_app. tauto.
Qed.

Lemma tags_grow_step (k : TagKind) (s : string) (d : DB) :
  tags_grow d (with_tag_seq k (tag_seq k d + 1) (add_tag k (tag_seq k d) s d)).
Proof.
  intros k'. rewrite tags_with_tag_seq, tags_add_tag, tag_seq_with_tag_seq,
    tag_seq_add_tag.
  destruct k, k'; split; try lia;
    try (eexists; reflexivity); exists []; symmetry; apply app_nil_r.
Qed.

Lemma tick_db_grow (ss : list (nat * Session)) (d : DB) (sc : list Tick) :
  tags_grow d (tick_db ss d sc).
Proof.
  destruct (tick_db_cases ss d sc) as [E|[k [s [_ [_ E]]]]]; rewrite E.
  - apply tags_grow_refl.
  - apply tags_grow_step.
Qed.

Lemma add_tag_with_tag_seq (k k' : TagKind) (n id : Z) (s : string) (d : DB) :
  with_tag_seq k' n (add_tag k id s d) = add_tag k id s (with_tag_seq k' n d).
Proof. destruct k, k'; reflexivity. Qed.

(** The state of a table after an INSERT drew its id. *)
Lemma pending_ok_drawn (k : TagKind) (s : string) (d : DB) :
  ~ In s (map tag_text (tags k d)) -> tags_wf k d ->
  pending_ok k (tag_seq k d) s (with_tag_seq k (tag_seq k d + 1) d).
Proof.
  intros Hs [H1 [H2 H3]]. unfold pending_ok.
  split; [apply tags_wf_bump; [lia | repeat split; assumption]|].
  rewrite tags_with_tag_seq, tag_seq_with_tag_seq.
  repeat split.
  - destruct k; lia.
  - intros F. apply in_map_iff in F. destruct F as [r [Hr Hin]].
    rewrite Forall_forall in H3. specialize (H3 r Hin). lia.
  - exact Hs.
Qed.

(** A fresh row taken from the counter keeps a table well formed. *)
Lemma tags_wf_step (k k' : TagKind) (s : string) (d : DB) :
  ~ In s (map tag_text (tags k d)) -> tags_wf k' d ->
  tags_wf k' (with_tag_seq k (tag_seq k d + 1) (add_tag k (tag_seq k d) s d)).
Proof.
  intros Hs H.
  assert (Hk : k = k' \/ k <> k')
    by (destruct k, k'; (left; reflexivity) || (right; discriminate)).
  destruct Hk as [<-|Hne].
  - rewrite add_tag_with_tag_seq. apply pending_ok_commit.
    apply pending_ok_drawn; assumption.
  - apply tags_wf_bump; [rewrite tag_seq_add_tag; lia|].
    apply tags_wf_add_other; assumption.
Qed.

Lemma tick_db_wf (ss : list (nat * Session)) (d : DB) (sc : list Tick) (k : TagKind) :
  tags_wf k d -> tags_wf k (tick_db ss d sc).
Proof.
  intros H. destruct (tick_db_cases ss d sc) as [E|[k0 [s [Hs [_ E]]]]]; rewrite E.
  - exact H.
  - apply tags_wf_step; assumption.
Qed.

Lemma tick_db_ok (ss : list (nat * Session)) (d : DB) (sc : list Tick) :
  store_ok d -> store_ok (tick_db ss d sc).
Proof. intros [H1 H2]. split; apply tick_db_wf; assumption. Qed.

Lemma tags_with_text_step (k k' : TagKind) (s text : string) (d : DB) :
  (k = k' -> s <> text) ->
  tags_with_text k' text (with_tag_seq k (tag_seq k d + 1) (add_tag k (tag_seq k d) s d))
  = tags_with_text k' text d.
Proof.
  intros H. unfold tags_with_text. rewrite tags_with_tag_seq, tags_add_tag.
  destruct k, k'; try reflexivity; rewrite filter_app; simpl;
    (destruct (String.eqb s text) eqn:E;
     [apply String.eqb_eq in E; exfalso; apply H; auto | apply app_nil_r]).
Qed.

(** A text that is committed stays with the same rows. *)
Lemma tick_db_kept (ss : list (nat * Session)) (d : DB) (sc : list Tick) (k : TagKind)
    (text : string) :
  In text (map tag_text (tags k d)) ->
  tags_with_text k text (tick_db ss d sc) = tags_with_text k text d.
Proof.
  intros H. destruct (tick_db_cases ss d sc) as [E|[k0 [s [Hs [_ E]]]]]; rewrite E.
  - reflexivity.
  - apply tags_with_text_step. intros -> ->. tauto.
Qed.

(** A text held by an open transaction cannot be committed by a rival. *)
Lemma tick_db_held (ss : list (nat * Session)) (d : DB) (sc : list Tick) (k : TagKind)
    (text : string) (e : nat * Session) :
  In e ss -> In text (map tag_text (tags k (apply_writes (pending (snd e)) d))) ->
  tags_with_text k text (tick_db ss d sc) = tags_with_text k text d.
Proof.
  intros He H. destruct (tick_db_cases ss d sc) as [E|[k0 [s [_ [Hs E]]]]]; rewrite E.
  - reflexivity.
  - apply tags_with_text_step. intros -> ->. exact (Hs e He H).
Qed.

(** ... and the row it holds still fits after the round trip. *)
Lemma tick_db_pending_ok (ss : list (nat * Session)) (d : DB) (sc : list Tick)
    (k : TagKind) (id : Z) (text : string) (e : nat * Session) :
  In e ss -> In text (map tag_text (tags k (apply_writes (pending (snd e)) d))) ->
  pending_ok k id text d -> pending_ok k id text (tick_db ss d sc).
Proof.
  intros He Hheld H.
  destruct (tick_db_cases ss d sc) as [E|[k0 [s [Hs0 [Hs E]]]]]; rewrite E; [exact H|].
  destruct H as [Hwf [Hlt [Hid Htx]]].
  unfold pending_ok. split; [apply tags_wf_step; assumption|].
  rewrite tags_with_tag_seq, tags_add_tag, tag_seq_with_tag_seq, tag_seq_add_tag.
  assert (Hne : k0 = k -> s <> text) by (intros -> ->; exact (Hs e He Hheld)).
  destruct k0, k; simpl in *; repeat split; try assumption; try lia;
    rewrite map_app; simpl; intros F; apply in_app_or in F;
    destruct F as [F|[F|[]]]; try tauto; try lia;
    revert F; apply Hne; reflexivity.
Qed.

(* ================================================================== *)
(** * Round trips that the store does not reject *)
(* ================================================================== *)

Arguments tick_db : simpl never.

Abbreviation W := Build_World.

Lemma view_head (s : nat) (x : Session) (d : DB) (ss : list (nat * Session)) (n : nat)
    (lg : list Event) (sc : list Tick) (seed : string -> Z) :
  view s (W d ((s, x) :: ss) n lg sc seed) = apply_writes (pending x) d.
Proof. unfold view, get_session. simpl. rewrite Nat.eqb_refl. reflexivity. Qed.

Lemma get_session_head (s : nat) (x : Session) (d : DB) (ss : list (nat * Session))
    (n : nat) (lg : list Event) (sc : list Tick) (seed : string -> Z) :
  get_session s (W d ((s, x) :: ss) n lg sc seed) = x.
Proof. unfold get_session. simpl. rewrite Nat.eqb_refl. reflexivity. Qed.

Lemma put_session_head (s : nat) (x y : Session) (d : DB) (ss : list (nat * Session))
    (n : nat) (lg : list Event) (sc : list Tick) (seed : string -> Z) :
  put_session s y (W d ((s, x) :: ss) n lg sc seed) = W d ((s, y) :: ss) n lg sc seed.
Proof. unfold put_session, with_sessions. simpl. rewrite Nat.eqb_refl. reflexivity. Qed.

Lemma close_head (s : nat) (x : Session) (d : DB) (ss : list (nat * Session)) (n : nat)
    (lg : list Event) (sc : list Tick) (seed : string -> Z) :
  close s (W d ((s, x) :: ss) n lg sc seed)
  = (Ret tt, W d ss n (lg ++ [Close s]) sc seed).
Proof. unfold close, log_event, with_sessions. simpl. rewrite Nat.eqb_refl. reflexivity. Qed.

Lemma query_nofault {A} (s : nat) (q : DB -> Res A) (x : Session) (d : DB)
    (ss : list (nat * Session)) (n : nat) (lg : list Event) (sc : list Tick)
    (seed : string -> Z) :
  NoFault sc ->
  query s q (W d ((s, x) :: ss) n lg sc seed)
  = (q (apply_writes (pending x) (tick_db ((s, x) :: ss) d sc)),
     W (tick_db ((s, x) :: ss) d sc) ((s, x) :: ss) n lg (tl sc) seed).
Proof.
  intros H. unfold query.
  destruct (tick_nofault d ((s, x) :: ss) n lg sc seed H) as [t [Ht E]].
  rewrite E, view_head. destruct t; congruence.
Qed.

Lemma execute_nofault {A} (s : nat) (stmt : DB -> Res (A * (DB -> DB))) (x : Session)
    (d : DB) (ss : list (nat * Session)) (n : nat) (lg : list Event) (sc : list Tick)
    (seed : string -> Z) :
  NoFault sc ->
  execute s stmt (W d ((s, x) :: ss) n lg sc seed)
  = match stmt (apply_writes (pending x) (tick_db ((s, x) :: ss) d sc)) with
    | Ret (a, f) =>
        (Ret a,
         W (tick_db ((s, x) :: ss) d sc)
           ((s, {| pending := pending x ++ [f]; new_objs := new_objs x |}) :: ss)
           n lg (tl sc) seed)
    | Raise e =>
        (Raise e, W (tick_db ((s, x) :: ss) d sc) ((s, x) :: ss) n lg (tl sc) seed)
    end.
Proof.
  intros H. unfold execute.
  destruct (tick_nofault d ((s, x) :: ss) n lg sc seed H) as [t [Ht E]].
  rewrite E, view_head.
  destruct (stmt _) as [[a f]|e];
    [rewrite get_session_head, put_session_head|]; destruct t; congruence.
Qed.

Lemma insert_tag_row_nofault (k : TagKind) (s : nat) (value : string) (x : Session)
    (d : DB) (ss : list (nat * Session)) (n : nat) (lg : list Event) (sc : list Tick)
    (seed : string -> Z) :
  NoFault sc ->
  insert_tag_row k s value (W d ((s, x) :: ss) n lg sc seed)
  = let d1 := tick_db ((s, x) :: ss) d sc in
    if existsb (fun r => String.eqb (tag_text r) value) (tags k (apply_writes (pending x) d1))
    then (Raise IntegrityError, W d1 ((s, x) :: ss) n lg (tl sc) seed)
    else (Ret (tag_seq k d1),
          W (with_tag_seq k (tag_seq k d1 + 1) d1)
            ((s, {| pending := pending x ++ [add_tag k (tag_seq k d1) value];
                    new_objs := new_objs x |}) :: ss)
            n lg (tl sc) seed).
Proof.
  intros H. unfold insert_tag_row.
  destruct (tick_nofault d ((s, x) :: ss) n lg sc seed H) as [t [Ht E]].
  rewrite E, view_head. cbv zeta.
  destruct (existsb _ _).
  - destruct t; congruence.
  - unfold with_db. simpl. rewrite get_session_head, put_session_head.
    destruct t; congruence.
Qed.

(** A commit with nothing to flush: the COMMIT round trip alone. *)
Lemma commit_nofault (s : nat) (fs : list (DB -> DB)) (d : DB) (ss : list (nat * Session))
    (n : nat) (lg : list Event) (sc : list Tick) (seed : string -> Z) :
  NoFault sc ->
  commit s (W d ((s, {| pending := fs; new_objs := [] |}) :: ss) n lg sc seed)
  = (Ret tt,
     W (apply_writes fs
          (tick_db ((s, {| pending := fs; new_objs := [] |}) :: ss) d sc))
       ((s, empty_session) :: ss) n (lg ++ [Commit s]) (tl sc) seed).
Proof.
  intros H. unfold commit, bind, flush. rewrite get_session_head. simpl.
  destruct (tick_nofault d ((s, {| pending := fs; new_objs := [] |}) :: ss) n lg sc seed H)
    as [t [Ht E]].
  rewrite E, view_head. unfold with_db, log_event. simpl.
  rewrite Nat.eqb_refl. destruct t; congruence.
Qed.

(** A commit that flushes link rows first: two round trips. *)
Lemma commit_flush_nofault (s : nat) (fs : list (DB -> DB)) (o : NewObj) (os : list NewObj)
    (d : DB) (ss : list (nat * Session)) (n : nat) (lg : list Event) (sc : list Tick)
    (seed : string -> Z) :
  NoFault sc ->
  let x := {| pending := fs; new_objs := o :: os |} in
  let d1 := tick_db ((s, x) :: ss) d sc in
  commit s (W d ((s, x) :: ss) n lg sc seed)
  = match insert_objs (o :: os) (apply_writes fs d1) with
    | Some _ =>
        let x' := {| pending := fs ++ [fun d => match insert_objs (o :: os) d with
                                                | Some d' => d'
                                                | None => d
                                                end];
                     new_objs := [] |} in
        (Ret tt,
         W (apply_writes (pending x') (tick_db ((s, x') :: ss) d1 (tl sc)))
           ((s, empty_session) :: ss) n (lg ++ [Commit s]) (tl (tl sc)) seed)
    | None => (Raise IntegrityError, W d1 ((s, x) :: ss) n lg (tl sc) seed)
    end.
Proof.
  intros H x d1. unfold commit, bind, flush. rewrite get_session_head.
  unfold x at 1. cbv beta iota. simpl new_objs.
  destruct (tick_nofault d ((s, x) :: ss) n lg sc seed H) as [t [Ht E]].
  rewrite E, view_head. fold d1. simpl pending.
  destruct (insert_objs (o :: os) (apply_writes fs d1)) eqn:Eo.
  - assert (Hgo : forall (X : Type) (a b : X),
               match t with Fault => a | _ => b end = b)
      by (intros; destruct t; congruence).
    rewrite Hgo. rewrite get_session_head, put_session_head.
    destruct (tick_nofault d1
                ((s, {| pending := pending x ++
                          [fun d => match insert_objs (o :: os) d with
                                    | Some d' => d'
                                    | None => d
                                    end]; new_objs := [] |}) :: ss)
                n lg (tl sc) seed (NoFault_tl _ H)) as [t' [Ht' E']].
    rewrite E', view_head. unfold with_db, log_event. simpl.
    rewrite Nat.eqb_refl. destruct t'; congruence.
  - destruct t; congruence.
Qed.

(** From here on a round trip is taken through the lemmas above. *)
Opaque query execute insert_tag_row commit close.

(* ================================================================== *)
(** * The tag registry *)
(* ================================================================== *)

Lemma same_rows_refl (d : DB) : same_rows d d.
Proof. repeat split. Qed.

Lemma same_rows_trans (a b c : DB) : same_rows a b -> same_rows b c -> same_rows a c.
Proof.
  intros [A1 [A2 [A3 A4]]] [B1 [B2 [B3 B4]]].
  repeat split; congruence.
Qed.

Lemma same_rows_tick (ss : list (nat * Session)) (d : DB) (sc : list Tick) :
  same_rows d (tick_db ss d sc).
Proof. exact (tick_db_frame ss d sc). Qed.

Lemma same_rows_bump (k : TagKind) (n : Z) (d : DB) : same_rows d (with_tag_seq k n d).
Proof. destruct k; repeat split. Qed.

Lemma same_rows_add (k : TagKind) (id : Z) (s : string) (d : DB) :
  same_rows d (add_tag k id s d).
Proof. destruct k; repeat split. Qed.

Lemma tags_grow_bump (k : TagKind) (n : Z) (d : DB) :
  tag_seq k d <= n -> tags_grow d (with_tag_seq k n d).
Proof.
  intros H k'. rewrite tags_with_tag_seq, tag_seq_with_tag_seq.
  split; [exists []; symmetry; apply app_nil_r | destruct k, k'; simpl in *; lia].
Qed.

Lemma tags_grow_add (k : TagKind) (id : Z) (s : string) (d : DB) :
  tags_grow d (add_tag k id s d).
Proof.
  intros k'. rewrite tags_add_tag, tag_seq_add_tag. split; [|lia].
  destruct k, k'; try (eexists; reflexivity); exists []; symmetry; apply app_nil_r.
Qed.

Lemma TagDAL_insert_eq (k : TagKind) (s : nat) (text : string) :
  TagDAL_insert k s text = insert_tag_row k s (stored_text k text).
Proof. destruct k; reflexivity. Qed.

Lemma tags_with_text_add (k : TagKind) (id : Z) (text : string) (d : DB) :
  ~ In text (map tag_text (tags k d)) ->
  tags_with_text k text (add_tag k id text d)
  = [{| tag_id := id; tag_text := text; tag_use_count := 0 |}].
Proof.
  intros H. unfold tags_with_text. rewrite tags_add_tag.
  assert (E : filter (fun r => String.eqb (tag_text r) text) (tags k d) = [])
    by (apply filter_text_nil; exact H).
  destruct k; rewrite filter_app, E; simpl; rewrite String.eqb_refl; reflexivity.
Qed.

Lemma In_text_add (k : TagKind) (id : Z) (text : string) (d : DB) :
  In text (map tag_text (tags k (add_tag k id text d))).
Proof.
  rewrite tags_add_tag. destruct k; rewrite map_app; apply in_or_app; right; left; reflexivity.
Qed.

(** Get-or-create in a world where the store rejects nothing, whatever
    rivals commit in between: the call returns the id of the one row that
    carries the text afterwards, and it is the row that was there before
    when there was one. *)
Lemma Tag_insert_nofault (k : TagKind) (text : string) (d : DB)
    (ss : list (nat * Session)) (n : nat) (lg : list Event) (sc : list Tick)
    (seed : string -> Z) :
  store_ok d -> NoFault sc -> stored_text k text = text ->
  exists row d' ss' n' lg' sc',
    Tag_insert_if_not_exists k text (W d ss n lg sc seed)
    = (Ret (tag_id row), W d' ss' n' lg' sc' seed)
    /\ store_ok d' /\ NoFault sc' /\ tags_grow d d' /\ same_rows d d'
    /\ tags_with_text k text d' = [row]
    /\ (forall row0, tags_with_text k text d = [row0] -> row = row0).
Proof.
  intros Hok Hnf Hst.
  unfold Tag_insert_if_not_exists, bind, create_session. simpl.
  unfold TagDAL_find. rewrite query_nofault by assumption. simpl.
  set (d1 := tick_db ((n, empty_session) :: ss) d sc).
  assert (Hok1 : store_ok d1) by (apply tick_db_ok; exact Hok).
  assert (Hwf1 : tags_wf k d1) by (destruct k; [apply Hok1 | apply Hok1]).
  assert (Hkeep : forall row0, tags_with_text k text d = [row0] ->
                               tags_with_text k text d1 = [row0]).
  { intros row0 H0. unfold d1. rewrite tick_db_kept; [exact H0|].
    apply existsb_text_In. unfold tags_with_text in H0.
    destruct (existsb (fun r => String.eqb (tag_text r) text) (tags k d)) eqn:Ex;
      [reflexivity|].
    apply existsb_text_false in Ex. apply filter_text_nil in Ex.
    rewrite Ex in H0. discriminate. }
  unfold tags_with_text at 1.
  destruct (filter_text_cases (tags k d1) text (proj1 Hwf1)) as [E|[r [Hin [Htx E]]]];
    rewrite E; simpl.
  - (* the lookup misses *)
    unfold attempt. rewrite TagDAL_insert_eq, Hst.
    rewrite insert_tag_row_nofault by (apply NoFault_tl; exact Hnf).
    cbv zeta. simpl pending. simpl apply_writes.
    set (d2 := tick_db ((n, empty_session) :: ss) d1 (tl sc)).
    assert (Hok2 : store_ok d2) by (apply tick_db_ok; exact Hok1).
    assert (Hwf2 : tags_wf k d2) by (destruct k; [apply Hok2 | apply Hok2]).
    destruct (existsb (fun r => String.eqb (tag_text r) text) (tags k d2)) eqn:Ex.
    + (* a rival committed the text: IntegrityError, second session *)
      simpl. rewrite query_nofault by (do 2 apply NoFault_tl; exact Hnf). simpl.
      set (d3 := tick_db ((S n, empty_session) :: (n, empty_session) :: ss) d2
                   (tl (tl sc))).
      apply existsb_text_In in Ex.
      assert (E3 : tags_with_text k text d3 = tags_with_text k text d2)
        by (apply tick_db_kept; exact Ex).
      destruct (filter_text_cases (tags k d2) text (proj1 Hwf2)) as [E2|[r [Hin [Htx E2]]]].
      { apply filter_text_nil_inv in E2. tauto. }
      fold (tags_with_text k text d2) in E2. rewrite E3, E2. simpl.
      rewrite close_head. unfold ret. simpl.
      exists r, d3. do 4 eexists.
      split; [reflexivity|].
      split; [apply tick_db_ok; exact Hok2|].
      split; [do 3 apply NoFault_tl; exact Hnf|].
      split; [apply (tags_grow_trans _ d1); [apply tick_db_grow|];
              apply (tags_grow_trans _ d2); apply tick_db_grow|].
      split; [apply (same_rows_trans _ d1); [apply same_rows_tick|];
              apply (same_rows_trans _ d2); apply same_rows_tick|].
      split; [rewrite E3; exact E2|].
      intros row0 H0. apply Hkeep in H0. unfold tags_with_text in H0.
      rewrite E in H0. discriminate.
    + (* the INSERT goes through; commit *)
      simpl. rewrite commit_nofault by (do 2 apply NoFault_tl; exact Hnf).
      simpl. rewrite close_head. unfold ret. simpl.
      set (id := tag_seq k d2).
      set (d2' := with_tag_seq k (id + 1) d2).
      set (d3 := tick_db ((n, {| pending := [add_tag k id text]; new_objs := [] |}) :: ss)
                   d2' (tl (tl sc))).
      apply existsb_text_false in Ex.
      assert (Hp2 : pending_ok k id text d2')
        by (apply pending_ok_drawn; [exact Ex | exact Hwf2]).
      assert (Hheld : In text (map tag_text
                (tags k (apply_writes
                           (pending (snd (n, {| pending := [add_tag k id text];
                                                new_objs := [] |}))) d2'))))
        by (simpl; apply In_text_add).
      assert (Hp3 : pending_ok k id text d3)
        by (eapply tick_db_pending_ok; [left; reflexivity | exact Hheld | exact Hp2]).
      exists {| tag_id := id; tag_text := text; tag_use_count := 0 |},
        (add_tag k id text d3). do 4 eexists.
      split; [reflexivity|].
      split.
      { assert (Hok3 : store_ok d3).
        { apply tick_db_ok. unfold d2'.
          destruct Hok2 as [Ha Hb].
          split; apply tags_wf_bump; try assumption; unfold id; lia. }
        destruct k; split;
          try (apply pending_ok_commit; exact Hp3);
          apply tags_wf_add_other; try discriminate; apply Hok3. }
      split; [do 3 apply NoFault_tl; exact Hnf|].
      split.
      { apply (tags_grow_trans _ d1); [apply tick_db_grow|].
        apply (tags_grow_trans _ d2); [apply tick_db_grow|].
        apply (tags_grow_trans _ d2'); [apply tags_grow_bump; unfold id; lia|].
        apply (tags_grow_trans _ d3); [apply tick_db_grow | apply tags_grow_add]. }
      split.
      { apply (same_rows_trans _ d1); [apply same_rows_tick|].
        apply (same_rows_trans _ d2); [apply same_rows_tick|].
        apply (same_rows_trans _ d2'); [apply same_rows_bump|].
        apply (same_rows_trans _ d3); [apply same_rows_tick | apply same_rows_add]. }
      split; [apply tags_with_text_add; apply Hp3|].
      intros row0 H0. apply Hkeep in H0. unfold tags_with_text in H0.
      rewrite E in H0. discriminate.
  - (* the lookup finds the row: no write *)
    rewrite close_head. unfold ret. simpl.
    exists r, d1. do 4 eexists.
    split; [reflexivity|].
    split; [exact Hok1|].
    split; [apply NoFault_tl; exact Hnf|].
    split; [apply tick_db_grow|].
    split; [apply same_rows_tick|].
    split; [exact E|].
    intros row0 H0. apply Hkeep in H0. unfold tags_with_text in H0.
    rewrite E in H0. congruence.
Qed.

Lemma store_ok_empty : store_ok empty_db.
Proof. split; (split; [constructor | split; constructor]). Qed.

Lemma tick_db_go (ss : list (nat * Session)) (d : DB) (r : list Tick) :
  tick_db ss d (Go :: r) = d.
Proof. reflexivity. Qed.

Lemma tick_db_rival (ss : list (nat * Session)) (d : DB) (k : TagKind) (s : string)
    (r : list Tick) :
  tick_db ss d (Rival k s :: r)
  = if existsb (fun x => String.eqb (tag_text x) s) (tags k d)
       || existsb (fun e => existsb (fun x => String.eqb (tag_text x) s)
                              (tags k (apply_writes (pending (snd e)) d))) ss
    then d
    else with_tag_seq k (tag_seq k d + 1) (add_tag k (tag_seq k d) s d).
Proof.
  unfold tick_db, tick, rival_commit, text_taken. simpl.
  destruct (existsb _ (tags k d) || existsb _ ss); reflexivity.
Qed.

(** The lookup finds a row: one SELECT, the session closed, the id of the
    row returned. *)
Lemma Tag_insert_found (k : TagKind) (text : string) (row0 : Tag) (d : DB)
    (ss : list (nat * Session)) (n : nat) (lg : list Event) (sc : list Tick)
    (seed : string -> Z) :
  NoFault sc -> tags_with_text k text d = [row0] ->
  Tag_insert_if_not_exists k text (W d ss n lg sc seed)
  = (Ret (tag_id row0),
     W (tick_db ((n, empty_session) :: ss) d sc) ss (S n) ((lg ++ [Open n]) ++ [Close n])
       (tl sc) seed).
Proof.
  intros Hnf H0.
  unfold Tag_insert_if_not_exists, bind, create_session. simpl.
  unfold TagDAL_find. rewrite query_nofault by assumption. simpl.
  rewrite tick_db_kept.
  - rewrite H0. simpl. rewrite close_head. reflexivity.
  - apply existsb_text_In. unfold tags_with_text in H0.
    destruct (existsb (fun r => String.eqb (tag_text r) text) (tags k d)) eqn:Ex;
      [reflexivity|].
    apply existsb_text_false in Ex. apply filter_text_nil in Ex.
    rewrite Ex in H0. discriminate.
Qed.

(** C6.  Get-or-create of a hashtag or topic is idempotent.  In every run
    in which the store rejects no round trip, whatever rows concurrent
    callers commit in between, two calls with the same normalized text
    return the same id and the table holds exactly one row with that text
    after each.  When the first lookup finds the text the call makes that
    one round trip and commits nothing.  When a concurrent caller commits
    the text between the lookup and the INSERT, the INSERT fails, the call
    looks the text up again in a second session and returns the id of the
    row now there. *)
Theorem get_or_create_idempotent :
  forall (k : TagKind) (text : string) (d : DB) (sc : list Tick) (seed : string -> Z),
    store_ok d -> NoFault sc -> stored_text k text = text ->
    let '(r1, w1) := Tag_insert_if_not_exists k text (init_world d sc seed) in
    let '(r2, w2) := Tag_insert_if_not_exists k text w1 in
    (exists row,
        r1 = Ret (tag_id row) /\ r2 = Ret (tag_id row)
        /\ tags_with_text k text (db w1) = [row]
        /\ tags_with_text k text (db w2) = [row])
    /\ (forall row0,
           tags_with_text k text d = [row0] ->
           r1 = Ret (tag_id row0) /\ log w1 = [Open 0; Close 0] /\ sched w1 = tl sc
           /\ (sc = [] -> db w1 = d))
    /\ (forall rest,
           tags_with_text k text d = [] -> sc = Go :: Rival k text :: rest ->
           r1 = Ret (tag_seq k d)
           /\ tags_with_text k text (db w1)
              = [{| tag_id := tag_seq k d; tag_text := text; tag_use_count := 0 |}]
           /\ log w1 = [Open 0; Open 1; Close 1]).
Proof.
  intros k text d sc seed Hok Hnf Hst. unfold init_world.
  destruct (Tag_insert_nofault k text d [] 0%nat [] sc seed Hok Hnf Hst)
    as [row [d1 [ss1 [n1 [lg1 [sc1 [E1 [Hok1 [Hnf1 [_ [_ [T1 Hsame1]]]]]]]]]]]].
  destruct (Tag_insert_nofault k text d1 ss1 n1 lg1 sc1 seed Hok1 Hnf1 Hst)
    as [row2 [d2 [ss2 [n2 [lg2 [sc2 [E2 [_ [_ [_ [_ [T2 Hsame2]]]]]]]]]]]].
  rewrite E1, E2.
  assert (row2 = row) by (apply Hsame2; exact T1). subst row2.
  split; [|split].
  - exists row. repeat split; assumption.
  - intros row0 H0.
    rewrite (Tag_insert_found k text row0 d [] 0%nat [] sc seed Hnf H0) in E1.
    inversion E1; subst. repeat split; try reflexivity.
    intros ->. reflexivity.
  - intros rest Hnone ->.
    assert (Hx : existsb (fun r => String.eqb (tag_text r) text) (tags k d) = false).
    { apply existsb_text_false. apply filter_text_nil_inv. exact Hnone. }
    assert (Hrow : tags_with_text k text
                     (with_tag_seq k (tag_seq k d + 1) (add_tag k (tag_seq k d) text d))
                   = [{| tag_id := tag_seq k d; tag_text := text; tag_use_count := 0 |}]).
    { rewrite add_tag_with_tag_seq.
      replace (tags_with_text k text (add_tag k (tag_seq k d) text
                                        (with_tag_seq k (tag_seq k d + 1) d)))
        with (tags_with_text k text (add_tag k (tag_seq k d) text d))
        by (unfold tags_with_text; rewrite !tags_add_tag, tags_with_tag_seq; reflexivity).
      apply tags_with_text_add. apply existsb_text_false. exact Hx. }
    revert E1.
    unfold Tag_insert_if_not_exists, bind, create_session. simpl.
    unfold TagDAL_find. rewrite query_nofault by assumption. simpl.
    rewrite tick_db_go, Hnone. simpl.
    unfold attempt. rewrite TagDAL_insert_eq, Hst.
    rewrite insert_tag_row_nofault by (exact (NoFault_tl _ Hnf)).
    cbv zeta. simpl pending. simpl apply_writes. simpl tl.
    rewrite tick_db_rival. simpl. rewrite Hx. simpl.
    assert (Hy : existsb (fun r => String.eqb (tag_text r) text)
                   (tags k (with_tag_seq k (tag_seq k d + 1)
                              (add_tag k (tag_seq k d) text d))) = true).
    { apply existsb_text_In. rewrite tags_with_tag_seq. apply In_text_add. }
    rewrite Hy. simpl.
    rewrite query_nofault by (exact (NoFault_tl _ (NoFault_tl _ Hnf))). simpl.
    rewrite tick_db_kept by (apply existsb_text_In; exact Hy).
    rewrite Hrow. simpl. rewrite close_head. unfold ret.
    intros E1. inversion E1; subst. simpl.
    repeat split; try reflexivity.
    rewrite tick_db_kept by (apply existsb_text_In; exact Hy). exact Hrow.
Qed.

Lemma get_or_create_idempotent_witness :
  store_ok empty_db /\ NoFault [Go; Rival KHashtag "btc"]
  /\ stored_text KHashtag "btc" = "btc"
  /\ let '(r1, w1) := Tag_insert_if_not_exists KHashtag "btc"
                        (init_world empty_db [Go; Rival KHashtag "btc"] seed0) in
     let '(r2, w2) := Tag_insert_if_not_exists KHashtag "btc" w1 in
     (exists row,
         r1 = Ret (tag_id row) /\ r2 = Ret (tag_id row)
         /\ tags_with_text KHashtag "btc" (db w1) = [row]
         /\ tags_with_text KHashtag "btc" (db w2) = [row])
     /\ (forall row0,
            tags_with_text KHashtag "btc" empty_db = [row0] ->
            r1 = Ret (tag_id row0) /\ log w1 = [Open 0; Close 0]
            /\ sched w1 = tl [Go; Rival KHashtag "btc"]
            /\ ([Go; Rival KHashtag "btc"] = [] -> db w1 = empty_db))
     /\ (forall rest,
            tags_with_text KHashtag "btc" empty_db = [] ->
            [Go; Rival KHashtag "btc"] = Go :: Rival KHashtag "btc" :: rest ->
            r1 = Ret (tag_seq KHashtag empty_db)
            /\ tags_with_text KHashtag "btc" (db w1)
               = [{| tag_id := tag_seq KHashtag empty_db; tag_text := "btc";
                     tag_use_count := 0 |}]
            /\ log w1 = [Open 0; Open 1; Close 1]).
Proof.
  split; [exact store_ok_empty|].
  split; [repeat constructor; discriminate|].
  split; [reflexivity|].
  apply (get_or_create_idempotent KHashtag "btc" empty_db [Go; Rival KHashtag "btc"] seed0).
  - exact store_ok_empty.
  - repeat constructor; discriminate.
  - reflexivity.
Defined.

(* ================================================================== *)
(** * The transaction of the ingestion upsert *)
(* ================================================================== *)

Lemma truncate_Some (n : nat) (c : string) : truncate n (Some c) = Some (clip n c).
Proof. unfold truncate, clip. destruct (n <? String.length c)%nat; reflexivity. Qed.


Lemma find_upsert_user (id : Z) (username display_name : string) (ts : Z)
    (l : list TwitterUser) (old : TwitterUser) :
  find (fun u => tu_id u =? id) l = Some old ->
  find (fun u => tu_id u =? id) (upsert_user_rows id username display_name ts l)
  = Some (user_on_duplicate old username display_name ts).
Proof.
  intros H. unfold upsert_user_rows.
  assert (Hex : existsb (fun u => tu_id u =? id) l = true).
  { apply existsb_exists. apply find_some in H. exists old. exact H. }
  rewrite Hex. clear Hex.
  induction l as [|a l IH]; simpl in *; [discriminate|].
  destruct (tu_id a =? id) eqn:E.
  - inversion H; subst. simpl. rewrite E. reflexivity.
  - rewrite E. apply IH. exact H.
Qed.

Lemma has_upsert_user (id : Z) (username display_name : string) (ts : Z)
    (l : list TwitterUser) :
  existsb (fun u => tu_id u =? id) (upsert_user_rows id username display_name ts l) = true.
Proof.
  unfold upsert_user_rows.
  destruct (existsb (fun u => tu_id u =? id) l) eqn:E.
  - apply existsb_exists in E. destruct E as [u [Hin Hu]].
    apply existsb_exists.
    exists (user_on_duplicate u username display_name ts). split.
    + apply in_map_iff. exists u. rewrite Hu. split; [reflexivity | exact Hin].
    + exact Hu.
  - rewrite existsb_app. simpl. rewrite Z.eqb_refl. apply orb_true_r.
Qed.

(** The row of the tweet after its upsert carries the content and the
    language of the call. *)
Lemma find_upsert_tweet (tid uid : Z) (c : string) (lang : option string) (ts : Z)
    (sent : option Z) (lk rt rp : Z) (l : list Tweet) :
  exists row,
    find (fun t => tw_id t =? tid) (upsert_tweet_rows tid uid c lang ts sent lk rt rp l)
    = Some row
    /\ tw_content row = c /\ tw_language row = lang.
Proof.
  unfold upsert_tweet_rows.
  destruct (existsb (fun t => tw_id t =? tid) l) eqn:E.
  - induction l as [|a l IH]; simpl in *; [discriminate|].
    destruct (tw_id a =? tid) eqn:Ea.
    + simpl. rewrite Ea. eexists. split; [reflexivity|]. split; reflexivity.
    + rewrite Ea. apply IH. exact E.
  - induction l as [|a l IH]; simpl in *.
    + rewrite Z.eqb_refl. eexists. split; [reflexivity|]. split; reflexivity.
    + destruct (tw_id a =? tid) eqn:Ea; [discriminate|]. apply IH. exact E.
Qed.

Lemma has_upsert_tweet (tid uid : Z) (c : string) (lang : option string) (ts : Z)
    (sent : option Z) (lk rt rp : Z) (l : list Tweet) :
  existsb (fun t => tw_id t =? tid) (upsert_tweet_rows tid uid c lang ts sent lk rt rp l)
  = true.
Proof.
  destruct (find_upsert_tweet tid uid c lang ts sent lk rt rp l) as [row [H _]].
  apply find_some in H. apply existsb_exists. exists row. exact H.
Qed.

Opaque clip.

(** In a run that the store does not reject, the transaction commits the
    author and the tweet on top of whatever tag rows rivals committed, and
    the call goes on with the links. *)
Lemma upsert_tx_nofault (tid uid : Z) (un dn text : string) (lang : option string)
    (ts : Z) (sent : option Z) (lk rt rp : Z) (topics : option (list string)) (d : DB)
    (ss : list (nat * Session)) (n : nat) (lg : list Event) (sc : list Tick)
    (seed : string -> Z) :
  NoFault sc ->
  exists d3 rc lg',
    same_rows d d3 /\ tags_grow d d3 /\ (store_ok d -> store_ok d3)
    /\ 1 <= rc <= 2
    /\ TweetBLL_upsert tid uid un dn (Some text) lang ts sent lk rt rp topics
         (W d ss n lg sc seed)
       = bind (TweetBLL_upsert_links tid (Some (clip 280 text)) topics)
           (fun _ => ret rc)
           (W (with_tweet
                 (upsert_tweet_rows tid uid (clip 280 text) (truncate 5 lang) ts sent
                    lk rt rp (tweet d3))
                 (with_twitter_user (upsert_user_rows uid un dn ts (twitter_user d3)) d3))
              ss (S n) lg' (tl (tl (tl sc))) seed).
Proof.
  intros Hnf.
  unfold TweetBLL_upsert. rewrite truncate_Some.
  unfold bind at 1. unfold create_session. cbv beta iota zeta. simpl db. simpl sessions.
  simpl next_sid. simpl log. simpl sched. simpl hashseed.
  unfold bind at 1. unfold attempt at 1. unfold bind at 1.
  unfold TwitterUserDAL_upsert. rewrite execute_nofault by assumption.
  cbv beta iota zeta. simpl pending. simpl new_objs. simpl app.
  set (d1 := tick_db ((n, empty_session) :: ss) d sc).
  set (fu := fun d' : DB =>
               with_twitter_user (upsert_user_rows uid un dn ts (twitter_user d')) d').
  unfold bind at 1. unfold TweetDAL_upsert. rewrite execute_nofault
    by (apply NoFault_tl; exact Hnf).
  simpl pending. simpl new_objs. simpl apply_writes.
  set (d2 := tick_db ((n, {| pending := [fu]; new_objs := [] |}) :: ss) d1 (tl sc)).
  assert (Hu : has_user uid (fu d2) = true) by (apply has_upsert_user).
  set (ft := fun d' : DB =>
               with_tweet (upsert_tweet_rows tid uid (clip 280 text) (truncate 5 lang) ts
                             sent lk rt rp (tweet d')) d').
  assert (Hstmt : exists rc, 1 <= rc <= 2 /\
             match find_tweet tid (fu d2) with
             | Some old =>
                 Ret ((if tweet_eqb old
                            (tweet_on_duplicate old (clip 280 text) (truncate 5 lang) ts
                               sent lk rt rp) then 1 else 2), ft)
             | None => if has_user uid (fu d2) then Ret (1, ft) else Raise IntegrityError
             end = Ret (rc, ft)).
  { destruct (find_tweet tid (fu d2)) as [old|].
    - destruct (tweet_eqb old _); eexists; (split; [|reflexivity]); lia.
    - rewrite Hu. exists 1. split; [lia | reflexivity]. }
  destruct Hstmt as [rc [Hrc Hstmt]]. fold ft. rewrite Hstmt.
  simpl app. unfold bind at 1.
  rewrite commit_nofault by (do 2 apply NoFault_tl; exact Hnf).
  simpl apply_writes.
  set (d3 := tick_db ((n, {| pending := [fu; ft]; new_objs := [] |}) :: ss) d2
               (tl (tl sc))).
  unfold ret at 1. unfold bind at 1. unfold ret at 1. unfold bind at 1.
  rewrite close_head.
  exists d3, rc. eexists.
  split; [|split; [|split; [|split]]].
  - apply (same_rows_trans _ d1); [apply same_rows_tick|].
    apply (same_rows_trans _ d2); apply same_rows_tick.
  - apply (tags_grow_trans _ d1); [apply tick_db_grow|].
    apply (tags_grow_trans _ d2); apply tick_db_grow.
  - intros Hok. do 3 apply tick_db_ok. exact Hok.
  - exact Hrc.
  - reflexivity.
Qed.

(* ================================================================== *)
(** * Hashtags of a text *)
(* ================================================================== *)

Lemma str_mem_In (x : string) (l : list string) : str_mem x l = true <-> In x l.
Proof.
  induction l as [|y l IH]; simpl.
  - split; [discriminate | tauto].
  - rewrite orb_true_iff, IH, String.eqb_eq. split; intros [H|H]; auto.
Qed.

Lemma str_dedup_In (seen l : list string) (x : string) :
  In x (str_dedup seen l) <-> In x l /\ ~ In x seen.
Proof.
  revert seen. induction l as [|y l IH]; intros seen; simpl.
  - tauto.
  - destruct (str_mem y seen) eqn:E.
    + apply str_mem_In in E. rewrite IH. split.
      * intros [H1 H2]. tauto.
      * intros [[->|H1] H2]; tauto.
    + assert (Hn : ~ In y seen) by (rewrite <- str_mem_In; congruence).
      simpl. rewrite IH. simpl. split.
      * intros [->|[H1 H2]]; tauto.
      * intros [[->|H1] H2]; [tauto|].
        destruct (String.eqb y x) eqn:Eyx.
        -- apply String.eqb_eq in Eyx. tauto.
        -- apply String.eqb_neq in Eyx. right. tauto.
Qed.

Lemma str_dedup_NoDup (seen l : list string) : NoDup (str_dedup seen l).
Proof.
  revert seen. induction l as [|y l IH]; intros seen; simpl; [constructor|].
  destruct (str_mem y seen); [apply IH|].
  constructor; [|apply IH].
  rewrite str_dedup_In. simpl. tauto.
Qed.

Lemma rank_insert_In (seed : string -> Z) (x y : string) (l : list string) :
  In y (rank_insert seed x l) <-> y = x \/ In y l.
Proof.
  induction l as [|z l IH]; simpl.
  - split; intros [H|H]; auto.
  - destruct (seed z <=? seed x); simpl; [rewrite IH|]; split; intros H;
      intuition auto.
Qed.

Lemma rank_insert_NoDup (seed : string -> Z) (x : string) (l : list string) :
  ~ In x l -> NoDup l -> NoDup (rank_insert seed x l).
Proof.
  induction l as [|z l IH]; simpl; intros Hx ND.
  - repeat constructor. tauto.
  - inversion ND; subst.
    destruct (seed z <=? seed x).
    + constructor; [|apply IH; tauto].
      rewrite rank_insert_In. intros [->|H]; tauto.
    + constructor; [simpl; tauto | exact ND].
Qed.

Lemma rank_fold (seed : string -> Z) (l acc : list string) :
  NoDup l -> NoDup acc -> (forall x, In x l -> ~ In x acc) ->
  NoDup (fold_left (fun a x => rank_insert seed x a) l acc)
  /\ forall y, In y (fold_left (fun a x => rank_insert seed x a) l acc)
               <-> In y l \/ In y acc.
Proof.
  revert acc. induction l as [|x l IH]; intros acc ND NA Hd; simpl.
  - split; [exact NA | intros; tauto].
  - inversion ND as [|? ? Hx ND']; subst.
    destruct (IH (rank_insert seed x acc) ND') as [H1 H2].
    + apply rank_insert_NoDup; [apply Hd; left; reflexivity | exact NA].
    + intros z Hz. rewrite rank_insert_In. intros [->|F]; [tauto|].
      exact (Hd z (or_intror Hz) F).
    + split; [exact H1|]. intros y. rewrite H2, rank_insert_In. split.
      * intros [H|[->|H]]; auto.
      * intros [[->|H]|H]; auto.
Qed.

(** A [set] of strings yields each of its elements once. *)
Lemma str_set_NoDup (seed : string -> Z) (l : list string) : NoDup (str_set seed l).
Proof.
  unfold str_set. apply rank_fold; [apply str_dedup_NoDup | constructor | intros; tauto].
Qed.

Lemma str_set_In (seed : string -> Z) (l : list string) (x : string) :
  In x (str_set seed l) <-> In x l.
Proof.
  unfold str_set.
  destruct (rank_fold seed (str_dedup [] l) [] (str_dedup_NoDup [] l) (NoDup_nil _))
    as [_ H]; [intros; tauto|].
  rewrite H, str_dedup_In. simpl. tauto.
Qed.

Lemma is_word_not_hash (c : ascii) : is_word c = true -> is_hash c = false.
Proof.
  intros H. unfold is_hash. destruct (Ascii.eqb c "#") eqn:E; [|reflexivity].
  apply Ascii.eqb_eq in E. subst c. vm_compute in H. discriminate.
Qed.

Lemma strip_hash_word (s : string) : all_word s = true -> strip_hash s = s.
Proof.
  induction s as [|c s IH]; simpl; intros H; [reflexivity|].
  apply andb_true_iff in H. destruct H as [Hc Hs].
  rewrite (is_word_not_hash c Hc), (IH Hs). reflexivity.
Qed.

Lemma all_word_snoc (w : string) (c : ascii) :
  all_word (w ++ String c EmptyString)%string = all_word w && is_word c.
Proof.
  induction w as [|a w IH]; simpl.
  - rewrite andb_true_r. reflexivity.
  - rewrite IH. rewrite andb_assoc. reflexivity.
Qed.

Lemma findall_from_words (s : string) (cur : option string) :
  (forall w, cur = Some w -> all_word w = true) ->
  Forall (fun e => all_word e = true) (findall_from s cur).
Proof.
  revert cur. induction s as [|c s IH]; intros cur Hc; simpl.
  - destruct cur as [w|]; [|constructor].
    destruct w; simpl; [constructor|].
    constructor; [apply Hc; reflexivity | constructor].
  - destruct cur as [w|].
    + destruct (is_word c) eqn:Ew.
      * apply IH. intros w' Hw'. inversion Hw'; subst.
        rewrite all_word_snoc, (Hc w eq_refl), Ew. reflexivity.
      * assert (Hrest : Forall (fun e => all_word e = true)
                          (findall_from s (if is_hash c then Some EmptyString else None))).
        { apply IH. intros w' Hw'. destruct (is_hash c); inversion Hw'; reflexivity. }
        destruct w; simpl; [exact Hrest|].
        constructor; [apply Hc; reflexivity | exact Hrest].
    + apply IH. intros w' Hw'. destruct (is_hash c); inversion Hw'; reflexivity.
Qed.

(** Every hashtag found in a text is free of ['#']: the repository
    stores it as it is. *)
Lemma findall_stored (s e : string) :
  In e (re_findall_hashtag s) -> stored_text KHashtag e = e.
Proof.
  intros H. simpl. apply strip_hash_word.
  pose proof (findall_from_words s None) as F.
  rewrite Forall_forall in F. apply F; [discriminate | exact H].
Qed.

(* ================================================================== *)
(** * What the scan for hashtags finds *)
(* ================================================================== *)

Lemma string_app_nil_r (s : string) : (s ++ EmptyString)%string = s.
Proof. induction s as [|c s IH]; simpl; [reflexivity | rewrite IH; reflexivity]. Qed.

Lemma string_app_assoc (a b c : string) :
  ((a ++ b) ++ c)%string = (a ++ (b ++ c))%string.
Proof. induction a as [|x a IH]; simpl; [reflexivity | rewrite IH; reflexivity]. Qed.

Lemma string_app_nil (a b : string) :
  (a ++ b)%string = EmptyString -> a = EmptyString /\ b = EmptyString.
Proof. destruct a; simpl; [tauto | discriminate]. Qed.

Lemma is_hash_true (c : ascii) : is_hash c = true <-> c = "#"%char.
Proof. unfold is_hash. apply Ascii.eqb_eq. Qed.

Lemma In_emit (w e : string) (l : list string) :
  In e (emit w l) <-> (w <> EmptyString /\ e = w) \/ In e l.
Proof.
  destruct w as [|c w]; simpl.
  - split; [tauto | intros [[H _]|H]; [congruence | exact H]].
  - split.
    + intros [H|H]; [left; split; [discriminate | symmetry; exact H] | right; exact H].
    + intros [[_ H]|H]; [left; symmetry; exact H | right; exact H].
Qed.

Lemma no_hashtag_in_empty (e : string) : ~ hashtag_occurrence EmptyString e.
Proof. intros [pre [post [H _]]]. destruct pre; discriminate. Qed.

Lemma hashtag_occurrence_skip (c : ascii) (r e : string) :
  is_hash c = false ->
  (hashtag_occurrence (String c r) e <-> hashtag_occurrence r e).
Proof.
  intros Hc. split.
  - intros [pre [post [H [He [Hw Hb]]]]]. destruct pre as [|x pre]; simpl in H.
    + injection H as -> _. vm_compute in Hc. discriminate.
    + injection H as _ ->. exists pre, post. tauto.
  - intros [pre [post [H [He [Hw Hb]]]]]. exists (String c pre), post.
    simpl. rewrite H. tauto.
Qed.

Lemma hashtag_occurrence_hash (c : ascii) (r e : string) :
  is_hash c = true ->
  (hashtag_occurrence (String c r) e
   <-> run_ends r EmptyString e \/ hashtag_occurrence r e).
Proof.
  intros Hc. apply is_hash_true in Hc. subst c. split.
  - intros [pre [post [H [He [Hw Hb]]]]]. destruct pre as [|x pre]; simpl in H.
    + injection H as ->. left. exists e, post. simpl. tauto.
    + injection H as _ ->. right. exists pre, post. tauto.
  - intros [[s1 [post [H [Hw [Hb [E He]]]]]]|[pre [post [H [He [Hw Hb]]]]]].
    + simpl in E. subst s1. exists EmptyString, post. simpl. rewrite H. tauto.
    + exists (String "#"%char pre), post. simpl. rewrite H. tauto.
Qed.

Lemma run_ends_word (c : ascii) (r w e : string) :
  is_word c = true ->
  (run_ends (String c r) w e <-> run_ends r (w ++ String c EmptyString)%string e).
Proof.
  intros Hc. split.
  - intros [s1 [post [H [Hw [Hb [E He]]]]]]. destruct s1 as [|x s1]; simpl in H.
    + subst post. simpl in Hb. congruence.
    + injection H as -> ->. simpl in Hw. apply andb_true_iff in Hw.
      exists s1, post. split; [reflexivity|]. split; [apply Hw|]. split; [exact Hb|].
      split; [|exact He]. rewrite E, string_app_assoc. reflexivity.
  - intros [s1 [post [H [Hw [Hb [E He]]]]]]. exists (String c s1), post.
    split; [simpl; rewrite H; reflexivity|].
    split; [simpl; rewrite Hc, Hw; reflexivity|]. split; [exact Hb|].
    split; [|exact He]. rewrite E, string_app_assoc. reflexivity.
Qed.

Lemma run_ends_stop (c : ascii) (r w e : string) :
  is_word c = false ->
  (run_ends (String c r) w e <-> w <> EmptyString /\ e = w).
Proof.
  intros Hc. split.
  - intros [s1 [post [H [Hw [Hb [E He]]]]]]. destruct s1 as [|x s1]; simpl in H.
    + rewrite string_app_nil_r in E. subst e. tauto.
    + injection H as -> _. simpl in Hw. rewrite Hc in Hw. discriminate.
  - intros [Hne ->]. exists EmptyString, (String c r).
    split; [reflexivity|]. split; [reflexivity|]. split; [exact Hc|].
    split; [symmetry; apply string_app_nil_r | exact Hne].
Qed.

Lemma run_ends_empty (w e : string) :
  run_ends EmptyString w e <-> w <> EmptyString /\ e = w.
Proof.
  split.
  - intros [s1 [post [H [Hw [Hb [E He]]]]]]. symmetry in H.
    apply string_app_nil in H. destruct H as [-> ->].
    rewrite string_app_nil_r in E. subst e. tauto.
  - intros [Hne ->]. exists EmptyString, EmptyString.
    split; [reflexivity|]. split; [reflexivity|]. split; [exact I|].
    split; [symmetry; apply string_app_nil_r | exact Hne].
Qed.

(** The scan finds the word it is collecting, once that word ends, and
    the hashtags of the rest of the text. *)
Lemma findall_from_spec (s : string) :
  forall (cur : option string) (e : string),
    In e (findall_from s cur)
    <-> match cur with
        | Some w => run_ends s w e \/ hashtag_occurrence s e
        | None => hashtag_occurrence s e
        end.
Proof.
  induction s as [|c r IH]; intros cur e.
  - simpl. destruct cur as [w|].
    + rewrite In_emit, run_ends_empty. pose proof (no_hashtag_in_empty e). simpl. tauto.
    + pose proof (no_hashtag_in_empty e). simpl. tauto.
  - simpl. destruct cur as [w|].
    + destruct (is_word c) eqn:Ew.
      * rewrite IH, (run_ends_word c r w e Ew),
          (hashtag_occurrence_skip c r e (is_word_not_hash c Ew)). tauto.
      * rewrite In_emit, (run_ends_stop c r w e Ew), IH.
        destruct (is_hash c) eqn:Eh.
        -- rewrite (hashtag_occurrence_hash c r e Eh). tauto.
        -- rewrite (hashtag_occurrence_skip c r e Eh). tauto.
    + rewrite IH. destruct (is_hash c) eqn:Eh.
      * rewrite (hashtag_occurrence_hash c r e Eh). tauto.
      * rewrite (hashtag_occurrence_skip c r e Eh). tauto.
Qed.

(** [re.findall('#(\w+)', s)] yields exactly the hashtags of [s]. *)
Lemma re_findall_hashtag_spec (s e : string) :
  In e (re_findall_hashtag s) <-> hashtag_occurrence s e.
Proof. unfold re_findall_hashtag. apply (findall_from_spec s None e). Qed.

(** The word characters among the ASCII ones: the letters, the digits
    and the underscore; space, ['#'] and the punctuation are not. *)
Lemma is_word_ascii :
  forallb is_word
    (list_ascii_of_string
       "abcdefghijklmnopqrstuvwxyzABCDEFGHIJKLMNOPQRSTUVWXYZ0123456789_") = true
  /\ forallb (fun c => negb (is_word c))
       (list_ascii_of_string " #@.,;:!?-+/=&%$~^|") = true.
Proof. split; vm_compute; reflexivity. Qed.

(** In "x #a, #b_1#c #" the hashtags are [a], [b_1] and [c]: the lone
    ['#'] at the end is none. *)
Lemma hashtag_occurrence_ex :
  hashtag_occurrence "x #a, #b_1#c #" "a"
  /\ hashtag_occurrence "x #a, #b_1#c #" "b_1"
  /\ hashtag_occurrence "x #a, #b_1#c #" "c"
  /\ ~ hashtag_occurrence "x #a, #b_1#c #" "b"
  /\ forall e, hashtag_occurrence "x #a, #b_1#c #" e -> e = "a" \/ e = "b_1" \/ e = "c".
Proof.
  split; [exists "x ", ", #b_1#c #"; repeat split; discriminate|].
  split; [exists "x #a, ", "#c #"; repeat split; discriminate|].
  split; [exists "x #a, #b_1", " #"; repeat split; discriminate|].
  split.
  - intros H. apply re_findall_hashtag_spec in H. vm_compute in H.
    destruct H as [H|[H|[H|[]]]]; discriminate.
  - intros e H. apply re_findall_hashtag_spec in H. vm_compute in H.
    destruct H as [H|[H|[H|[]]]]; subst; tauto.
Qed.

(* ================================================================== *)
(** * Link rows *)
(* ================================================================== *)

Lemma same_tags_ok (d d' : DB) : same_tags d d' -> store_ok d -> store_ok d'.
Proof.
  intros H [[A1 [A2 A3]] [B1 [B2 B3]]].
  destruct (H KHashtag) as [E1 E2]. destruct (H KTopic) as [E3 E4].
  unfold store_ok, tags_wf. rewrite E1, E2, E3, E4. repeat split; assumption.
Qed.

Lemma same_tags_grow (d d' : DB) : same_tags d d' -> tags_grow d d'.
Proof.
  intros H k. destruct (H k) as [E1 E2]. rewrite E1, E2.
  split; [exists []; symmetry; apply app_nil_r | lia].
Qed.

Lemma same_tags_with_tweet_hashtag (l : list (Z * Z)) (d : DB) :
  same_tags d (with_tweet_hashtag l d).
Proof. intros k. destruct k; split; reflexivity. Qed.

Lemma same_tags_with_tweet_topic (l : list (Z * Z * Z)) (d : DB) :
  same_tags d (with_tweet_topic l d).
Proof. intros k. destruct k; split; reflexivity. Qed.

Lemma same_tags_with_tweet (l : list Tweet) (d : DB) : same_tags d (with_tweet l d).
Proof. intros k. destruct k; split; reflexivity. Qed.

Lemma same_tags_with_twitter_user (l : list TwitterUser) (d : DB) :
  same_tags d (with_twitter_user l d).
Proof. intros k. destruct k; split; reflexivity. Qed.

Lemma same_tags_trans (a b c : DB) : same_tags a b -> same_tags b c -> same_tags a c.
Proof.
  intros H1 H2 k. destruct (H1 k) as [A1 A2]. destruct (H2 k) as [B1 B2].
  split; congruence.
Qed.

Lemma has_tag_id_grow (d d' : DB) (k : TagKind) (id : Z) :
  tags_grow d d' -> has_tag_id k id d = true -> has_tag_id k id d' = true.
Proof.
  intros H Hid. unfold has_tag_id in *. destruct (H k) as [[x Hx] _].
  rewrite Hx, existsb_app, Hid. reflexivity.
Qed.

Lemma has_tag_id_same (d d' : DB) (k : TagKind) (id : Z) :
  same_tags d d' -> has_tag_id k id d' = has_tag_id k id d.
Proof. intros H. unfold has_tag_id. destruct (H k) as [E _]. rewrite E. reflexivity. Qed.

Lemma existsb_pair_false (t h : Z) (l : list (Z * Z)) :
  ~ In (t, h) l -> existsb (fun x => (fst x =? t) && (snd x =? h)) l = false.
Proof.
  intros H. apply not_true_is_false. intros F. apply existsb_exists in F.
  destruct F as [[a b] [Hin Hab]]. simpl in Hab. apply andb_true_iff in Hab.
  destruct Hab as [Ha Hb]. apply Z.eqb_eq in Ha, Hb. subst. tauto.
Qed.

(** The INSERT of the hashtag links of a tweet goes through when the
    tweet and the hashtags exist and no link is there yet. *)
Lemma insert_hashtag_links_ok (tid : Z) (ids : list Z) (d0 : DB) :
  has_tweet tid d0 = true ->
  Forall (fun h => has_tag_id KHashtag h d0 = true) ids ->
  NoDup ids ->
  (forall h, In h ids -> ~ In (tid, h) (tweet_hashtag d0)) ->
  insert_objs (map (fun h => NewTweetHashtag tid h) ids) d0
  = Some (with_tweet_hashtag (tweet_hashtag d0 ++ map (fun h => (tid, h)) ids) d0).
Proof.
  revert d0. induction ids as [|h ids IH]; intros d0 Ht Hh ND Hnew; simpl.
  - rewrite app_nil_r. destruct d0; reflexivity.
  - inversion Hh as [|? ? Hh1 Hh2]; subst. inversion ND as [|? ? Hn ND']; subst.
    rewrite Ht, Hh1, existsb_pair_false by (apply Hnew; left; reflexivity). simpl.
    rewrite IH.
    + simpl. rewrite <- app_assoc. reflexivity.
    + exact Ht.
    + eapply Forall_impl; [|exact Hh2]. intros a Ha.
      rewrite (has_tag_id_same d0); [exact Ha | apply same_tags_with_tweet_hashtag].
    + exact ND'.
    + intros h' Hh' F. simpl in F. apply in_app_or in F. destruct F as [F|[F|[]]].
      * exact (Hnew h' (or_intror Hh') F).
      * inversion F; subst. tauto.
Qed.

(** Whatever link rows are inserted, the tags, the users and the tweets
    stay; topic links leave the hashtag links alone. *)
Lemma insert_objs_frame (os : list NewObj) (d d' : DB) :
  insert_objs os d = Some d' ->
  same_tags d d' /\ twitter_user d' = twitter_user d /\ tweet d' = tweet d
  /\ (Forall is_topic_link os -> tweet_hashtag d' = tweet_hashtag d).
Proof.
  revert d. induction os as [|o os IH]; intros d H; simpl in H.
  - inversion H; subst. repeat split; intros k; split; reflexivity.
  - destruct (insert_obj o d) as [d1|] eqn:E; [|discriminate].
    destruct (IH d1 H) as [S1 [U1 [T1 L1]]].
    assert (X : same_tags d d1 /\ twitter_user d1 = twitter_user d /\ tweet d1 = tweet d
                /\ (is_topic_link o -> tweet_hashtag d1 = tweet_hashtag d)).
    { destruct o as [t h|t p i]; simpl in E.
      - destruct (_ && _ && _); [|discriminate]. inversion E; subst.
        split; [apply same_tags_with_tweet_hashtag|].
        split; [reflexivity|]. split; [reflexivity|]. simpl. tauto.
      - destruct (_ && _ && _); [|discriminate]. inversion E; subst.
        split; [apply same_tags_with_tweet_topic|].
        split; [reflexivity|]. split; [reflexivity|]. reflexivity. }
    destruct X as [S0 [U0 [T0 L0]]].
    split; [eapply same_tags_trans; eassumption|].
    split; [congruence|]. split; [congruence|].
    intros F. inversion F; subst. rewrite L1, L0; auto.
Qed.

Lemma has_tweet_eq (tid : Z) (d d' : DB) : tweet d' = tweet d -> has_tweet tid d' = has_tweet tid d.
Proof. intros H. unfold has_tweet. rewrite H. reflexivity. Qed.

Opaque add_all.

Lemma add_all_head (s : nat) (objs : list NewObj) (x : Session) (d : DB)
    (ss : list (nat * Session)) (n : nat) (lg : list Event) (sc : list Tick)
    (seed : string -> Z) :
  add_all s objs (W d ((s, x) :: ss) n lg sc seed)
  = (Ret tt,
     W d ((s, {| pending := pending x; new_objs := new_objs x ++ objs |}) :: ss) n lg sc
       seed).
Proof.
  Transparent add_all. unfold add_all. Opaque add_all.
  rewrite get_session_head, put_session_head. reflexivity.
Qed.

(** The hashtag links of a tweet are replaced by one link per id. *)
Lemma TweetHashtagBLL_insert_nofault (tid : Z) (ids : list Z) (d : DB)
    (ss : list (nat * Session)) (n : nat) (lg : list Event) (sc : list Tick)
    (seed : string -> Z) :
  NoFault sc -> has_tweet tid d = true ->
  Forall (fun h => has_tag_id KHashtag h d = true) ids -> NoDup ids ->
  exists d' lg' sc',
    TweetHashtagBLL_insert tid ids (W d ss n lg sc seed)
    = (Ret true, W d' ss (S n) lg' sc' seed)
    /\ NoFault sc' /\ tags_grow d d' /\ (store_ok d -> store_ok d')
    /\ twitter_user d' = twitter_user d /\ tweet d' = tweet d
    /\ tweet_topic d' = tweet_topic d
    /\ tweet_hashtag d'
       = filter (fun l => negb (fst l =? tid)) (tweet_hashtag d)
         ++ map (fun h => (tid, h)) ids.
Proof.
  intros Hnf Ht Hids ND.
  unfold TweetHashtagBLL_insert.
  unfold bind at 1. unfold create_session. cbv beta iota zeta.
  simpl db. simpl sessions. simpl next_sid. simpl log. simpl sched. simpl hashseed.
  unfold bind at 1. unfold attempt at 1. unfold bind at 1.
  unfold TweetHashtagDAL_delete_by_tweet_id. rewrite execute_nofault by assumption.
  cbv beta iota zeta. simpl pending. simpl new_objs. simpl app.
  set (d1 := tick_db ((n, empty_session) :: ss) d sc).
  set (fdel := fun d' : DB =>
                 with_tweet_hashtag
                   (filter (fun l => negb (fst l =? tid)) (tweet_hashtag d')) d').
  unfold bind at 1. rewrite add_all_head. cbv beta iota zeta.
  simpl pending. simpl new_objs. simpl app.
  destruct (tick_db_frame ((n, empty_session) :: ss) d sc) as [F1 [F2 [F3 F4]]].
  fold d1 in F1, F2, F3, F4.
  destruct ids as [|h ids].
  - simpl map. rewrite commit_nofault by (apply NoFault_tl; exact Hnf).
    cbv beta iota. unfold bind at 1. rewrite close_head. cbv beta iota. unfold ret.
    simpl apply_writes. simpl is_ret.
    set (d2 := tick_db ((n, {| pending := [fdel]; new_objs := [] |}) :: ss) d1 (tl sc)).
    destruct (tick_db_frame ((n, {| pending := [fdel]; new_objs := [] |}) :: ss) d1
                (tl sc)) as [G1 [G2 [G3 G4]]].
    fold d2 in G1, G2, G3, G4.
    exists (fdel d2). do 2 eexists.
    split; [reflexivity|].
    split; [do 2 apply NoFault_tl; exact Hnf|].
    split; [apply (tags_grow_trans _ d1); [apply tick_db_grow|];
            apply (tags_grow_trans _ d2); [apply tick_db_grow|];
            apply same_tags_grow; apply same_tags_with_tweet_hashtag|].
    split; [intros Hok; apply (same_tags_ok d2);
            [apply same_tags_with_tweet_hashtag | do 2 apply tick_db_ok; exact Hok]|].
    unfold fdel. simpl. rewrite G1, G2, G3, G4, F1, F2, F3, F4, app_nil_r.
    repeat split; reflexivity.
  - simpl map.
    set (os := map (fun hashtag_id : Z => NewTweetHashtag tid hashtag_id) ids).
    rewrite commit_flush_nofault by (apply NoFault_tl; exact Hnf).
    cbv zeta. cbn [apply_writes fold_left].
    set (d2 := tick_db ((n, {| pending := [fdel];
                               new_objs := NewTweetHashtag tid h :: os |}) :: ss)
                 d1 (tl sc)).
    assert (Pre : forall dx, tweet dx = tweet d -> tags_grow d dx ->
                insert_objs (NewTweetHashtag tid h :: os) (fdel dx)
                = Some (with_tweet_hashtag
                          (tweet_hashtag (fdel dx) ++ map (fun x => (tid, x)) (h :: ids))
                          (fdel dx))).
    { intros dx Hx Hg.
      apply (insert_hashtag_links_ok tid (h :: ids) (fdel dx)).
      - unfold fdel. rewrite (has_tweet_eq tid dx); [|reflexivity].
        rewrite (has_tweet_eq tid d dx Hx). exact Ht.
      - eapply Forall_impl; [|exact Hids]. intros a Ha.
        unfold fdel. rewrite (has_tag_id_same dx);
          [|apply same_tags_with_tweet_hashtag].
        eapply has_tag_id_grow; eassumption.
      - exact ND.
      - intros a _ F. unfold fdel in F. simpl in F. apply filter_In in F.
        destruct F as [_ F]. simpl in F. rewrite Z.eqb_refl in F. discriminate. }
    destruct (tick_db_frame
                ((n, {| pending := [fdel]; new_objs := NewTweetHashtag tid h :: os |})
                 :: ss) d1 (tl sc)) as [G1 [G2 [G3 G4]]].
    fold d2 in G1, G2, G3, G4.
    assert (Hg2 : tags_grow d d2)
      by (apply (tags_grow_trans _ d1); apply tick_db_grow).
    rewrite (Pre d2) by (try congruence; exact Hg2).
    cbv beta iota. unfold bind at 1. rewrite close_head. cbv beta iota. unfold ret.
    simpl pending. simpl is_ret.
    match goal with
    | |- context [tick_db ?s d2 ?c] => set (d3 := tick_db s d2 c);
        destruct (tick_db_frame s d2 c) as [K1 [K2 [K3 K4]]];
        pose proof (tick_db_grow s d2 c) as Hg3;
        pose proof (tick_db_ok s d2 c) as Hok3
    end.
    fold d3 in K1, K2, K3, K4, Hg3, Hok3.
    match goal with
    | |- context [apply_writes ?fs d3] =>
        change (apply_writes fs d3)
          with (match insert_objs (NewTweetHashtag tid h :: os) (fdel d3) with
                | Some d' => d'
                | None => fdel d3
                end)
    end.
    rewrite (Pre d3)
      by (try congruence; apply (tags_grow_trans _ d2); assumption).
    eexists. do 2 eexists.
    split; [reflexivity|].
    split; [do 3 apply NoFault_tl; exact Hnf|].
    split; [apply (tags_grow_trans _ d2); [exact Hg2|];
            apply (tags_grow_trans _ d3); [exact Hg3|];
            apply (tags_grow_trans _ (fdel d3));
            apply same_tags_grow; apply same_tags_with_tweet_hashtag|].
    split; [intros Hok; apply (same_tags_ok (fdel d3));
            [apply same_tags_with_tweet_hashtag|];
            apply (same_tags_ok d3); [apply same_tags_with_tweet_hashtag|];
            apply Hok3; do 2 apply tick_db_ok; exact Hok|].
    unfold fdel. simpl. rewrite K1, K2, K3, K4, G1, G2, G3, G4, F1, F2, F3, F4.
    repeat split; reflexivity.
Qed.

(** The topic links of a tweet are replaced or left: either way the
    hashtag links, the tweets and the users stay. *)
Lemma TweetTopicBLL_insert_frame (tid : Z) (ids : list Z) (d : DB)
    (ss : list (nat * Session)) (n : nat) (lg : list Event) (sc : list Tick)
    (seed : string -> Z) :
  NoFault sc ->
  exists b d' lg' sc',
    TweetTopicBLL_insert tid ids (W d ss n lg sc seed)
    = (Ret b, W d' ss (S n) lg' sc' seed)
    /\ NoFault sc' /\ tags_grow d d' /\ (store_ok d -> store_ok d')
    /\ twitter_user d' = twitter_user d /\ tweet d' = tweet d
    /\ tweet_hashtag d' = tweet_hashtag d.
Proof.
  intros Hnf.
  unfold TweetTopicBLL_insert.
  unfold bind at 1. unfold create_session. cbv beta iota zeta.
  simpl db. simpl sessions. simpl next_sid. simpl log. simpl sched. simpl hashseed.
  unfold bind at 1. unfold attempt at 1. unfold bind at 1.
  unfold TweetTopicDAL_delete_by_tweet_id. rewrite execute_nofault by assumption.
  cbv beta iota zeta. simpl pending. simpl new_objs. simpl app.
  set (d1 := tick_db ((n, empty_session) :: ss) d sc).
  set (fdel := fun d' : DB =>
                 with_tweet_topic
                   (filter (fun l => negb (fst (fst l) =? tid)) (tweet_topic d')) d').
  unfold bind at 1. rewrite add_all_head. cbv beta iota zeta.
  simpl pending. simpl new_objs. simpl app.
  destruct (tick_db_frame ((n, empty_session) :: ss) d sc) as [F1 [F2 [F3 F4]]].
  fold d1 in F1, F2, F3, F4.
  assert (Htop : Forall is_topic_link
                   (map (fun it : Z * Z => NewTweetTopic tid (snd it) (fst it))
                      (enumerate ids))).
  { apply Forall_forall. intros o Ho. apply in_map_iff in Ho.
    destruct Ho as [it [<- _]]. exact I. }
  destruct (map (fun it : Z * Z => NewTweetTopic tid (snd it) (fst it)) (enumerate ids))
    as [|o os].
  - rewrite commit_nofault by (apply NoFault_tl; exact Hnf).
    cbv beta iota. unfold bind at 1. rewrite close_head. cbv beta iota. unfold ret.
    simpl apply_writes. simpl is_ret.
    set (d2 := tick_db ((n, {| pending := [fdel]; new_objs := [] |}) :: ss) d1 (tl sc)).
    destruct (tick_db_frame ((n, {| pending := [fdel]; new_objs := [] |}) :: ss) d1
                (tl sc)) as [G1 [G2 [G3 G4]]].
    fold d2 in G1, G2, G3, G4.
    exists true, (fdel d2). do 2 eexists.
    split; [reflexivity|].
    split; [do 2 apply NoFault_tl; exact Hnf|].
    split; [apply (tags_grow_trans _ d1); [apply tick_db_grow|];
            apply (tags_grow_trans _ d2); [apply tick_db_grow|];
            apply same_tags_grow; apply same_tags_with_tweet_topic|].
    split; [intros Hok; apply (same_tags_ok d2);
            [apply same_tags_with_tweet_topic | do 2 apply tick_db_ok; exact Hok]|].
    unfold fdel. simpl. rewrite G1, G2, G3, F1, F2, F3. repeat split; reflexivity.
  - rewrite commit_flush_nofault by (apply NoFault_tl; exact Hnf).
    cbv zeta. cbn [apply_writes fold_left].
    set (d2 := tick_db ((n, {| pending := [fdel]; new_objs := o :: os |}) :: ss)
                 d1 (tl sc)).
    destruct (tick_db_frame ((n, {| pending := [fdel]; new_objs := o :: os |}) :: ss)
                d1 (tl sc)) as [G1 [G2 [G3 G4]]].
    fold d2 in G1, G2, G3, G4.
    assert (Hg2 : tags_grow d d2)
      by (apply (tags_grow_trans _ d1); apply tick_db_grow).
    destruct (insert_objs (o :: os) (fdel d2)) as [dz|] eqn:E2.
    + cbv beta iota. unfold bind at 1. rewrite close_head. cbv beta iota. unfold ret.
      simpl pending. simpl is_ret.
      match goal with
      | |- context [tick_db ?s d2 ?c] => set (d3 := tick_db s d2 c);
          destruct (tick_db_frame s d2 c) as [K1 [K2 [K3 K4]]];
          pose proof (tick_db_grow s d2 c) as Hg3;
          pose proof (tick_db_ok s d2 c) as Hok3
      end.
      fold d3 in K1, K2, K3, K4, Hg3, Hok3.
      match goal with
      | |- context [apply_writes ?fs d3] =>
          change (apply_writes fs d3)
            with (match insert_objs (o :: os) (fdel d3) with
                  | Some d' => d'
                  | None => fdel d3
                  end)
      end.
      assert (Hfd : same_tags d3 (fdel d3)) by apply same_tags_with_tweet_topic.
      destruct (insert_objs (o :: os) (fdel d3)) as [dy|] eqn:E3.
      * destruct (insert_objs_frame _ _ _ E3) as [S3 [U3 [T3 L3]]].
        exists true, dy. do 2 eexists.
        split; [reflexivity|].
        split; [do 3 apply NoFault_tl; exact Hnf|].
        split; [apply (tags_grow_trans _ d2); [exact Hg2|];
                apply (tags_grow_trans _ d3); [exact Hg3|];
                apply (tags_grow_trans _ (fdel d3)); apply same_tags_grow; assumption|].
        split; [intros Hok; apply (same_tags_ok (fdel d3)); [exact S3|];
                apply (same_tags_ok d3); [exact Hfd|];
                apply Hok3; do 2 apply tick_db_ok; exact Hok|].
        rewrite U3, T3, (L3 Htop). unfold fdel. simpl.
        rewrite K1, K2, K3, G1, G2, G3, F1, F2, F3. repeat split; reflexivity.
      * exists true, (fdel d3). do 2 eexists.
        split; [reflexivity|].
        split; [do 3 apply NoFault_tl; exact Hnf|].
        split; [apply (tags_grow_trans _ d2); [exact Hg2|];
                apply (tags_grow_trans _ d3); [exact Hg3|];
                apply same_tags_grow; assumption|].
        split; [intros Hok; apply (same_tags_ok d3); [exact Hfd|];
                apply Hok3; do 2 apply tick_db_ok; exact Hok|].
        unfold fdel. simpl.
        rewrite K1, K2, K3, G1, G2, G3, F1, F2, F3. repeat split; reflexivity.
    + cbv beta iota. unfold bind at 1. rewrite close_head. cbv beta iota. unfold ret.
      simpl is_ret.
      exists false, d2. do 2 eexists.
      split; [reflexivity|].
      split; [do 2 apply NoFault_tl; exact Hnf|].
      split; [exact Hg2|].
      split; [intros Hok; do 2 apply tick_db_ok; exact Hok|].
      rewrite G1, G2, G3, F1, F2, F3. repeat split; reflexivity.
Qed.

(** The loop over the hashtags of a text: one row per hashtag, all in the
    table afterwards. *)
Lemma hashtag_loop_nofault (l : list string) (d : DB) (ss : list (nat * Session))
    (n : nat) (lg : list Event) (sc : list Tick) (seed : string -> Z) :
  store_ok d -> NoFault sc -> (forall e, In e l -> stored_text KHashtag e = e) ->
  exists rows d' ss' n' lg' sc',
    hashtag_loop l (W d ss n lg sc seed) = (Ret (map tag_id rows), W d' ss' n' lg' sc' seed)
    /\ store_ok d' /\ NoFault sc' /\ tags_grow d d' /\ same_rows d d'
    /\ map tag_text rows = l /\ Forall (fun r => In r (tags KHashtag d')) rows.
Proof.
  revert d ss n lg sc.
  induction l as [|e l IH]; intros d ss n lg sc Hok Hnf Hst.
  - exists [], d, ss, n, lg, sc.
    split; [reflexivity|]. split; [exact Hok|]. split; [exact Hnf|].
    split; [apply tags_grow_refl|]. split; [apply same_rows_refl|].
    split; [reflexivity | constructor].
  - destruct (Tag_insert_nofault KHashtag e d ss n lg sc seed Hok Hnf
                (Hst e (or_introl eq_refl)))
      as [row [d1 [ss1 [n1 [lg1 [sc1 [E1 [Hok1 [Hnf1 [Hg1 [Hs1 [T1 _]]]]]]]]]]]].
    destruct (IH d1 ss1 n1 lg1 sc1 Hok1 Hnf1 (fun x Hx => Hst x (or_intror Hx)))
      as [rows [d2 [ss2 [n2 [lg2 [sc2 [E2 [Hok2 [Hnf2 [Hg2 [Hs2 [Tx Hin]]]]]]]]]]]].
    exists (row :: rows), d2, ss2, n2, lg2, sc2.
    assert (Hrow : In row (tags KHashtag d1) /\ tag_text row = e).
    { assert (X : In row (tags_with_text KHashtag e d1)) by (rewrite T1; left; reflexivity).
      unfold tags_with_text in X. apply filter_In in X. destruct X as [X1 X2].
      apply String.eqb_eq in X2. split; assumption. }
    split.
    { simpl hashtag_loop. unfold bind at 1. unfold HashtagBLL_insert_if_not_exists.
      rewrite E1. unfold bind at 1. rewrite E2. reflexivity. }
    split; [exact Hok2|]. split; [exact Hnf2|].
    split; [eapply tags_grow_trans; eassumption|].
    split; [eapply same_rows_trans; eassumption|].
    split; [simpl; f_equal; [apply Hrow | exact Tx]|].
    constructor; [|exact Hin].
    eapply tags_grow_In; [exact Hg2 | apply Hrow].
Qed.

Lemma topic_loop_nofault (l : list string) (so : PySet) (d : DB)
    (ss : list (nat * Session)) (n : nat) (lg : list Event) (sc : list Tick)
    (seed : string -> Z) :
  store_ok d -> NoFault sc ->
  exists so' d' ss' n' lg' sc',
    topic_loop l so (W d ss n lg sc seed) = (Ret so', W d' ss' n' lg' sc' seed)
    /\ store_ok d' /\ NoFault sc' /\ tags_grow d d' /\ same_rows d d'.
Proof.
  revert so d ss n lg sc.
  induction l as [|e l IH]; intros so d ss n lg sc Hok Hnf.
  - exists so, d, ss, n, lg, sc.
    split; [reflexivity|]. split; [exact Hok|]. split; [exact Hnf|].
    split; [apply tags_grow_refl | apply same_rows_refl].
  - simpl topic_loop.
    set (e' := if (title_max_length <? String.length e)%nat
               then py_prefix title_max_length e else e).
    destruct (Tag_insert_nofault KTopic e' d ss n lg sc seed Hok Hnf eq_refl)
      as [row [d1 [ss1 [n1 [lg1 [sc1 [E1 [Hok1 [Hnf1 [Hg1 [Hs1 _]]]]]]]]]]].
    destruct (IH (set_add so (tag_id row)) d1 ss1 n1 lg1 sc1 Hok1 Hnf1)
      as [so' [d2 [ss2 [n2 [lg2 [sc2 [E2 [Hok2 [Hnf2 [Hg2 Hs2]]]]]]]]]].
    exists so', d2, ss2, n2, lg2, sc2.
    split.
    { unfold bind at 1. unfold TopicBLL_insert_if_not_exists. rewrite E1. exact E2. }
    split; [exact Hok2|]. split; [exact Hnf2|].
    split; [eapply tags_grow_trans; eassumption|].
    eapply same_rows_trans; eassumption.
Qed.

(* ================================================================== *)
(** * The links after the ingestion upsert *)
(* ================================================================== *)

Lemma map_injective_on {A B} (f : A -> B) (l : list A) (a b : A) :
  NoDup (map f l) -> In a l -> In b l -> f a = f b -> a = b.
Proof.
  induction l as [|x l IH]; simpl; intros ND Ha Hb E; [contradiction|].
  inversion ND as [|? ? Hn ND']; subst.
  destruct Ha as [->|Ha], Hb as [->|Hb]; auto.
  - exfalso. apply Hn. rewrite E. apply in_map. exact Hb.
  - exfalso. apply Hn. rewrite <- E. apply in_map. exact Ha.
Qed.

Lemma NoDup_map_on {A B} (f : A -> B) (table rows : list A) :
  NoDup (map f table) -> NoDup rows -> (forall r, In r rows -> In r table) ->
  NoDup (map f rows).
Proof.
  intros NT. induction rows as [|r rows IH]; intros ND Hin; simpl; [constructor|].
  inversion ND as [|? ? Hn ND']; subst.
  constructor.
  - intros F. apply in_map_iff in F. destruct F as [r' [E Hr']].
    assert (r' = r).
    { apply (map_injective_on f table); auto; apply Hin; [right | left]; auto. }
    subst. tauto.
  - apply IH; [exact ND' | intros x Hx; apply Hin; right; exact Hx].
Qed.

(** Once the links of a tweet are replaced by those of [rows], the
    hashtags linked to it are the texts of [rows]. *)
Lemma linked_hashtags_replaced (tid : Z) (rows : list Tag) (old : list (Z * Z)) (d : DB) :
  tags_wf KHashtag d ->
  Forall (fun r => In r (tags KHashtag d)) rows ->
  tweet_hashtag d
  = filter (fun l => negb (fst l =? tid)) old ++ map (fun h => (tid, h)) (map tag_id rows) ->
  linked_hashtags tid d = map tag_text rows.
Proof.
  intros [_ [NI _]] Hin E. unfold linked_hashtags. rewrite E, flat_map_app.
  assert (X : flat_map
                (fun l : Z * Z =>
                   if fst l =? tid
                   then map tag_text (filter (fun r => tag_id r =? snd l) (hashtag d))
                   else [])
                (filter (fun l => negb (fst l =? tid)) old) = []).
  { clear E. induction old as [|a old IH]; simpl; [reflexivity|].
    destruct (fst a =? tid) eqn:Ea; simpl; [exact IH|]. rewrite Ea. exact IH. }
  rewrite X. simpl. clear X E.
  induction rows as [|r rows IH]; simpl; [reflexivity|].
  inversion Hin as [|? ? Hr Hrest]; subst.
  rewrite Z.eqb_refl.
  change (hashtag d) with (tags KHashtag d).
  rewrite (filter_id_unique (tags KHashtag d) r NI Hr). simpl.
  f_equal. apply IH. exact Hrest.
Qed.

(** The statements after the transaction, in a run the store does not
    reject: the tweet's hashtag links become those of the hashtags of the
    text, the tweets and the users stay. *)
Lemma upsert_links_nofault (tid : Z) (c : string) (topics : option (list string))
    (d : DB) (ss : list (nat * Session)) (n : nat) (lg : list Event) (sc : list Tick)
    (seed : string -> Z) :
  store_ok d -> NoFault sc -> has_tweet tid d = true ->
  exists d' ss' n' lg' sc',
    TweetBLL_upsert_links tid (Some c) topics (W d ss n lg sc seed)
    = (Ret tt, W d' ss' n' lg' sc' seed)
    /\ store_ok d' /\ twitter_user d' = twitter_user d /\ tweet d' = tweet d
    /\ linked_hashtags tid d' = str_set seed (re_findall_hashtag c).
Proof.
  intros Hok Hnf Ht.
  unfold TweetBLL_upsert_links. unfold bind at 1. unfold get_hashseed.
  cbv beta iota zeta. simpl hashseed.
  set (l := str_set seed (re_findall_hashtag c)).
  assert (Hst : forall e, In e l -> stored_text KHashtag e = e).
  { intros e He. apply (findall_stored c). apply (str_set_In seed). exact He. }
  destruct (hashtag_loop_nofault l d ss n lg sc seed Hok Hnf Hst)
    as [rows [d1 [ss1 [n1 [lg1 [sc1 [E1 [Hok1 [Hnf1 [Hg1 [Hs1 [Tx Hin1]]]]]]]]]]]].
  unfold bind at 1. rewrite E1.
  destruct Hs1 as [U1 [T1 [L1 P1]]].
  assert (Ht1 : has_tweet tid d1 = true) by (rewrite (has_tweet_eq tid d d1 T1); exact Ht).
  assert (Hids : Forall (fun h => has_tag_id KHashtag h d1 = true) (map tag_id rows)).
  { apply Forall_forall. intros h Hh. apply in_map_iff in Hh.
    destruct Hh as [r [<- Hr]]. apply has_tag_id_In.
    rewrite Forall_forall in Hin1. apply Hin1. exact Hr. }
  assert (ND : NoDup (map tag_id rows)).
  { apply (NoDup_map_on tag_id (tags KHashtag d1)).
    - apply Hok1.
    - apply (NoDup_map_inv tag_text). rewrite Tx. apply str_set_NoDup.
    - rewrite Forall_forall in Hin1. exact Hin1. }
  destruct (TweetHashtagBLL_insert_nofault tid (map tag_id rows) d1 ss1 n1 lg1 sc1 seed
              Hnf1 Ht1 Hids ND)
    as [d2 [lg2 [sc2 [E2 [Hnf2 [Hg2 [Hok2 [U2 [T2 [P2 L2]]]]]]]]]].
  unfold bind at 1. rewrite E2.
  assert (Hrows2 : forall dx, tags_grow d2 dx ->
                              Forall (fun r => In r (tags KHashtag dx)) rows).
  { intros dx Hx. eapply Forall_impl; [|exact Hin1]. intros r Hr.
    eapply tags_grow_In; [exact Hx|]. eapply tags_grow_In; [exact Hg2 | exact Hr]. }
  destruct topics as [[|t topics]|].
  - exists d2, ss1, (S n1), lg2, sc2.
    split; [reflexivity|]. split; [exact (Hok2 Hok1)|].
    split; [congruence|]. split; [congruence|].
    rewrite <- Tx. apply (linked_hashtags_replaced tid rows (tweet_hashtag d1)).
    + apply (Hok2 Hok1).
    + apply Hrows2. apply tags_grow_refl.
    + exact L2.
  - destruct (topic_loop_nofault (t :: topics) set_new d2 ss1 (S n1) lg2 sc2 seed
                (Hok2 Hok1) Hnf2)
      as [so [d3 [ss3 [n3 [lg3 [sc3 [E3 [Hok3 [Hnf3 [Hg3 [U3 [T3 [L3 P3]]]]]]]]]]]]].
    unfold bind at 1. rewrite E3.
    destruct (TweetTopicBLL_insert_frame tid (set_iter so) d3 ss3 n3 lg3 sc3 seed Hnf3)
      as [b [d4 [lg4 [sc4 [E4 [Hnf4 [Hg4 [Hok4 [U4 [T4 L4]]]]]]]]]].
    unfold bind at 1. rewrite E4.
    exists d4, ss3, (S n3), lg4, sc4.
    split; [reflexivity|]. split; [exact (Hok4 Hok3)|].
    split; [congruence|]. split; [congruence|].
    rewrite <- Tx. apply (linked_hashtags_replaced tid rows (tweet_hashtag d1)).
    + apply (Hok4 Hok3).
    + apply Hrows2. eapply tags_grow_trans; eassumption.
    + rewrite L4, L3. exact L2.
  - exists d2, ss1, (S n1), lg2, sc2.
    split; [reflexivity|]. split; [exact (Hok2 Hok1)|].
    split; [congruence|]. split; [congruence|].
    rewrite <- Tx. apply (linked_hashtags_replaced tid rows (tweet_hashtag d1)).
    + apply (Hok2 Hok1).
    + apply Hrows2. apply tags_grow_refl.
    + exact L2.
Qed.

(** The ingestion upsert in a run the store does not reject. *)
Lemma upsert_nofault (tid uid : Z) (un dn text : string) (lang : option string)
    (ts : Z) (sent : option Z) (lk rt rp : Z) (topics : option (list string)) (d : DB)
    (sc : list Tick) (seed : string -> Z) :
  store_ok d -> NoFault sc ->
  exists rc d' ss' n' lg' sc',
    TweetBLL_upsert tid uid un dn (Some text) lang ts sent lk rt rp topics
      (init_world d sc seed)
    = (Ret rc, W d' ss' n' lg' sc' seed)
    /\ 1 <= rc <= 2
    /\ twitter_user d' = upsert_user_rows uid un dn ts (twitter_user d)
    /\ tweet d' = upsert_tweet_rows tid uid (clip 280 text) (truncate 5 lang) ts sent
                    lk rt rp (tweet d)
    /\ linked_hashtags tid d' = str_set seed (re_findall_hashtag (clip 280 text)).
Proof.
  intros Hok Hnf. unfold init_world.
  destruct (upsert_tx_nofault tid uid un dn text lang ts sent lk rt rp topics d [] 0%nat []
              sc seed Hnf)
    as [d3 [rc [lg3 [[U3 [T3 _]] [Hg3 [Hok3 [Hrc E]]]]]]].
  rewrite E. clear E.
  set (d4 := with_tweet _ _).
  assert (Hok4 : store_ok d4).
  { apply (same_tags_ok (with_twitter_user
                           (upsert_user_rows uid un dn ts (twitter_user d3)) d3)).
    - apply same_tags_with_tweet.
    - apply (same_tags_ok d3); [apply same_tags_with_twitter_user | exact (Hok3 Hok)]. }
  assert (Ht4 : has_tweet tid d4 = true) by (apply has_upsert_tweet).
  destruct (upsert_links_nofault tid (clip 280 text) topics d4 [] 1%nat lg3
              (tl (tl (tl sc))) seed Hok4 (NoFault_tl _ (NoFault_tl _ (NoFault_tl _ Hnf)))
              Ht4)
    as [d5 [ss5 [n5 [lg5 [sc5 [E5 [_ [U5 [T5 L5]]]]]]]]].
  unfold bind. rewrite E5. unfold ret.
  exists rc, d5, ss5, n5, lg5, sc5.
  split; [reflexivity|]. split; [exact Hrc|].
  split; [rewrite U5; unfold d4; simpl; rewrite U3; reflexivity|].
  split; [rewrite T5; unfold d4; simpl; rewrite T3; reflexivity|].
  exact L5.
Qed.

Lemma store_ok_one_tweet : store_ok db_one_tweet.
Proof.
  split; (split; [|split]); simpl; repeat constructor; simpl; try lia;
    intuition discriminate.
Qed.

Lemma store_ok_alice : store_ok db_alice.
Proof. split; (split; [constructor | split; constructor]). Qed.

Transparent clip.







(* ================================================================== *)
(** * The author upsert *)
(* ================================================================== *)

Lemma TwitterUserBLL_upsert_nofault (id : Z) (un dn : string) (ts : Z) (d : DB)
    (sc : list Tick) (seed : string -> Z) :
  NoFault sc ->
  exists d' lg',
    TwitterUserBLL_upsert id un dn ts (init_world d sc seed)
    = (Ret (match find_user id d with
            | Some old => if tu_last_updated old <? ts then 2 else 1
            | None => 1
            end),
       W d' [] 1%nat lg' (tl (tl sc)) seed)
    /\ twitter_user d' = upsert_user_rows id un dn ts (twitter_user d).
Proof.
  intros Hnf. unfold init_world, TwitterUserBLL_upsert.
  unfold bind at 1. unfold create_session. cbv beta iota zeta.
  simpl db. simpl sessions. simpl next_sid. simpl log. simpl sched. simpl hashseed.
  unfold bind at 1. unfold attempt at 1. unfold bind at 1.
  unfold TwitterUserDAL_upsert. rewrite execute_nofault by assumption.
  cbv beta iota zeta. simpl pending. simpl new_objs. simpl app. simpl apply_writes.
  unfold bind at 1. rewrite commit_nofault by (apply NoFault_tl; exact Hnf).
  cbv beta iota. unfold ret at 1. unfold bind at 1. unfold ret at 1.
  unfold bind at 1. rewrite close_head. cbv beta iota. unfold ret.
  simpl apply_writes.
  match goal with
  | |- context [find_user id (tick_db ?s d sc)] =>
      replace (find_user id (tick_db s d sc)) with (find_user id d)
        by (unfold find_user; rewrite (proj1 (tick_db_frame s d sc)); reflexivity)
  end.
  do 2 eexists. split; [reflexivity|].
  simpl. rewrite !(proj1 (tick_db_frame _ _ _)). reflexivity.
Qed.

(** C8.  An author upsert on an existing id, in a run in which the store
    rejects no round trip and under a username that no other author holds
    (the column is unique): an incoming timestamp strictly newer than the
    stored [last_updated] replaces username, display name and
    [last_updated]; an earlier or equal one leaves the row as it is.  The
    same holds for the author step of the ingestion upsert, whose
    timestamp is the tweet's [created_at]. *)
Theorem author_upsert_by_timestamp :
  forall (id : Z) (username display_name : string) (last_updated : Z) (old : TwitterUser)
         (d : DB) (sc : list Tick) (seed : string -> Z),
    store_ok d -> NoFault sc -> find_user id d = Some old ->
    username_free id username d ->
    (let '(r, w) :=
       TwitterUserBLL_upsert id username display_name last_updated (init_world d sc seed) in
     (tu_last_updated old < last_updated ->
      r = Ret 2
      /\ find_user id (db w)
         = Some {| tu_id := id; tu_username := username; tu_display_name := display_name;
                   tu_last_updated := last_updated |})
     /\ (last_updated <= tu_last_updated old ->
         r = Ret 1 /\ find_user id (db w) = Some old))
    /\ (forall (tweet_id : Z) (text : string) (language : option string)
               (sentiment_score : option Z) (like_count retweet_count reply_count : Z)
               (topics : option (list string)),
          let '(r, w) :=
            TweetBLL_upsert tweet_id id username display_name (Some text) language
              last_updated sentiment_score like_count retweet_count reply_count topics
              (init_world d sc seed) in
          (tu_last_updated old < last_updated ->
           find_user id (db w)
           = Some {| tu_id := id; tu_username := username;
                     tu_display_name := display_name;
                     tu_last_updated := last_updated |})
          /\ (last_updated <= tu_last_updated old -> find_user id (db w) = Some old)).
Proof.
  intros id un dn ts old d sc seed Hok Hnf Hold _.
  assert (Hid : tu_id old = id).
  { unfold find_user in Hold. apply find_some in Hold. destruct Hold as [_ H].
    apply Z.eqb_eq in H. exact H. }
  assert (Hnew : tu_last_updated old < ts ->
                 user_on_duplicate old un dn ts
                 = {| tu_id := id; tu_username := un; tu_display_name := dn;
                      tu_last_updated := ts |}).
  { intros H. unfold user_on_duplicate. apply Z.ltb_lt in H. rewrite H, Hid.
    reflexivity. }
  assert (Hsame : ts <= tu_last_updated old -> user_on_duplicate old un dn ts = old).
  { intros H. unfold user_on_duplicate. apply Z.ltb_ge in H. rewrite H.
    destruct old; reflexivity. }
  split.
  - destruct (TwitterUserBLL_upsert_nofault id un dn ts d sc seed Hnf) as [d' [lg' [E U]]].
    rewrite E, Hold. simpl db.
    assert (F : find_user id d' = Some (user_on_duplicate old un dn ts)).
    { unfold find_user. rewrite U. apply find_upsert_user. exact Hold. }
    split; intros H.
    + rewrite F, (Hnew H). apply Z.ltb_lt in H. rewrite H. split; reflexivity.
    + rewrite F, (Hsame H). apply Z.ltb_ge in H. rewrite H. split; reflexivity.
  - intros tid text lang sent lk rt rp topics.
    destruct (upsert_nofault tid id un dn text lang ts sent lk rt rp topics d sc seed
                Hok Hnf)
      as [rc [d' [ss' [n' [lg' [sc' [E [_ [U _]]]]]]]]].
    rewrite E. simpl db.
    assert (F : find_user id d' = Some (user_on_duplicate old un dn ts)).
    { unfold find_user. rewrite U. apply find_upsert_user. exact Hold. }
    split; intros H; rewrite F; [rewrite (Hnew H) | rewrite (Hsame H)]; reflexivity.
Qed.

Lemma author_upsert_by_timestamp_witness :
  store_ok db_alice /\ NoFault []
  /\ find_user 100 db_alice
     = Some {| tu_id := 100; tu_username := "alice"; tu_display_name := "Alice";
               tu_last_updated := 5 |}
  /\ username_free 100 "alice2" db_alice
  /\ let old := {| tu_id := 100; tu_username := "alice"; tu_display_name := "Alice";
                   tu_last_updated := 5 |} in
     (let '(r, w) := TwitterUserBLL_upsert 100 "alice2" "Alice B" 6
                       (init_world db_alice [] seed0) in
      (tu_last_updated old < 6 ->
       r = Ret 2
       /\ find_user 100 (db w)
          = Some {| tu_id := 100; tu_username := "alice2"; tu_display_name := "Alice B";
                    tu_last_updated := 6 |})
      /\ (6 <= tu_last_updated old -> r = Ret 1 /\ find_user 100 (db w) = Some old))
     /\ (forall (tweet_id : Z) (text : string) (language : option string)
                (sentiment_score : option Z) (like_count retweet_count reply_count : Z)
                (topics : option (list string)),
           let '(r, w) :=
             TweetBLL_upsert tweet_id 100 "alice2" "Alice B" (Some text) language
               6 sentiment_score like_count retweet_count reply_count topics
               (init_world db_alice [] seed0) in
           (tu_last_updated old < 6 ->
            find_user 100 (db w)
            = Some {| tu_id := 100; tu_username := "alice2";
                      tu_display_name := "Alice B"; tu_last_updated := 6 |})
           /\ (6 <= tu_last_updated old -> find_user 100 (db w) = Some old)).
Proof.
  assert (F : username_free 100 "alice2" db_alice).
  { intros u [<-|[]] _. reflexivity. }
  split; [exact store_ok_alice|]. split; [constructor|]. split; [reflexivity|].
  split; [exact F|].
  apply (author_upsert_by_timestamp 100 "alice2" "Alice B" 6
           {| tu_id := 100; tu_username := "alice"; tu_display_name := "Alice";
              tu_last_updated := 5 |} db_alice [] seed0).
  - exact store_ok_alice.
  - constructor.
  - reflexivity.
  - exact F.
Defined.

(* ================================================================== *)
(** * Sessions held across an operation *)
(* ================================================================== *)

Transparent query execute insert_tag_row commit close add_all.

Lemma map_fst_put_first (s : nat) (x : Session) (l : list (nat * Session)) :
  map fst (put_first s x l) = map fst l.
Proof.
  induction l as [|[k y] r IH]; simpl; [reflexivity|].
  destruct (Nat.eqb k s) eqn:E; simpl.
  - apply Nat.eqb_eq in E. subst. reflexivity.
  - f_equal. exact IH.
Qed.

Lemma open_ids_tick (w : World) : open_ids (snd (tick w)) = open_ids w.
Proof.
  unfold tick. destruct (sched w) as [|[| |k s] r]; try reflexivity.
  unfold rival_commit. destruct (text_taken _ _ _); reflexivity.
Qed.

Lemma open_ids_put_session (s : nat) (x : Session) (w : World) :
  open_ids (put_session s x w) = open_ids w.
Proof. unfold open_ids, put_session. simpl. apply map_fst_put_first. Qed.

Lemma keeps_ret {A} (a : A) : keeps_sessions (ret a).
Proof. intros w. reflexivity. Qed.

Lemma keeps_raise {A} (e : Exn) : keeps_sessions (@raise A e).
Proof. intros w. reflexivity. Qed.

Lemma keeps_bind {A B} (m : M A) (f : A -> M B) :
  keeps_sessions m -> (forall a, keeps_sessions (f a)) -> keeps_sessions (bind m f).
Proof.
  intros Hm Hf w. unfold bind. specialize (Hm w).
  destruct (m w) as [[a|e] w']; simpl in *; [rewrite Hf|]; exact Hm.
Qed.

Lemma keeps_attempt {A} (m : M A) : keeps_sessions m -> keeps_sessions (attempt m).
Proof. intros Hm w. unfold attempt. specialize (Hm w). destruct (m w). exact Hm. Qed.

Lemma keeps_query {A} (s : nat) (q : DB -> Res A) : keeps_sessions (query s q).
Proof.
  intros w. unfold query. pose proof (open_ids_tick w) as H.
  destruct (tick w) as [t w1]. destruct t; exact H.
Qed.

Lemma keeps_execute {A} (s : nat) (stmt : DB -> Res (A * (DB -> DB))) :
  keeps_sessions (execute s stmt).
Proof.
  intros w. unfold execute. pose proof (open_ids_tick w) as H.
  destruct (tick w) as [t w1]. simpl in H.
  destruct t; try exact H;
    (destruct (stmt _) as [[a f]|e]; simpl; [rewrite open_ids_put_session|]; exact H).
Qed.

Lemma keeps_insert_tag_row (k : TagKind) (s : nat) (value : string) :
  keeps_sessions (insert_tag_row k s value).
Proof.
  intros w. unfold insert_tag_row. pose proof (open_ids_tick w) as H.
  destruct (tick w) as [t w1]. simpl in H.
  destruct t; try exact H;
    (destruct (existsb _ _); simpl; [|rewrite open_ids_put_session]; exact H).
Qed.

Lemma keeps_add_all (s : nat) (objs : list NewObj) : keeps_sessions (add_all s objs).
Proof. intros w. unfold add_all. simpl. apply open_ids_put_session. Qed.

Lemma keeps_flush (s : nat) : keeps_sessions (flush s).
Proof.
  intros w. unfold flush. destruct (new_objs (get_session s w)) as [|o os]; [reflexivity|].
  pose proof (open_ids_tick w) as H. destruct (tick w) as [t w1]. simpl in H.
  destruct t; try exact H;
    (destruct (insert_objs _ _); simpl; [rewrite open_ids_put_session|]; exact H).
Qed.

Lemma keeps_commit (s : nat) : keeps_sessions (commit s).
Proof.
  unfold commit. apply keeps_bind; [apply keeps_flush|]. intros _ w.
  pose proof (open_ids_tick w) as H. destruct (tick w) as [t w1]. simpl in H.
  destruct t; try exact H;
    (unfold open_ids in *; simpl; rewrite map_fst_put_first; exact H).
Qed.

Lemma keeps_rollback (s : nat) : keeps_sessions (rollback s).
Proof.
  intros w. unfold rollback, log_event, open_ids. simpl. apply map_fst_put_first.
Qed.

Lemma never_ret {A} (a : A) : never_raises (ret a).
Proof. intros w. exists a. reflexivity. Qed.

Lemma never_attempt {A} (m : M A) : never_raises (attempt m).
Proof. intros w. unfold attempt. destruct (m w) as [r w']. exists r. reflexivity. Qed.

Lemma never_rollback (s : nat) : never_raises (rollback s).
Proof. intros w. exists tt. reflexivity. Qed.

Lemma never_bind {A B} (m : M A) (f : A -> M B) :
  never_raises m -> (forall a, never_raises (f a)) -> never_raises (bind m f).
Proof.
  intros Hm Hf w. unfold bind. destruct (Hm w) as [a Ha].
  destruct (m w) as [r w']. simpl in Ha. subst r. apply Hf.
Qed.

Lemma releases_close {A} (s : nat) (k : M A) :
  keeps_sessions k -> releases s (bind (close s) (fun _ => k)).
Proof.
  intros Hk w ids H. unfold bind, close. rewrite Hk.
  unfold open_ids in *. simpl. destruct (sessions w) as [|[s' x] r]; [discriminate|].
  simpl in *. injection H as H1 H2. subst s'. rewrite Nat.eqb_refl. exact H2.
Qed.

Lemma releases_bind {A B} (s : nat) (m : M A) (f : A -> M B) :
  keeps_sessions m -> never_raises m -> (forall a, releases s (f a)) ->
  releases s (bind m f).
Proof.
  intros Hk Hn Hf w ids H. unfold bind. destruct (Hn w) as [a Ha]. specialize (Hk w).
  destruct (m w) as [r w']. simpl in *. subst r. apply Hf. rewrite Hk. exact H.
Qed.

Lemma keeps_create {A} (f : nat -> M A) :
  (forall s, releases s (f s)) -> keeps_sessions (bind create_session f).
Proof. intros Hf w. unfold bind, create_session. apply Hf. reflexivity. Qed.

Lemma keeps_BaseDAL_delete (E : Entity) (s : nat) (id : Z) :
  keeps_sessions (BaseDAL_delete E s id).
Proof.
  destruct E; simpl; try apply keeps_raise;
    (apply keeps_bind; [apply keeps_attempt, keeps_execute|];
     intros [a|e]; [apply keeps_ret | apply keeps_raise]).
Qed.

Lemma keeps_BaseDAL_delete_all (E : Entity) (s : nat) :
  keeps_sessions (BaseDAL_delete_all E s).
Proof.
  unfold BaseDAL_delete_all. apply keeps_bind; [apply keeps_attempt, keeps_execute|].
  intros [a|e]; apply keeps_ret.
Qed.

Lemma never_BaseDAL_delete_all (E : Entity) (s : nat) :
  never_raises (BaseDAL_delete_all E s).
Proof.
  unfold BaseDAL_delete_all. apply never_bind; [apply never_attempt|].
  intros [a|e]; apply never_ret.
Qed.

Lemma keeps_BaseDAL_find_by_id (E : Entity) (s : nat) (id : Z) :
  keeps_sessions (BaseDAL_find_by_id E s id).
Proof. destruct E; simpl; try apply keeps_raise; apply keeps_query. Qed.

Create HintDb sess.
#[local] Hint Resolve keeps_ret keeps_raise keeps_query keeps_execute keeps_insert_tag_row
  keeps_add_all keeps_flush keeps_commit keeps_rollback never_ret never_attempt
  never_rollback keeps_BaseDAL_delete keeps_BaseDAL_delete_all never_BaseDAL_delete_all
  keeps_BaseDAL_find_by_id : sess.

Ltac sess_step :=
  match goal with
  | |- keeps_sessions (bind create_session _) => apply keeps_create; intro
  | |- releases _ (bind (close _) _) => apply releases_close
  | |- releases _ (bind _ _) => apply releases_bind; [ | | intro]
  | |- keeps_sessions (bind _ _) => apply keeps_bind; [ | intro]
  | |- never_raises (bind _ _) => apply never_bind; [ | intro]
  | |- keeps_sessions (attempt _) => apply keeps_attempt
  | |- context [match ?r with Ret _ => _ | Raise _ => _ end] => destruct r
  | |- context [is_ret ?r] => destruct r; simpl
  | _ => solve [auto with sess]
  end.

(** X1.  Every operation of the business layer other than the tag
    get-or-create, [TopicBLL.find_by_title] and the ingestion upsert (which
    calls the get-or-create) returns, whatever the store answers and
    whether it returns a value or raises, with exactly the sessions open
    that were open when it was called: the one it opens is closed on every
    path. *)
Theorem operations_close_their_session :
  (forall E id, keeps_sessions (BaseBLL_find_by_id E id))
  /\ (forall E, keeps_sessions (BaseBLL_find_all E))
  /\ (forall E id, keeps_sessions (BaseBLL_delete E id))
  /\ (forall E, keeps_sessions (BaseBLL_delete_all E))
  /\ (forall id username display_name,
        keeps_sessions (TwitterUserBLL_insert id username display_name))
  /\ (forall id username display_name last_updated,
        keeps_sessions (TwitterUserBLL_upsert id username display_name last_updated))
  /\ (forall tweet_id ids, keeps_sessions (TweetHashtagBLL_insert tweet_id ids))
  /\ (forall tweet_id ids, keeps_sessions (TweetTopicBLL_insert tweet_id ids))
  /\ keeps_sessions TweetBLL_delete_all
  /\ (forall user_id username since until hashtags sentiment_score language exclude_content,
        keeps_sessions (TweetBLL_filter_by user_id username since until hashtags
                          sentiment_score language exclude_content))
  /\ (forall user_id username since until hashtags sentiment_score language,
        keeps_sessions (TweetBLL_count_if user_id username since until hashtags
                          sentiment_score language)).
Proof.
  repeat split; intros.
  - unfold BaseBLL_find_by_id. repeat sess_step.
  - unfold BaseBLL_find_all, BaseDAL_find_all. repeat sess_step.
  - unfold BaseBLL_delete. repeat sess_step.
  - unfold BaseBLL_delete_all. repeat sess_step.
  - unfold TwitterUserBLL_insert, TwitterUserDAL_insert. repeat sess_step.
  - unfold TwitterUserBLL_upsert, TwitterUserDAL_upsert. repeat sess_step.
  - unfold TweetHashtagBLL_insert, TweetHashtagDAL_delete_by_tweet_id. repeat sess_step.
  - unfold TweetTopicBLL_insert, TweetTopicDAL_delete_by_tweet_id. repeat sess_step.
  - unfold TweetBLL_delete_all. repeat sess_step.
  - unfold TweetBLL_filter_by, TweetDAL_filter. repeat sess_step.
  - unfold TweetBLL_count_if, TweetDAL_count_if. repeat sess_step.
Qed.

(* ================================================================== *)
(** * Reads and deletes that the store rejects *)
(* ================================================================== *)

(** X2.  When the store rejects the SELECT, [filter_by], [find_all] and
    [find_by_id] do not return [None]: they raise [UnboundLocalError] (the
    [finally] block returns a name the failed call never bound), while
    [count_if] returns 0.  The session is closed and nothing is written in
    each case. *)
Theorem failed_read_raises_but_count_is_zero (d : DB) (sc : list Tick)
    (seed : string -> Z) :
  let w := init_world d (Fault :: sc) seed in
  let w' := {| db := d; sessions := []; next_sid := 1;
               log := [Open 0%nat; Close 0%nat]; sched := sc; hashseed := seed |} in
  (forall user_id username since until hashtags sentiment_score language exclude_content,
     TweetBLL_filter_by user_id username since until hashtags sentiment_score language
       exclude_content w = (Raise UnboundLocalError, w'))
  /\ (forall user_id username since until hashtags sentiment_score language,
        TweetBLL_count_if user_id username since until hashtags sentiment_score language w
        = (Ret 0, w'))
  /\ (forall E, BaseBLL_find_all E w = (Raise UnboundLocalError, w'))
  /\ (forall id, BaseBLL_find_by_id ETweet id w = (Raise UnboundLocalError, w'))
  /\ (forall id, BaseBLL_find_by_id ETwitterUser id w = (Raise UnboundLocalError, w'))
  /\ (forall E id, fst (BaseBLL_find_by_id E id w) = Raise UnboundLocalError).
Proof.
  repeat split; intros; try reflexivity. destruct E; reflexivity.
Qed.

(** X3.  A DELETE that fails inside [TweetBLL.delete_all] does not stop it:
    [BaseDAL.delete_all] swallows the exception, so the transaction is
    committed with what did succeed.  When the DELETE of the hashtags is
    rejected, every tweet is deleted all the same, the hashtags stay, and
    the call returns the number of tweets; when the DELETE of the tweets is
    rejected, the call returns [None], not 0, and the tweets stay. *)
Theorem delete_all_commits_partial_work (d : DB) (seed : string -> Z) :
  (let '(r, w) := TweetBLL_delete_all (init_world d [Go; Fault] seed) in
   r = Ret (Some (Z.of_nat (List.length (tweet d))))
   /\ tweet (db w) = [] /\ hashtag (db w) = hashtag d
   /\ log w = [Open 0%nat; Commit 0%nat; Close 0%nat])
  /\ (let '(r, w) := TweetBLL_delete_all (init_world d [Fault] seed) in
      r = Ret None /\ tweet (db w) = tweet d
      /\ log w = [Open 0%nat; Commit 0%nat; Close 0%nat]).
Proof.
  split.
  - repeat split; reflexivity.
  - unfold TweetBLL_delete_all, BaseDAL_delete_all, init_world, bind, attempt,
      create_session, execute, commit, flush, tick, close, ret. simpl.
    match goal with
    | |- context [existsb ?f ?l] => destruct (existsb f l)
    end; simpl; repeat split; reflexivity.
Qed.

(* ================================================================== *)
(** * Edge cases of the upsert and of the tag registry *)
(* ================================================================== *)

Lemma rival_commit_frame (k : TagKind) (text : string) (w : World) :
  twitter_user (db (rival_commit k text w)) = twitter_user (db w)
  /\ tweet (db (rival_commit k text w)) = tweet (db w)
  /\ tweet_hashtag (db (rival_commit k text w)) = tweet_hashtag (db w)
  /\ tweet_topic (db (rival_commit k text w)) = tweet_topic (db w)
  /\ sessions (rival_commit k text w) = sessions w
  /\ next_sid (rival_commit k text w) = next_sid w
  /\ log (rival_commit k text w) = log w
  /\ sched (rival_commit k text w) = sched w.
Proof.
  unfold rival_commit. destruct (text_taken k text w); [repeat split|].
  destruct k; repeat split.
Qed.

(** What a world shows apart from its tag tables. *)
Lemma tick_frame (w : World) :
  twitter_user (db (snd (tick w))) = twitter_user (db w)
  /\ tweet (db (snd (tick w))) = tweet (db w)
  /\ tweet_hashtag (db (snd (tick w))) = tweet_hashtag (db w)
  /\ tweet_topic (db (snd (tick w))) = tweet_topic (db w)
  /\ sessions (snd (tick w)) = sessions w
  /\ next_sid (snd (tick w)) = next_sid w
  /\ log (snd (tick w)) = log w.
Proof.
  unfold tick. destruct (sched w) as [|[| |k s] r]; try (repeat split; reflexivity).
  simpl. destruct (rival_commit_frame k s (with_sched r w))
    as [H1 [H2 [H3 [H4 [H5 [H6 [H7 _]]]]]]].
  rewrite H1, H2, H3, H4, H5, H6, H7. repeat split.
Qed.

(** X4.  [TweetBLL.upsert] with [content=None] raises [TypeError] whatever
    the store answers: the transaction cannot succeed (the column is NOT
    NULL) and is rolled back, and the hashtag extraction in the [finally]
    block then fails on [None].  No user, tweet or link row is written. *)
Theorem upsert_without_content_raises (tweet_id twitter_user_id : Z)
    (username display_name : string) (language : option string) (created_at : Z)
    (sentiment_score : option Z) (like_count retweet_count reply_count : Z)
    (topics : option (list string)) (d : DB) (sc : list Tick) (seed : string -> Z) :
  let '(r, w) := TweetBLL_upsert tweet_id twitter_user_id username display_name None
                   language created_at sentiment_score like_count retweet_count
                   reply_count topics (init_world d sc seed) in
  r = Raise TypeError
  /\ twitter_user (db w) = twitter_user d /\ tweet (db w) = tweet d
  /\ tweet_hashtag (db w) = tweet_hashtag d /\ tweet_topic (db w) = tweet_topic d
  /\ sessions w = []
  /\ log w = [Open 0%nat; Rollback 0%nat; Close 0%nat].
Proof.
  unfold TweetBLL_upsert, TweetBLL_upsert_links, TwitterUserDAL_upsert, TweetDAL_upsert.
  simpl truncate. unfold bind at 1. unfold create_session. cbv beta iota zeta.
  unfold init_world. simpl db. simpl sessions. simpl next_sid. simpl log. simpl sched.
  simpl hashseed.
  set (w0 := {| db := d; sessions := [(0%nat, empty_session)]; next_sid := 1;
                log := [] ++ [Open 0%nat]; sched := sc; hashseed := seed |}).
  unfold bind at 1. unfold attempt. unfold bind at 1. unfold execute at 1.
  destruct (tick_frame w0) as [U1 [T1 [H1 [P1 [S1 [N1 L1]]]]]].
  destruct (tick w0) as [t1 w1]. simpl snd in *. simpl in U1, T1, H1, P1, S1, N1, L1.
  assert (G1 : get_session 0 w1 = empty_session)
    by (unfold get_session; rewrite S1; reflexivity).
  assert (Hfail : forall w2 : World,
            twitter_user (db w2) = twitter_user d -> tweet (db w2) = tweet d ->
            tweet_hashtag (db w2) = tweet_hashtag d -> tweet_topic (db w2) = tweet_topic d ->
            sessions w2 = [(0%nat, empty_session)]
            \/ (exists f, sessions w2 = [(0%nat, {| pending := [f]; new_objs := [] |})]) ->
            log w2 = [Open 0%nat] ->
            forall e : Exn,
            let '(r, w) :=
              bind (bind (rollback 0) (fun _ => ret 0))
                (fun n : Z => bind (close 0) (fun _ => bind (@raise unit TypeError)
                                                     (fun _ => ret n))) w2 in
            r = Raise TypeError
            /\ twitter_user (db w) = twitter_user d /\ tweet (db w) = tweet d
            /\ tweet_hashtag (db w) = tweet_hashtag d /\ tweet_topic (db w) = tweet_topic d
            /\ sessions w = []
            /\ log w = [Open 0%nat; Rollback 0%nat; Close 0%nat]).
  { intros w2 A B C D S L _. unfold bind, rollback, close, ret, raise, log_event,
      put_session, with_sessions. simpl. rewrite L.
    destruct S as [S|[f S]]; rewrite S; simpl; repeat split; assumption. }
  assert (Hnext : forall w1' : World,
            twitter_user (db w1') = twitter_user d -> tweet (db w1') = tweet d ->
            tweet_hashtag (db w1') = tweet_hashtag d ->
            tweet_topic (db w1') = tweet_topic d ->
            (exists f, sessions w1' = [(0%nat, {| pending := [f]; new_objs := [] |})]) ->
            log w1' = [Open 0%nat] ->
            forall (m : M Z) (k : Z -> M Z),
              (forall w, exists e, m w = (Raise e, snd (tick w))) ->
              let '(r, w) :=
                (let (r, w') := let (r, w') := bind m k w1' in (Ret r, w') in
                 match r with
                 | Ret a =>
                     bind match a with
                          | Ret n => ret n
                          | Raise _ => bind (rollback 0) (fun _ => ret 0)
                          end
                       (fun n : Z => bind (close 0) (fun _ => bind (@raise unit TypeError)
                                                            (fun _ => ret n))) w'
                 | Raise e => (Raise e, w')
                 end) in
              r = Raise TypeError
              /\ twitter_user (db w) = twitter_user d /\ tweet (db w) = tweet d
              /\ tweet_hashtag (db w) = tweet_hashtag d
              /\ tweet_topic (db w) = tweet_topic d
              /\ sessions w = []
              /\ log w = [Open 0%nat; Rollback 0%nat; Close 0%nat]).
  { intros w1' A B C D [f S] L m k Hm. unfold bind at 1.
    destruct (Hm w1') as [e E]. rewrite E. cbv beta iota.
    destruct (tick_frame w1') as [U2 [T2 [H2 [P2 [S2 [N2 L2]]]]]].
    apply (Hfail (snd (tick w1'))); try congruence.
    right. exists f. congruence. }
  destruct t1.
  - cbv beta iota. rewrite G1. simpl pending. simpl new_objs.
    apply Hnext; try assumption.
    + unfold put_session. simpl. rewrite S1. simpl. eexists. reflexivity.
    + intros w. unfold execute. destruct (tick w) as [t w3].
      destruct t; eexists; reflexivity.
  - cbv beta iota.
    apply (Hfail w1 U1 T1 H1 P1 (or_introl S1) L1 OperationalError).
  - cbv beta iota. rewrite G1. simpl pending. simpl new_objs.
    apply Hnext; try assumption.
    + unfold put_session. simpl. rewrite S1. simpl. eexists. reflexivity.
    + intros w. unfold execute. destruct (tick w) as [t w3].
      destruct t; eexists; reflexivity.
Qed.

Lemma filter_nil_existsb {A} (f : A -> bool) (l : list A) :
  filter f l = [] -> existsb f l = false.
Proof.
  induction l as [|a r IH]; simpl; [reflexivity|].
  destruct (f a); [discriminate | exact IH].
Qed.

Lemma existsb_id_below (l : list Tag) (n : Z) :
  Forall (fun r => tag_id r < n) l -> existsb (fun r => tag_id r =? n) l = false.
Proof.
  induction 1 as [|r l H _ IH]; simpl; [reflexivity|].
  rewrite IH. replace (tag_id r =? n) with false by (symmetry; apply Z.eqb_neq; lia).
  reflexivity.
Qed.

(** X5.  When the INSERT of a new tag goes through and the COMMIT is
    rejected, [insert_if_not_exists] still returns the id the INSERT drew
    ([record_id] is assigned before the commit, and the [except] block
    fails on [result.id] of a lookup that finds nothing): the caller gets
    an id that no stored row carries, and the first session stays open. *)
Theorem get_or_create_returns_uncommitted_id (k : TagKind) (text : string) (d : DB)
    (seed : string -> Z) :
  tags_wf k d ->
  tags_with_text k text d = [] ->
  tags_with_text k (stored_text k text) d = [] ->
  let '(r, w) := Tag_insert_if_not_exists k text (init_world d [Go; Go; Fault] seed) in
  r = Ret (tag_seq k d)
  /\ tags k (db w) = tags k d
  /\ has_tag_id k (tag_seq k d) (db w) = false
  /\ open_ids w = [0%nat]
  /\ log w = [Open 0%nat; Open 1%nat; Close 1%nat].
Proof.
  intros [_ [_ Hlt]] Hmiss Hnew.
  apply filter_nil_existsb in Hnew.
  assert (Hid : has_tag_id k (tag_seq k d) d = false)
    by (apply existsb_id_below; exact Hlt).
  unfold tags_with_text in Hmiss.
  unfold Tag_insert_if_not_exists, TagDAL_find, TagDAL_insert, init_world, bind, attempt,
    create_session, query, tick. simpl. unfold view. simpl. unfold tags_with_text.
  rewrite Hmiss. simpl.
  destruct k; simpl in *.
  - unfold HashtagDAL_insert, insert_tag_row, tick, view. simpl. rewrite Hnew. simpl.
    rewrite Hmiss. repeat split. exact Hid.
  - unfold TopicDAL_insert, insert_tag_row, tick, view. simpl. rewrite Hnew. simpl.
    rewrite Hmiss. repeat split. exact Hid.
Qed.

Lemma get_or_create_returns_uncommitted_id_witness :
  tags_wf KHashtag empty_db
  /\ tags_with_text KHashtag "btc" empty_db = []
  /\ tags_with_text KHashtag (stored_text KHashtag "btc") empty_db = []
  /\ let '(r, w) := Tag_insert_if_not_exists KHashtag "btc"
                   (init_world empty_db [Go; Go; Fault] seed0) in
  r = Ret (tag_seq KHashtag empty_db)
  /\ tags KHashtag (db w) = tags KHashtag empty_db
  /\ has_tag_id KHashtag (tag_seq KHashtag empty_db) (db w) = false
  /\ open_ids w = [0%nat]
  /\ log w = [Open 0%nat; Open 1%nat; Close 1%nat].
Proof.
  assert (H : tags_wf KHashtag empty_db) by (split; [constructor | split; constructor]).
  split; [exact H|]. split; [reflexivity|]. split; [reflexivity|].
  apply (get_or_create_returns_uncommitted_id KHashtag "btc" empty_db seed0).
  - exact H.
  - reflexivity.
  - reflexivity.
Defined.

(** X6.  The get-or-create of a hashtag looks the text up as it is given
    but inserts it with every ['#'] removed.  Called with a text that is
    not stored as given while its stripped form is, it finds nothing, the
    INSERT hits the unique key, the second lookup finds nothing either,
    and the call returns 0 instead of the id of the stored hashtag; the
    store is unchanged and the first session stays open. *)
Theorem hashtag_given_with_hash_sign_returns_zero (text : string) (d : DB)
    (seed : string -> Z) :
  ~ In text (map tag_text (hashtag d)) ->
  In (strip_hash text) (map tag_text (hashtag d)) ->
  let '(r, w) := HashtagBLL_insert_if_not_exists text (init_world d [] seed) in
  r = Ret 0 /\ db w = d /\ open_ids w = [0%nat]
  /\ log w = [Open 0%nat; Open 1%nat; Close 1%nat].
Proof.
  intros Hmiss Hin.
  apply (filter_text_nil (hashtag d)) in Hmiss.
  apply (existsb_text_In (hashtag d)) in Hin.
  unfold HashtagBLL_insert_if_not_exists, Tag_insert_if_not_exists, TagDAL_find,
    TagDAL_insert, HashtagDAL_insert, insert_tag_row, init_world, bind, attempt,
    create_session, query, tick, view. simpl. unfold tags_with_text. simpl.
  rewrite Hmiss. simpl. rewrite Hin. simpl. rewrite Hmiss. simpl.
  repeat split.
Qed.

Lemma hashtag_given_with_hash_sign_returns_zero_witness :
  ~ In "#btc" (map tag_text (hashtag db_one_tweet))
  /\ In (strip_hash "#btc") (map tag_text (hashtag db_one_tweet))
  /\ let '(r, w) := HashtagBLL_insert_if_not_exists "#btc"
                      (init_world db_one_tweet [] seed0) in
     r = Ret 0 /\ db w = db_one_tweet /\ open_ids w = [0%nat]
     /\ log w = [Open 0%nat; Open 1%nat; Close 1%nat].
Proof.
  assert (H1 : ~ In "#btc" (map tag_text (hashtag db_one_tweet)))
    by (simpl; intros [H|[H|[]]]; discriminate).
  assert (H2 : In (strip_hash "#btc") (map tag_text (hashtag db_one_tweet)))
    by (left; reflexivity).
  split; [exact H1|]. split; [exact H2|].
  apply (hashtag_given_with_hash_sign_returns_zero "#btc" db_one_tweet seed0 H1 H2).
Defined.

(* ================================================================== *)
(** * Filtered reads *)
(* ================================================================== *)

Opaque query execute insert_tag_row commit close add_all.

(** The rows of a join of two tables on a condition. *)
Lemma in_join {A B} (f : A -> B -> bool) (la : list A) (lb : list B) (a : A) (b : B) :
  In (a, b) (flat_map (fun x => flat_map (fun y => if f x y then [(x, y)] else []) lb) la)
  <-> In a la /\ In b lb /\ f a b = true.
Proof.
  rewrite in_flat_map. split.
  - intros [x [Hx H]]. apply in_flat_map in H. destruct H as [y [Hy H]].
    destruct (f x y) eqn:E; [|contradiction].
    destruct H as [H|[]]. injection H as -> ->. tauto.
  - intros [Ha [Hb E]]. exists a. split; [exact Ha|]. apply in_flat_map.
    exists b. split; [exact Hb|]. rewrite E. left. reflexivity.
Qed.

Lemma filter_rows_plain (fs : list Pred) (d : DB) :
  existsb on_hashtag fs = false ->
  filter_rows fs d
  = flat_map
      (fun t => flat_map
                  (fun u => if (tw_user_id t =? tu_id u) && holds fs t u None
                            then [(t, u)] else [])
                  (twitter_user d))
      (tweet d).
Proof. intros H. unfold filter_rows. rewrite H. reflexivity. Qed.

Lemma length_flat_map_ext {A B C} (f : A -> list B) (g : A -> list C) (l : list A) :
  (forall a, List.length (f a) = List.length (g a)) ->
  List.length (flat_map f l) = List.length (flat_map g l).
Proof.
  intros H. induction l as [|a r IH]; simpl; [reflexivity|].
  rewrite !length_app, IH, H. reflexivity.
Qed.

Lemma count_rows_plain (fs : list Pred) (d : DB) :
  existsb on_hashtag fs = false ->
  count_rows fs d = Z.of_nat (List.length (filter_rows fs d)).
Proof.
  intros H. rewrite (filter_rows_plain fs d H). unfold count_rows. rewrite H.
  f_equal. apply length_flat_map_ext. intros t. apply length_flat_map_ext. intros u.
  destruct (tw_user_id t =? tu_id u); simpl; [|reflexivity].
  destruct (holds fs t u None); reflexivity.
Qed.

Lemma build_filters_plain (user_id : option Z) (username : option string) (since until : Z)
    (hashtags : option (list string)) (sentiment_score : option Between)
    (language : option string) :
  truthy_list hashtags = false ->
  existsb on_hashtag (build_filters user_id username since until hashtags sentiment_score
                        language) = false.
Proof.
  intros H. unfold build_filters. rewrite H. rewrite !existsb_app.
  destruct (truthy_int user_id), user_id, (truthy_str username), username,
    (negb (since =? datetime_min)), (negb (until =? datetime_min)), sentiment_score,
    (truthy_str language), language; reflexivity.
Qed.

Lemma holds_build_filters (user_id : option Z) (username : option string) (since until : Z)
    (hashtags : option (list string)) (sentiment_score : option Between)
    (language : option string) (t : Tweet) (u : TwitterUser) :
  truthy_list hashtags = false ->
  holds (build_filters user_id username since until hashtags sentiment_score language)
    t u None = true
  <-> criteria_hold user_id username since until sentiment_score language t u.
Proof.
  intros H. unfold holds, build_filters, criteria_hold. rewrite H.
  rewrite !forallb_app, !andb_true_iff.
  assert (P1 : forallb (fun p => eval_pred p t u None)
                 (if truthy_int user_id
                  then match user_id with Some v => [P_user_id_eq v] | None => [] end
                  else []) = true
               <-> (forall v, user_id = Some v -> v <> 0 -> tw_user_id t = v)).
  { destruct user_id as [v|]; simpl; [|split; [discriminate | reflexivity]].
    destruct (v =? 0) eqn:E; simpl.
    - apply Z.eqb_eq in E. split; [|reflexivity]. intros _ v' [= <-] N. contradiction.
    - apply Z.eqb_neq in E. rewrite andb_true_r, Z.eqb_eq. split.
      + intros X v' [= <-] _. exact X.
      + intros X. apply (X v eq_refl E). }
  assert (P2 : forallb (fun p => eval_pred p t u None)
                 (if truthy_str username
                  then match username with Some v => [P_username_eq v] | None => [] end
                  else []) = true
               <-> (forall v, username = Some v -> v <> EmptyString -> tu_username u = v)).
  { destruct username as [[|c s]|]; simpl.
    - split; [|reflexivity]. intros _ v' [= <-] N. contradiction.
    - rewrite andb_true_r, String.eqb_eq. split.
      + intros X v' [= <-] _. exact X.
      + intros X. apply (X _ eq_refl). discriminate.
    - split; [discriminate | reflexivity]. }
  assert (P3 : forallb (fun p => eval_pred p t u None)
                 (if negb (since =? datetime_min) then [P_created_at_ge since] else [])
               = true
               <-> (since <> datetime_min -> since <= tw_created_at t)).
  { destruct (since =? datetime_min) eqn:E; simpl.
    - apply Z.eqb_eq in E. split; [|reflexivity]. intros _ N. contradiction.
    - apply Z.eqb_neq in E. rewrite andb_true_r, Z.leb_le. tauto. }
  assert (P4 : forallb (fun p => eval_pred p t u None)
                 (if negb (until =? datetime_min) then [P_created_at_le until] else [])
               = true
               <-> (until <> datetime_min -> tw_created_at t <= until)).
  { destruct (until =? datetime_min) eqn:E; simpl.
    - apply Z.eqb_eq in E. split; [|reflexivity]. intros _ N. contradiction.
    - apply Z.eqb_neq in E. rewrite andb_true_r, Z.leb_le. tauto. }
  assert (P5 : forallb (fun p => eval_pred p t u None)
                 match sentiment_score with
                 | Some b => [P_sentiment_ge (low b); P_sentiment_le (high b)]
                 | None => []
                 end = true
               <-> (forall b, sentiment_score = Some b ->
                      exists x, tw_sentiment_score t = Some x /\ low b <= x <= high b)).
  { destruct sentiment_score as [b|]; simpl; [|split; [discriminate | reflexivity]].
    rewrite andb_true_r, andb_true_iff.
    destruct (tw_sentiment_score t) as [x|].
    - rewrite !Z.leb_le. split.
      + intros X b' [= <-]. exists x. split; [reflexivity | lia].
      + intros X. destruct (X b eq_refl) as [x' [[= <-] Y]]. lia.
    - split; [intros [X _]; discriminate|].
      intros X. destruct (X b eq_refl) as [x' [Y _]]. discriminate. }
  assert (P6 : forallb (fun p => eval_pred p t u None)
                 (if truthy_str language
                  then match language with Some v => [P_language_eq v] | None => [] end
                  else []) = true
               <-> (forall v, language = Some v -> v <> EmptyString ->
                      tw_language t = Some v)).
  { destruct language as [[|c s]|]; simpl.
    - split; [|reflexivity]. intros _ v' [= <-] N. contradiction.
    - rewrite andb_true_r. destruct (tw_language t) as [x|].
      + rewrite String.eqb_eq. split.
        * intros -> v' [= <-] _. reflexivity.
        * intros X. specialize (X _ eq_refl). assert (N : String c s <> EmptyString)
            by discriminate. specialize (X N). congruence.
      + split; [discriminate|]. intros X.
        assert (N : String c s <> EmptyString) by discriminate.
        specialize (X _ eq_refl N). discriminate.
    - split; [discriminate | reflexivity]. }
  rewrite P1, P2, P3, P4, P5, P6. simpl. tauto.
Qed.

Lemma filter_by_nofault (user_id : option Z) (username : option string) (since until : Z)
    (hashtags : option (list string)) (sentiment_score : option Between)
    (language : option string) (exclude_content : bool) (d : DB) (sc : list Tick)
    (seed : string -> Z) :
  NoFault sc ->
  let d1 := tick_db [(0%nat, empty_session)] d sc in
  TweetBLL_filter_by user_id username since until hashtags sentiment_score language
    exclude_content (init_world d sc seed)
  = (Ret (map (fun tu => {| ft_row := fst tu;
                            ft_content := if exclude_content then None
                                          else Some (tw_content (fst tu));
                            ft_user := snd tu |})
            (filter_rows (build_filters user_id username since until hashtags
                            sentiment_score language) d1)),
     W d1 [] 1%nat [Open 0%nat; Close 0%nat] (tl sc) seed).
Proof.
  intros Hnf d1. unfold TweetBLL_filter_by, TweetDAL_filter, init_world.
  unfold bind at 1. unfold create_session. cbv beta iota zeta.
  simpl db. simpl sessions. simpl next_sid. simpl log. simpl sched. simpl hashseed.
  unfold bind at 1. unfold attempt at 1. rewrite query_nofault by assumption.
  cbv beta iota. unfold bind at 1. rewrite close_head. reflexivity.
Qed.

Lemma count_if_nofault (user_id : option Z) (username : option string) (since until : Z)
    (hashtags : option (list string)) (sentiment_score : option Between)
    (language : option string) (d : DB) (sc : list Tick) (seed : string -> Z) :
  NoFault sc ->
  let d1 := tick_db [(0%nat, empty_session)] d sc in
  TweetBLL_count_if user_id username since until hashtags sentiment_score language
    (init_world d sc seed)
  = (Ret (count_rows (build_filters user_id username since until hashtags
                        sentiment_score language) d1),
     W d1 [] 1%nat [Open 0%nat; Close 0%nat] (tl sc) seed).
Proof.
  intros Hnf d1. unfold TweetBLL_count_if, TweetDAL_count_if, init_world.
  unfold bind at 1. unfold create_session. cbv beta iota zeta.
  simpl db. simpl sessions. simpl next_sid. simpl log. simpl sched. simpl hashseed.
  unfold bind at 1. unfold attempt at 1. rewrite query_nofault by assumption.
  cbv beta iota. unfold bind at 1. rewrite close_head. reflexivity.
Qed.

(** X7.  Without a hashtag criterion, [filter_by] returns exactly the
    tweets, each with its author, that satisfy every criterion supplied: a
    falsy criterion ([None], 0, the empty string) and a bound equal to
    [datetime.min] ask nothing, and a tweet whose sentiment score or
    language is NULL fails a criterion on that column.  A row carries the
    tweet's content, or [None] with [exclude_content=True]. *)
Theorem filter_by_returns_matching_tweets (user_id : option Z) (username : option string)
    (since until : Z) (hashtags : option (list string)) (sentiment_score : option Between)
    (language : option string) (exclude_content : bool) (d : DB) (sc : list Tick)
    (seed : string -> Z) :
  NoFault sc ->
  truthy_list hashtags = false ->
  exists rows,
    fst (TweetBLL_filter_by user_id username since until hashtags sentiment_score language
           exclude_content (init_world d sc seed)) = Ret rows
    /\ (forall t u,
          In (t, u) (map (fun r => (ft_row r, ft_user r)) rows)
          <-> In t (tweet d) /\ In u (twitter_user d) /\ tw_user_id t = tu_id u
              /\ criteria_hold user_id username since until sentiment_score language t u)
    /\ (forall r, In r rows ->
          ft_content r = if exclude_content then None else Some (tw_content (ft_row r))).
Proof.
  intros Hnf Hh. eexists. split; [|split].
  - rewrite filter_by_nofault by assumption. reflexivity.
  - intros t u. rewrite map_map. simpl.
    rewrite (map_ext _ (fun x => x)) by (intros [? ?]; reflexivity). rewrite map_id.
    rewrite filter_rows_plain by (apply build_filters_plain; exact Hh).
    destruct (tick_db_frame [(0%nat, empty_session)] d sc) as [U [T _]].
    rewrite U, T, in_join, andb_true_iff, Z.eqb_eq, holds_build_filters by exact Hh.
    tauto.
  - intros r Hr. apply in_map_iff in Hr. destruct Hr as [[t u] [<- _]]. reflexivity.
Qed.

Lemma filter_by_returns_matching_tweets_witness :
  NoFault [] /\ truthy_list (@None (list string)) = false
  /\ exists rows,
       fst (TweetBLL_filter_by (Some 100) (Some "alice") 0 10 None None None false
              (init_world db_one_tweet [] seed0)) = Ret rows
       /\ (forall t u,
             In (t, u) (map (fun r => (ft_row r, ft_user r)) rows)
             <-> In t (tweet db_one_tweet) /\ In u (twitter_user db_one_tweet)
                 /\ tw_user_id t = tu_id u
                 /\ criteria_hold (Some 100) (Some "alice") 0 10 None None t u)
       /\ (forall r, In r rows ->
             ft_content r = if false then None else Some (tw_content (ft_row r))).
Proof.
  split; [constructor|]. split; [reflexivity|].
  apply (filter_by_returns_matching_tweets (Some 100) (Some "alice") 0 10 None None None
           false db_one_tweet [] seed0); [constructor | reflexivity].
Defined.

(** X8.  Without a hashtag criterion, [count_if] returns the number of
    rows [filter_by] returns for the same criteria. *)
Theorem count_if_counts_filter_by_rows (user_id : option Z) (username : option string)
    (since until : Z) (hashtags : option (list string)) (sentiment_score : option Between)
    (language : option string) (exclude_content : bool) (d : DB) (sc : list Tick)
    (seed : string -> Z) :
  NoFault sc ->
  truthy_list hashtags = false ->
  exists rows,
    fst (TweetBLL_filter_by user_id username since until hashtags sentiment_score language
           exclude_content (init_world d sc seed)) = Ret rows
    /\ fst (TweetBLL_count_if user_id username since until hashtags sentiment_score
              language (init_world d sc seed)) = Ret (Z.of_nat (List.length rows)).
Proof.
  intros Hnf Hh. eexists. split.
  - rewrite filter_by_nofault by assumption. reflexivity.
  - rewrite count_if_nofault by assumption. simpl fst.
    rewrite count_rows_plain by (apply build_filters_plain; exact Hh).
    rewrite length_map. reflexivity.
Qed.

Lemma count_if_counts_filter_by_rows_witness :
  NoFault [] /\ truthy_list (@None (list string)) = false
  /\ exists rows,
       fst (TweetBLL_filter_by (Some 100) None 0 10 None None None true
              (init_world db_one_tweet [] seed0)) = Ret rows
       /\ fst (TweetBLL_count_if (Some 100) None 0 10 None None None
                 (init_world db_one_tweet [] seed0)) = Ret (Z.of_nat (List.length rows)).
Proof.
  split; [constructor|]. split; [reflexivity|].
  apply (count_if_counts_filter_by_rows (Some 100) None 0 10 None None None true
           db_one_tweet [] seed0); [constructor | reflexivity].
Defined.

Lemma holds_no_hashtag (fs : list Pred) (t : Tweet) (u : TwitterUser) (h : option Tag) :
  existsb on_hashtag fs = false -> holds fs t u h = holds fs t u None.
Proof.
  unfold holds. induction fs as [|p fs IH]; simpl; [reflexivity|].
  intros H. apply orb_false_iff in H. destruct H as [Hp Hfs].
  rewrite (IH Hfs). destruct p; try reflexivity. discriminate.
Qed.

Lemma holds_hashtag_app (A B : list Pred) (l : list string) (t : Tweet) (u : TwitterUser)
    (h : Tag) :
  existsb on_hashtag A = false -> existsb on_hashtag B = false ->
  holds (A ++ P_hashtag_in l :: B) t u (Some h)
  = holds (A ++ B) t u None && str_mem (tag_text h) l.
Proof.
  intros HA HB. pose proof (holds_no_hashtag A t u (Some h) HA) as EA.
  pose proof (holds_no_hashtag B t u (Some h) HB) as EB.
  unfold holds in *. rewrite !forallb_app. simpl. rewrite EA, EB.
  generalize (forallb (fun p => eval_pred p t u None) A)
    (forallb (fun p => eval_pred p t u None) B) (str_mem (tag_text h) l).
  intros [] [] []; reflexivity.
Qed.

Lemma length_flat_map_scale {A B C} (f : A -> list B) (g : A -> list C) (k : nat)
    (l : list A) :
  (forall a, List.length (f a) = (List.length (g a) * k)%nat) ->
  List.length (flat_map f l) = (List.length (flat_map g l) * k)%nat.
Proof.
  intros H. induction l as [|a r IH]; simpl; [reflexivity|].
  rewrite !length_app, IH, H. lia.
Qed.

(** X9.  With a hashtag criterion [count_if] does not count the tweets
    that carry one of the hashtags: its SELECT names the hashtag table
    without tying it to the tweet, so the result is the count for the other
    criteria multiplied by the number of stored hashtags in the list,
    whether or not any tweet is linked to them. *)
Theorem count_if_with_hashtags_is_a_product (user_id : option Z) (username : option string)
    (since until : Z) (x : string) (l : list string) (sentiment_score : option Between)
    (language : option string) (d : DB) (sc : list Tick) (seed : string -> Z) :
  NoFault sc ->
  let '(r, w) := TweetBLL_count_if user_id username since until (Some (x :: l))
                   sentiment_score language (init_world d sc seed) in
  exists n,
    fst (TweetBLL_count_if user_id username since until None sentiment_score language
           (init_world d sc seed)) = Ret n
    /\ r = Ret (n * Z.of_nat (List.length
                                (filter (fun h => str_mem (tag_text h) (x :: l))
                                   (hashtag (db w))))).
Proof.
  intros Hnf. rewrite !count_if_nofault by assumption. simpl db. simpl fst.
  eexists. split; [reflexivity|].
  set (d1 := tick_db [(0%nat, empty_session)] d sc).
  set (A := (if truthy_int user_id
             then match user_id with Some v => [P_user_id_eq v] | None => [] end else [])
            ++ (if truthy_str username
                then match username with Some v => [P_username_eq v] | None => [] end
                else [])
            ++ (if negb (since =? datetime_min) then [P_created_at_ge since] else [])
            ++ (if negb (until =? datetime_min) then [P_created_at_le until] else [])).
  set (B := match sentiment_score with
            | Some b => [P_sentiment_ge (low b); P_sentiment_le (high b)]
            | None => []
            end
            ++ (if truthy_str language
                then match language with Some v => [P_language_eq v] | None => [] end
                else [])).
  assert (HA : existsb on_hashtag A = false).
  { unfold A. rewrite !existsb_app.
    destruct (truthy_int user_id), user_id, (truthy_str username), username,
      (negb (since =? datetime_min)), (negb (until =? datetime_min)); reflexivity. }
  assert (HB : existsb on_hashtag B = false).
  { unfold B. rewrite !existsb_app.
    destruct sentiment_score, (truthy_str language), language; reflexivity. }
  assert (E1 : build_filters user_id username since until (Some (x :: l)) sentiment_score
                 language = A ++ P_hashtag_in (x :: l) :: B).
  { unfold build_filters, A, B. simpl truthy_list. cbv iota.
    rewrite <- !app_assoc. reflexivity. }
  assert (E0 : build_filters user_id username since until None sentiment_score language
               = A ++ B).
  { unfold build_filters, A, B. simpl truthy_list. cbv iota.
    rewrite <- !app_assoc. reflexivity. }
  rewrite E1, E0. f_equal. unfold count_rows.
  assert (X1 : existsb on_hashtag (A ++ P_hashtag_in (x :: l) :: B) = true).
  { rewrite existsb_app. simpl. apply orb_true_r. }
  assert (X0 : existsb on_hashtag (A ++ B) = false).
  { rewrite existsb_app, HA, HB. reflexivity. }
  rewrite X1, X0, <- Nat2Z.inj_mul. f_equal.
  apply length_flat_map_scale. intros t. apply length_flat_map_scale. intros u.
  destruct (tw_user_id t =? tu_id u); [|reflexivity].
  rewrite (filter_ext _ (fun h => holds (A ++ B) t u None && str_mem (tag_text h) (x :: l)))
    by (intros h; apply holds_hashtag_app; assumption).
  destruct (holds (A ++ B) t u None); simpl.
  - lia.
  - induction (hashtag d1) as [|h hs IH]; [reflexivity | exact IH].
Qed.

Lemma count_if_with_hashtags_is_a_product_witness :
  NoFault []
  /\ let '(r, w) := TweetBLL_count_if None None 0 0 (Some ["eth"; "doge"]) None None
                      (init_world db_one_tweet [] seed0) in
     exists n,
       fst (TweetBLL_count_if None None 0 0 None None None
              (init_world db_one_tweet [] seed0)) = Ret n
       /\ r = Ret (n * Z.of_nat (List.length
                                   (filter (fun h => str_mem (tag_text h) ["eth"; "doge"])
                                      (hashtag (db w))))).
Proof.
  split; [constructor|].
  apply (count_if_with_hashtags_is_a_product None None 0 0 "eth" ["doge"] None None
           db_one_tweet [] seed0). constructor.
Defined.

(* ================================================================== *)
(** * Deletes *)
(* ================================================================== *)

Lemma count_if_nofault_at (user_id : option Z) (username : option string) (since until : Z)
    (hashtags : option (list string)) (sentiment_score : option Between)
    (language : option string) (d : DB) (ss : list (nat * Session)) (n : nat)
    (lg : list Event) (sc : list Tick) (seed : string -> Z) :
  NoFault sc ->
  let d1 := tick_db ((n, empty_session) :: ss) d sc in
  TweetBLL_count_if user_id username since until hashtags sentiment_score language
    (W d ss n lg sc seed)
  = (Ret (count_rows (build_filters user_id username since until hashtags
                        sentiment_score language) d1),
     W d1 ss (S n) ((lg ++ [Open n]) ++ [Close n]) (tl sc) seed).
Proof.
  intros Hnf d1. unfold TweetBLL_count_if, TweetDAL_count_if.
  unfold bind at 1. unfold create_session. cbv beta iota zeta.
  simpl db. simpl sessions. simpl next_sid. simpl log. simpl sched. simpl hashseed.
  unfold bind at 1. unfold attempt at 1. rewrite query_nofault by assumption.
  cbv beta iota. unfold bind at 1. rewrite close_head. reflexivity.
Qed.

Lemma find_all_nofault_at (E : Entity) (d : DB) (ss : list (nat * Session)) (n : nat)
    (lg : list Event) (sc : list Tick) (seed : string -> Z) :
  NoFault sc ->
  let d1 := tick_db ((n, empty_session) :: ss) d sc in
  BaseBLL_find_all E (W d ss n lg sc seed)
  = (Ret (all_rows E d1), W d1 ss (S n) ((lg ++ [Open n]) ++ [Close n]) (tl sc) seed).
Proof.
  intros Hnf d1. unfold BaseBLL_find_all, BaseDAL_find_all.
  unfold bind at 1. unfold create_session. cbv beta iota zeta.
  simpl db. simpl sessions. simpl next_sid. simpl log. simpl sched. simpl hashseed.
  unfold bind at 1. unfold attempt at 1. rewrite query_nofault by assumption.
  cbv beta iota. unfold bind at 1. rewrite close_head. reflexivity.
Qed.


Lemma filter_all {A} (f : A -> bool) (l : list A) :
  (forall a, In a l -> f a = true) -> filter f l = l.
Proof.
  induction l as [|a r IH]; simpl; intros H; [reflexivity|].
  rewrite (H a) by (left; reflexivity). f_equal. apply IH. intros b Hb. apply H.
  right. exact Hb.
Qed.

Lemma filter_none {A} (f : A -> bool) (l : list A) :
  (forall a, In a l -> f a = false) -> filter f l = [].
Proof.
  induction l as [|a r IH]; simpl; intros H; [reflexivity|].
  rewrite (H a) by (left; reflexivity). apply IH. intros b Hb. apply H.
  right. exact Hb.
Qed.

Lemma delete_all_nofault (d : DB) (sc : list Tick) (seed : string -> Z) :
  NoFault sc ->
  exists d' lg',
    TweetBLL_delete_all (init_world d sc seed)
    = (Ret (Some (Z.of_nat (List.length (tweet d)))),
       W d' [] 1%nat lg' (tl (tl (tl sc))) seed)
    /\ tweet d' = []
    /\ twitter_user d' = twitter_user d
    /\ tweet_hashtag d'
       = filter (fun l => negb (has_tweet (fst l) d)) (tweet_hashtag d)
    /\ tweet_topic d'
       = filter (fun l => negb (has_tweet (fst (fst l)) d)) (tweet_topic d)
    /\ (forall r, In r (topic d) -> In r (topic d'))
    /\ (sc = [] ->
        (forall l, In l (tweet_hashtag d) -> has_tweet (fst l) d = true) ->
        hashtag d' = []).
Proof.
  intros Hnf. unfold TweetBLL_delete_all, init_world, BaseDAL_delete_all.
  unfold bind at 1. unfold create_session. cbv beta iota zeta.
  simpl db. simpl sessions. simpl next_sid. simpl log. simpl sched. simpl hashseed.
  unfold bind at 1. unfold attempt at 1. unfold bind at 1. unfold bind at 1.
  unfold attempt at 1. rewrite execute_nofault by assumption.
  simpl pending. simpl new_objs. simpl apply_writes.
  unfold delete_all_stmt at 1. cbv beta iota.
  unfold ret at 1. unfold bind at 1. unfold bind at 1. unfold attempt at 1.
  rewrite execute_nofault by (apply NoFault_tl; exact Hnf).
  simpl pending. simpl new_objs. simpl app.
  set (d1 := tick_db [(0%nat, empty_session)] d sc).
  set (f1 := fun d' : DB =>
               with_tweet []
                 (with_tweet_hashtag
                    (filter (fun l => negb (has_tweet (fst l) d')) (tweet_hashtag d'))
                    (with_tweet_topic
                       (filter (fun l => negb (has_tweet (fst (fst l)) d')) (tweet_topic d'))
                       d'))).
  set (d2 := tick_db [(0%nat, {| pending := [f1]; new_objs := [] |})] d1 (tl sc)).
  destruct (tick_db_frame [(0%nat, empty_session)] d sc) as [U1 [T1 [H1 P1]]].
  destruct (tick_db_frame [(0%nat, {| pending := [f1]; new_objs := [] |})] d1 (tl sc))
    as [U2 [T2 [H2 P2]]].
  fold d1 in U1, T1, H1, P1. fold d2 in U2, T2, H2, P2.
  assert (Ht : forall x, has_tweet x d2 = has_tweet x d)
    by (intros x; unfold has_tweet; rewrite T2, T1; reflexivity).
  assert (Len : List.length (tweet d1) = List.length (tweet d)) by (rewrite T1; reflexivity).
  rewrite Len.
  assert (Fin : forall (fs : list (DB -> DB)) (lg : list Event) (r : Res (option Z)),
            (forall x, twitter_user (apply_writes fs x) = twitter_user x
                       /\ tweet (apply_writes fs x) = []
                       /\ tweet_hashtag (apply_writes fs x)
                          = filter (fun l => negb (has_tweet (fst l) x)) (tweet_hashtag x)
                       /\ tweet_topic (apply_writes fs x)
                          = filter (fun l => negb (has_tweet (fst (fst l)) x))
                              (tweet_topic x)
                       /\ topic (apply_writes fs x) = topic x) ->
            let d3 := tick_db [(0%nat, {| pending := fs; new_objs := [] |})] d2
                        (tl (tl sc)) in
            twitter_user (apply_writes fs d3) = twitter_user d
            /\ tweet (apply_writes fs d3) = []
            /\ tweet_hashtag (apply_writes fs d3)
               = filter (fun l => negb (has_tweet (fst l) d)) (tweet_hashtag d)
            /\ tweet_topic (apply_writes fs d3)
               = filter (fun l => negb (has_tweet (fst (fst l)) d)) (tweet_topic d)
            /\ (forall r, In r (topic d) -> In r (topic (apply_writes fs d3)))).
  { intros fs lg _ Hfs d3.
    destruct (tick_db_frame [(0%nat, {| pending := fs; new_objs := [] |})] d2 (tl (tl sc)))
      as [U3 [T3 [H3 P3]]].
    fold d3 in U3, T3, H3, P3.
    destruct (Hfs d3) as [A [B [C [D E]]]].
    assert (Ht3 : forall x, has_tweet x d3 = has_tweet x d)
      by (intros x; unfold has_tweet; rewrite T3, T2, T1; reflexivity).
    split; [rewrite A, U3, U2, U1; reflexivity|]. split; [exact B|].
    split; [rewrite C, H3, H2, H1; apply filter_ext; intros l; rewrite Ht3; reflexivity|].
    split; [rewrite D, P3, P2, P1; apply filter_ext; intros l; rewrite Ht3; reflexivity|].
    intros r Hr. rewrite E.
    apply (tags_grow_In d d3 KTopic); [|exact Hr].
    apply (tags_grow_trans _ d1); [apply tick_db_grow|].
    apply (tags_grow_trans _ d2); apply tick_db_grow. }
  match goal with
  | |- context [delete_all_stmt EHashtag ?v] =>
      destruct (delete_all_stmt EHashtag v) as [[a f2]|e] eqn:Estmt
  end.
  - cbv beta iota. unfold ret at 1. unfold bind at 1.
    rewrite commit_nofault by (apply NoFault_tl, NoFault_tl; exact Hnf).
    cbv beta iota. unfold ret, bind. rewrite close_head.
    do 2 eexists. split; [reflexivity|].
    unfold delete_all_stmt in Estmt.
    destruct (existsb _ _) eqn:Eex in Estmt; [discriminate|].
    injection Estmt as _ <-.
    destruct (Fin [f1; fun d' => with_tags KHashtag [] d'] [] (Ret None))
      as [A [B [C [D E]]]].
    { intros x. simpl. repeat split. }
    split; [exact B|]. split; [exact A|]. split; [exact C|]. split; [exact D|].
    split; [exact E|]. intros _ _. reflexivity.
  - cbv beta iota. unfold ret at 1. unfold bind at 1.
    rewrite commit_nofault by (apply NoFault_tl, NoFault_tl; exact Hnf).
    cbv beta iota. unfold ret, bind. rewrite close_head.
    do 2 eexists. split; [reflexivity|].
    destruct (Fin [f1] [] (Ret None)) as [A [B [C [D E]]]].
    { intros x. simpl. repeat split. }
    split; [exact B|]. split; [exact A|]. split; [exact C|]. split; [exact D|].
    split; [exact E|]. intros -> Hl. exfalso.
    unfold delete_all_stmt in Estmt.
    destruct (existsb _ _) eqn:Eex in Estmt; [|discriminate].
    apply existsb_exists in Eex. destruct Eex as [l [Hin _]].
    unfold f1 in Hin. simpl in Hin. apply filter_In in Hin. destruct Hin as [Hin Hneg].
    rewrite H2, H1 in Hin. rewrite Ht, (Hl l Hin) in Hneg. discriminate.
Qed.

(** X10.  When the store rejects nothing, [TweetBLL.delete_all] returns the
    number of tweets, leaves no tweet and (by the cascade) no link row of a
    stored tweet, and touches neither the authors nor the topics.  A
    [count_if] that follows returns 0 for any criteria and [find_all]
    returns no tweet.  With no concurrent writer and every hashtag link
    pointing to a stored tweet, the hashtag table is empty afterwards. *)
Theorem delete_all_leaves_no_tweet (d : DB) (sc : list Tick) (seed : string -> Z) :
  NoFault sc ->
  let '(r, w) := TweetBLL_delete_all (init_world d sc seed) in
  r = Ret (Some (Z.of_nat (List.length (tweet d))))
  /\ tweet (db w) = []
  /\ twitter_user (db w) = twitter_user d
  /\ tweet_hashtag (db w)
     = filter (fun l => negb (has_tweet (fst l) d)) (tweet_hashtag d)
  /\ tweet_topic (db w)
     = filter (fun l => negb (has_tweet (fst (fst l)) d)) (tweet_topic d)
  /\ (forall r, In r (topic d) -> In r (topic (db w)))
  /\ (sc = [] ->
      (forall l, In l (tweet_hashtag d) -> has_tweet (fst l) d = true) ->
      hashtag (db w) = [])
  /\ (forall user_id username since until hashtags sentiment_score language,
        fst (TweetBLL_count_if user_id username since until hashtags sentiment_score
               language w) = Ret 0)
  /\ fst (BaseBLL_find_all ETweet w) = Ret [].
Proof.
  intros Hnf.
  destruct (delete_all_nofault d sc seed Hnf) as [d' [lg' [E [T [U [H [P [Tp Hh]]]]]]]].
  rewrite E. cbv beta iota. split; [reflexivity|]. simpl db.
  assert (Hnf3 : NoFault (tl (tl (tl sc)))) by (do 3 apply NoFault_tl; exact Hnf).
  repeat (split; [assumption|]). split.
  - intros user_id username since until hashtags sentiment_score language.
    rewrite count_if_nofault_at by exact Hnf3. simpl fst. unfold count_rows.
    rewrite (proj1 (proj2 (tick_db_frame _ _ _))), T. reflexivity.
  - rewrite find_all_nofault_at by exact Hnf3. simpl fst. unfold all_rows.
    rewrite (proj1 (proj2 (tick_db_frame _ _ _))), T. reflexivity.
Qed.

Lemma delete_all_leaves_no_tweet_witness :
  NoFault []
  /\ let '(r, w) := TweetBLL_delete_all (init_world db_one_tweet [] seed0) in
     r = Ret (Some (Z.of_nat (List.length (tweet db_one_tweet))))
     /\ tweet (db w) = []
     /\ twitter_user (db w) = twitter_user db_one_tweet
     /\ tweet_hashtag (db w)
        = filter (fun l => negb (has_tweet (fst l) db_one_tweet))
            (tweet_hashtag db_one_tweet)
     /\ tweet_topic (db w)
        = filter (fun l => negb (has_tweet (fst (fst l)) db_one_tweet))
            (tweet_topic db_one_tweet)
     /\ (forall r, In r (topic db_one_tweet) -> In r (topic (db w)))
     /\ (@nil Tick = [] ->
         (forall l, In l (tweet_hashtag db_one_tweet) ->
                    has_tweet (fst l) db_one_tweet = true) ->
         hashtag (db w) = [])
     /\ (forall user_id username since until hashtags sentiment_score language,
           fst (TweetBLL_count_if user_id username since until hashtags sentiment_score
                  language w) = Ret 0)
     /\ fst (BaseBLL_find_all ETweet w) = Ret [].
Proof.
  split; [constructor|].
  apply (delete_all_leaves_no_tweet db_one_tweet [] seed0). constructor.
Defined.

Lemma find_tweet_filter_out (id id' : Z) (l : list Tweet) :
  find (fun t => tw_id t =? id') (filter (fun t => negb (tw_id t =? id)) l)
  = if id' =? id then None else find (fun t => tw_id t =? id') l.
Proof.
  induction l as [|t r IH]; simpl; [destruct (id' =? id); reflexivity|].
  destruct (tw_id t =? id) eqn:E1; simpl.
  - rewrite IH. destruct (id' =? id) eqn:E2; [reflexivity|].
    apply Z.eqb_eq in E1. apply Z.eqb_neq in E2.
    replace (tw_id t =? id') with false by (symmetry; apply Z.eqb_neq; lia).
    reflexivity.
  - destruct (tw_id t =? id') eqn:E3.
    + apply Z.eqb_eq in E3. apply Z.eqb_neq in E1.
      replace (id' =? id) with false by (symmetry; apply Z.eqb_neq; lia). reflexivity.
    + exact IH.
Qed.

Lemma find_none_filter {A} (f : A -> bool) (l : list A) :
  find f l = None <-> filter f l = [].
Proof.
  induction l as [|a r IH]; simpl; [tauto|].
  destruct (f a); [split; discriminate | exact IH].
Qed.

Lemma filter_negb_all {A} (f : A -> bool) (l : list A) :
  filter f l = [] -> filter (fun a => negb (f a)) l = l.
Proof.
  induction l as [|a r IH]; simpl; [reflexivity|].
  destruct (f a); simpl; [discriminate|]. intros H. f_equal. exact (IH H).
Qed.

Lemma linked_hashtags_none (id : Z) (d : DB) :
  filter (fun l => fst l =? id) (tweet_hashtag d) = [] -> linked_hashtags id d = [].
Proof.
  unfold linked_hashtags. induction (tweet_hashtag d) as [|l r IH]; simpl; [reflexivity|].
  destruct (fst l =? id); [discriminate|]. exact IH.
Qed.

Lemma filter_filter_negb {A} (f : A -> bool) (l : list A) :
  filter f (filter (fun a => negb (f a)) l) = [].
Proof.
  induction l as [|a r IH]; simpl; [reflexivity|].
  destruct (f a) eqn:E; simpl; [exact IH|]. rewrite E. exact IH.
Qed.

(** X11.  When the store rejects nothing, [delete] of a tweet id removes
    that tweet together with its hashtag and topic links (the cascade of
    the foreign keys) and nothing else: every other tweet and every author
    stay as they were.  It returns 0, with the tables unchanged, when no
    tweet has the id, and at least 1 otherwise. *)
Theorem delete_tweet_removes_its_links (id : Z) (d : DB) (sc : list Tick)
    (seed : string -> Z) :
  NoFault sc ->
  let '(r, w) := BaseBLL_delete ETweet id (init_world d sc seed) in
  find_tweet id (db w) = None
  /\ linked_hashtags id (db w) = []
  /\ tweet_hashtag (db w) = filter (fun l => negb (fst l =? id)) (tweet_hashtag d)
  /\ tweet_topic (db w) = filter (fun l => negb (fst (fst l) =? id)) (tweet_topic d)
  /\ (forall id', id' <> id -> find_tweet id' (db w) = find_tweet id' d)
  /\ twitter_user (db w) = twitter_user d
  /\ (find_tweet id d = None -> r = Ret 0 /\ tweet (db w) = tweet d)
  /\ (find_tweet id d <> None -> exists n, r = Ret n /\ 1 <= n)
  /\ sessions w = [].
Proof.
  intros Hnf. unfold BaseBLL_delete, BaseDAL_delete, init_world.
  unfold bind at 1. unfold create_session. cbv beta iota zeta.
  simpl db. simpl sessions. simpl next_sid. simpl log. simpl sched. simpl hashseed.
  unfold bind at 1. unfold attempt at 1. unfold bind at 1. unfold attempt at 1.
  rewrite execute_nofault by assumption.
  simpl pending. simpl new_objs. simpl apply_writes. unfold delete_stmt at 1.
  cbv beta iota. unfold ret at 1. unfold bind at 1. unfold attempt at 1.
  simpl app. rewrite commit_nofault by (apply NoFault_tl; exact Hnf).
  cbv beta iota. simpl is_ret. cbv iota. unfold ret, bind. rewrite close_head.
  simpl apply_writes.
  set (d1 := tick_db [(0%nat, empty_session)] d sc).
  match goal with
  | |- context [tick_db ?ss d1 (tl sc)] => set (d2 := tick_db ss d1 (tl sc))
  end.
  destruct (tick_db_frame [(0%nat, empty_session)] d sc) as [U1 [T1 [H1 P1]]].
  fold d1 in U1, T1, H1, P1.
  assert (F2 : twitter_user d2 = twitter_user d1 /\ tweet d2 = tweet d1
               /\ tweet_hashtag d2 = tweet_hashtag d1 /\ tweet_topic d2 = tweet_topic d1)
    by apply tick_db_frame.
  destruct F2 as [U2 [T2 [H2 P2]]].
  simpl db. simpl tweet. simpl tweet_hashtag. simpl tweet_topic. simpl twitter_user.
  simpl sessions.
  unfold find_tweet, with_tweet, with_tweet_hashtag, with_tweet_topic. simpl.
  rewrite T2, T1, H2, H1, P2, P1, U2, U1.
  split; [rewrite find_tweet_filter_out, Z.eqb_refl; reflexivity|].
  split.
  { apply linked_hashtags_none. simpl. apply filter_filter_negb. }
  split; [reflexivity|]. split; [reflexivity|].
  split.
  { intros id' N. rewrite find_tweet_filter_out.
    replace (id' =? id) with false by (symmetry; apply Z.eqb_neq; exact N). reflexivity. }
  split; [reflexivity|]. split; [|split; [|reflexivity]].
  - intros Hnone. apply find_none_filter in Hnone. rewrite Hnone. split; [reflexivity|].
    apply filter_negb_all. exact Hnone.
  - intros Hsome. eexists. split; [reflexivity|].
    destruct (filter (fun t => tw_id t =? id) (tweet d)) eqn:E.
    + exfalso. apply Hsome. apply find_none_filter. exact E.
    + simpl List.length. lia.
Qed.

Lemma delete_tweet_removes_its_links_witness :
  NoFault []
  /\ let '(r, w) := BaseBLL_delete ETweet 1 (init_world db_one_tweet [] seed0) in
     find_tweet 1 (db w) = None
     /\ linked_hashtags 1 (db w) = []
     /\ tweet_hashtag (db w)
        = filter (fun l => negb (fst l =? 1)) (tweet_hashtag db_one_tweet)
     /\ tweet_topic (db w)
        = filter (fun l => negb (fst (fst l) =? 1)) (tweet_topic db_one_tweet)
     /\ (forall id', id' <> 1 -> find_tweet id' (db w) = find_tweet id' db_one_tweet)
     /\ twitter_user (db w) = twitter_user db_one_tweet
     /\ (find_tweet 1 db_one_tweet = None -> r = Ret 0 /\ tweet (db w) = tweet db_one_tweet)
     /\ (find_tweet 1 db_one_tweet <> None -> exists n, r = Ret n /\ 1 <= n)
     /\ sessions w = [].
Proof.
  split; [constructor|].
  apply (delete_tweet_removes_its_links 1 db_one_tweet [] seed0). constructor.
Defined.

(** X12.  A row that is still referenced is never deleted: [delete] of an
    author who has a tweet, or of a hashtag linked to a tweet, is refused
    by the foreign key, the transaction is rolled back, and the call raises
    [UnboundLocalError] (it does not return 0) with the session closed. *)
Theorem delete_of_referenced_row_raises (uid hid : Z) (d : DB) (sc : list Tick)
    (seed : string -> Z) :
  NoFault sc ->
  has_user uid d = true ->
  existsb (fun t => tw_user_id t =? uid) (tweet d) = true ->
  has_tag_id KHashtag hid d = true ->
  existsb (fun l => snd l =? hid) (tweet_hashtag d) = true ->
  (let '(r, w) := BaseBLL_delete ETwitterUser uid (init_world d sc seed) in
   r = Raise UnboundLocalError
   /\ twitter_user (db w) = twitter_user d /\ tweet (db w) = tweet d
   /\ sessions w = []
   /\ log w = [Open 0%nat; Rollback 0%nat; Close 0%nat])
  /\ (let '(r, w) := BaseBLL_delete EHashtag hid (init_world d sc seed) in
      r = Raise UnboundLocalError
      /\ (forall x, In x (hashtag d) -> In x (hashtag (db w)))
      /\ tweet_hashtag (db w) = tweet_hashtag d
      /\ sessions w = []
      /\ log w = [Open 0%nat; Rollback 0%nat; Close 0%nat]).
Proof.
  intros Hnf Hu Ht Hh Hl.
  destruct (tick_db_frame [(0%nat, empty_session)] d sc) as [U1 [T1 [H1 P1]]].
  pose proof (tick_db_grow [(0%nat, empty_session)] d sc) as G1.
  split.
  - unfold BaseBLL_delete, BaseDAL_delete, init_world.
    unfold bind at 1. unfold create_session. cbv beta iota zeta.
    simpl db. simpl sessions. simpl next_sid. simpl log. simpl sched. simpl hashseed.
    unfold bind at 1. unfold attempt at 1. unfold bind at 1. unfold attempt at 1.
    rewrite execute_nofault by assumption.
    simpl pending. simpl apply_writes. unfold delete_stmt at 1.
    unfold has_user. rewrite T1, U1. unfold has_user in Hu. rewrite Ht, Hu.
    cbv beta iota. simpl andb. cbv iota. unfold raise at 1. cbv beta iota.
    unfold ret at 1. unfold bind at 1. cbv beta iota. simpl is_ret. cbv iota.
    unfold bind at 1. unfold rollback. rewrite put_session_head.
    unfold bind, log_event. simpl. rewrite close_head. unfold raise.
    simpl. repeat split; assumption.
  - unfold BaseBLL_delete, BaseDAL_delete, init_world.
    unfold bind at 1. unfold create_session. cbv beta iota zeta.
    simpl db. simpl sessions. simpl next_sid. simpl log. simpl sched. simpl hashseed.
    unfold bind at 1. unfold attempt at 1. unfold bind at 1. unfold attempt at 1.
    rewrite execute_nofault by assumption.
    simpl pending. simpl apply_writes. unfold delete_stmt at 1.
    rewrite H1, Hl, (has_tag_id_grow d _ KHashtag hid G1 Hh).
    cbv beta iota. simpl andb. cbv iota. unfold raise at 1. cbv beta iota.
    unfold ret at 1. unfold bind at 1. cbv beta iota. simpl is_ret. cbv iota.
    unfold bind at 1. unfold rollback. rewrite put_session_head.
    unfold bind, log_event. simpl. rewrite close_head. unfold raise.
    simpl. split; [reflexivity|]. split; [|repeat split; assumption].
    intros x Hx. exact (tags_grow_In d _ KHashtag x G1 Hx).
Qed.

Lemma delete_of_referenced_row_raises_witness :
  NoFault []
  /\ has_user 100 db_one_tweet = true
  /\ existsb (fun t => tw_user_id t =? 100) (tweet db_one_tweet) = true
  /\ has_tag_id KHashtag 2 db_one_tweet = true
  /\ existsb (fun l => snd l =? 2) (tweet_hashtag db_one_tweet) = true
  /\ (let '(r, w) := BaseBLL_delete ETwitterUser 100 (init_world db_one_tweet [] seed0) in
      r = Raise UnboundLocalError
      /\ twitter_user (db w) = twitter_user db_one_tweet
      /\ tweet (db w) = tweet db_one_tweet
      /\ sessions w = []
      /\ log w = [Open 0%nat; Rollback 0%nat; Close 0%nat])
  /\ (let '(r, w) := BaseBLL_delete EHashtag 2 (init_world db_one_tweet [] seed0) in
      r = Raise UnboundLocalError
      /\ (forall x, In x (hashtag db_one_tweet) -> In x (hashtag (db w)))
      /\ tweet_hashtag (db w) = tweet_hashtag db_one_tweet
      /\ sessions w = []
      /\ log w = [Open 0%nat; Rollback 0%nat; Close 0%nat]).
Proof.
  split; [constructor|]. do 4 (split; [reflexivity|]).
  apply (delete_of_referenced_row_raises 100 2 db_one_tweet [] seed0);
    [constructor | reflexivity | reflexivity | reflexivity | reflexivity].
Defined.

(* ================================================================== *)
(** * Author upsert *)
(* ================================================================== *)

Lemma TwitterUserBLL_upsert_nofault_at (id : Z) (un dn : string) (ts : Z) (d : DB)
    (ss : list (nat * Session)) (n : nat) (lg : list Event) (sc : list Tick)
    (seed : string -> Z) :
  NoFault sc ->
  exists d' lg',
    TwitterUserBLL_upsert id un dn ts (W d ss n lg sc seed)
    = (Ret (match find_user id d with
            | Some old => if tu_last_updated old <? ts then 2 else 1
            | None => 1
            end),
       W d' ss (S n) lg' (tl (tl sc)) seed)
    /\ twitter_user d' = upsert_user_rows id un dn ts (twitter_user d)
    /\ tweet d' = tweet d /\ tweet_hashtag d' = tweet_hashtag d
    /\ tweet_topic d' = tweet_topic d.
Proof.
  intros Hnf. unfold TwitterUserBLL_upsert.
  unfold bind at 1. unfold create_session. cbv beta iota zeta.
  simpl db. simpl sessions. simpl next_sid. simpl log. simpl sched. simpl hashseed.
  unfold bind at 1. unfold attempt at 1. unfold bind at 1.
  unfold TwitterUserDAL_upsert. rewrite execute_nofault by assumption.
  cbv beta iota zeta. simpl pending. simpl new_objs. simpl app. simpl apply_writes.
  unfold bind at 1. rewrite commit_nofault by (apply NoFault_tl; exact Hnf).
  cbv beta iota. unfold ret at 1. unfold bind at 1. unfold ret at 1.
  unfold bind at 1. rewrite close_head. cbv beta iota. unfold ret.
  simpl apply_writes.
  match goal with
  | |- context [find_user id (tick_db ?s d sc)] =>
      replace (find_user id (tick_db s d sc)) with (find_user id d)
        by (unfold find_user; rewrite (proj1 (tick_db_frame s d sc)); reflexivity)
  end.
  do 2 eexists. split; [reflexivity|].
  simpl.
  match goal with
  | |- context [tick_db ?s2 (tick_db ?s1 d sc) (tl sc)] =>
      destruct (tick_db_frame s1 d sc) as [U1 [T1 [H1 P1]]];
      destruct (tick_db_frame s2 (tick_db s1 d sc) (tl sc)) as [U2 [T2 [H2 P2]]]
  end.
  rewrite U2, U1, T2, T1, H2, H1, P2, P1. repeat split.
Qed.

Lemma find_upsert_user_other (id id' : Z) (un dn : string) (ts : Z)
    (l : list TwitterUser) :
  id' <> id ->
  find (fun u => tu_id u =? id') (upsert_user_rows id un dn ts l)
  = find (fun u => tu_id u =? id') l.
Proof.
  intros N. unfold upsert_user_rows.
  destruct (existsb (fun u => tu_id u =? id) l).
  - induction l as [|a l IH]; simpl; [reflexivity|].
    destruct (tu_id a =? id) eqn:E; simpl.
    + apply Z.eqb_eq in E.
      replace (tu_id a =? id') with false by (symmetry; apply Z.eqb_neq; lia).
      exact IH.
    + destruct (tu_id a =? id'); [reflexivity | exact IH].
  - induction l as [|a l IH]; simpl.
    + replace (id =? id') with false by (symmetry; apply Z.eqb_neq; lia). reflexivity.
    + destruct (tu_id a =? id'); [reflexivity | exact IH].
Qed.

Lemma find_upsert_user_new (id : Z) (un dn : string) (ts : Z) (l : list TwitterUser) :
  find (fun u => tu_id u =? id) l = None ->
  find (fun u => tu_id u =? id) (upsert_user_rows id un dn ts l)
  = Some {| tu_id := id; tu_username := un; tu_display_name := dn;
            tu_last_updated := ts |}.
Proof.
  intros H. unfold upsert_user_rows.
  assert (E : existsb (fun u => tu_id u =? id) l = false).
  { apply not_true_is_false. intros X. apply existsb_exists in X.
    destruct X as [u [Hin Hu]]. apply (find_none _ _ H) in Hin. congruence. }
  rewrite E. clear E. induction l as [|a l IH]; simpl in *.
  - rewrite Z.eqb_refl. reflexivity.
  - destruct (tu_id a =? id); [discriminate | exact (IH H)].
Qed.

Lemma user_on_duplicate_again (u : TwitterUser) (un dn : string) (ts : Z) :
  user_on_duplicate (user_on_duplicate u un dn ts) un dn ts = user_on_duplicate u un dn ts.
Proof.
  unfold user_on_duplicate. simpl.
  destruct (tu_last_updated u <? ts) eqn:E; simpl.
  - rewrite Z.ltb_irrefl. reflexivity.
  - rewrite E. reflexivity.
Qed.

Lemma map_if_absent {A} (f : A -> bool) (g : A -> A) (l : list A) :
  existsb f l = false -> map (fun a => if f a then g a else a) l = l.
Proof.
  induction l as [|a l IH]; simpl; [reflexivity|].
  destruct (f a); simpl; [discriminate|]. intros H. f_equal. exact (IH H).
Qed.

Lemma upsert_user_rows_again (id : Z) (un dn : string) (ts : Z) (l : list TwitterUser) :
  upsert_user_rows id un dn ts (upsert_user_rows id un dn ts l)
  = upsert_user_rows id un dn ts l.
Proof.
  unfold upsert_user_rows at 1. rewrite has_upsert_user.
  unfold upsert_user_rows. destruct (existsb (fun u => tu_id u =? id) l) eqn:Ex.
  - rewrite map_map. apply map_ext. intros u.
    destruct (tu_id u =? id) eqn:E.
    + assert (E' : (tu_id (user_on_duplicate u un dn ts) =? id) = true) by exact E.
      rewrite E'. apply user_on_duplicate_again.
    + rewrite E. reflexivity.
  - rewrite map_app. simpl. rewrite Z.eqb_refl. f_equal.
    + apply map_if_absent. exact Ex.
    + unfold user_on_duplicate. simpl. rewrite Z.ltb_irrefl. reflexivity.
Qed.

Lemma existsb_id_In (id : Z) (l : list TwitterUser) :
  existsb (fun u => tu_id u =? id) l = true <-> In id (map tu_id l).
Proof.
  rewrite existsb_exists, in_map_iff. split.
  - intros [u [Hin E]]. apply Z.eqb_eq in E. exists u. tauto.
  - intros [u [E Hin]]. exists u. split; [exact Hin | apply Z.eqb_eq; exact E].
Qed.

(** An author upsert under a free username keeps both keys of the
    table. *)
Lemma upsert_user_rows_keys (id : Z) (un dn : string) (ts : Z) (l : list TwitterUser) :
  (forall u, In u l -> tu_username u = un -> tu_id u = id) ->
  NoDup (map tu_id l) -> NoDup (map tu_username l) ->
  NoDup (map tu_id (upsert_user_rows id un dn ts l))
  /\ NoDup (map tu_username (upsert_user_rows id un dn ts l)).
Proof.
  intros Hfree Hid Hun. unfold upsert_user_rows.
  destruct (existsb (fun u => tu_id u =? id) l) eqn:Ex.
  - split.
    + rewrite map_map.
      rewrite (map_ext _ tu_id); [exact Hid|].
      intros u. destruct (tu_id u =? id); reflexivity.
    + clear Ex. induction l as [|a r IH]; simpl; [constructor|].
      inversion Hid as [|? ? Ha Hr]; subst. inversion Hun as [|? ? Hb Hs]; subst.
      assert (Hfr : forall u, In u r -> tu_username u = un -> tu_id u = id)
        by (intros u Hu; apply Hfree; right; exact Hu).
      destruct (tu_id a =? id) eqn:E.
      * apply Z.eqb_eq in E.
        assert (Hno : existsb (fun u => tu_id u =? id) r = false).
        { apply not_true_is_false. intros X. apply existsb_id_In in X.
          apply Ha. rewrite E. exact X. }
        rewrite (map_if_absent _ _ r Hno). constructor; [|exact Hs].
        unfold user_on_duplicate. simpl.
        destruct (tu_last_updated a <? ts); [|exact Hb].
        intros F. apply in_map_iff in F. destruct F as [u [Eu Hu]].
        apply Ha. rewrite E, <- (Hfr u Hu Eu). apply in_map. exact Hu.
      * constructor; [|apply IH; assumption].
        intros F. apply in_map_iff in F. destruct F as [u' [Eu Hu']].
        apply in_map_iff in Hu'. destruct Hu' as [u [<- Hu]].
        destruct (tu_id u =? id) eqn:E2.
        -- unfold user_on_duplicate in Eu. simpl in Eu.
           destruct (tu_last_updated u <? ts).
           ++ apply Z.eqb_neq in E. apply E. apply Hfree; [left; reflexivity|].
              symmetry. exact Eu.
           ++ apply Hb. rewrite <- Eu. apply in_map. exact Hu.
        -- apply Hb. rewrite <- Eu. apply in_map. exact Hu.
  - assert (Hno : ~ In id (map tu_id l)).
    { intros X. apply existsb_id_In in X. congruence. }
    rewrite !map_app. simpl. split.
    + apply NoDup_app_remove_l with (l := []). simpl.
      apply (Permutation_NoDup (l := id :: map tu_id l)).
      * apply Permutation_cons_append.
      * constructor; assumption.
    + apply (Permutation_NoDup (l := un :: map tu_username l)).
      * apply Permutation_cons_append.
      * constructor; [|exact Hun]. intros F. apply in_map_iff in F.
        destruct F as [u [Eu Hu]]. apply Hno. rewrite <- (Hfree u Hu Eu).
        apply in_map. exact Hu.
Qed.

(** X13.  When the store rejects nothing and no other author holds the
    username (the column is unique), [TwitterUserBLL.upsert] of an id that
    is not stored inserts the row as given and returns 1; no other author
    and no tweet is touched, whether the id was stored or not, and a table
    with distinct ids and distinct usernames stays one.  Repeating the
    call with the same arguments returns 1 and leaves the table as the
    first call left it. *)
Theorem author_upsert_inserts_and_is_idempotent (id : Z) (username display_name : string)
    (last_updated : Z) (d : DB) (sc : list Tick) (seed : string -> Z) :
  NoFault sc -> username_free id username d ->
  let '(r1, w1) := TwitterUserBLL_upsert id username display_name last_updated
                     (init_world d sc seed) in
  let '(r2, w2) := TwitterUserBLL_upsert id username display_name last_updated w1 in
  (find_user id d = None ->
   r1 = Ret 1
   /\ find_user id (db w1)
      = Some {| tu_id := id; tu_username := username; tu_display_name := display_name;
                tu_last_updated := last_updated |})
  /\ (forall id', id' <> id -> find_user id' (db w1) = find_user id' d)
  /\ tweet (db w1) = tweet d
  /\ r2 = Ret 1
  /\ twitter_user (db w2) = twitter_user (db w1)
  /\ (NoDup (map tu_id (twitter_user d)) -> NoDup (map tu_username (twitter_user d)) ->
      NoDup (map tu_id (twitter_user (db w1)))
      /\ NoDup (map tu_username (twitter_user (db w1)))).
Proof.
  intros Hnf Hfree.
  destruct (TwitterUserBLL_upsert_nofault_at id username display_name last_updated d []
              0%nat [] sc seed Hnf) as [d1 [lg1 [E1 [U1 [T1 _]]]]].
  unfold init_world. rewrite E1.
  destruct (TwitterUserBLL_upsert_nofault_at id username display_name last_updated d1 []
              1%nat lg1 (tl (tl sc)) seed (NoFault_tl _ (NoFault_tl _ Hnf)))
    as [d2 [lg2 [E2 [U2 _]]]].
  rewrite E2. simpl db. unfold find_user. rewrite U2, U1.
  split; [|split; [|split; [exact T1|split; [|split]]]].
  - intros Hnone. unfold find_user in Hnone. rewrite Hnone.
    split; [reflexivity|]. apply find_upsert_user_new. exact Hnone.
  - intros id' N. apply find_upsert_user_other. exact N.
  - destruct (find (fun u => tu_id u =? id) (twitter_user d)) as [old|] eqn:F.
    + rewrite (find_upsert_user _ _ _ _ _ _ F). unfold user_on_duplicate. simpl.
      destruct (tu_last_updated old <? last_updated) eqn:L.
      * rewrite Z.ltb_irrefl. reflexivity.
      * rewrite L. reflexivity.
    + rewrite (find_upsert_user_new _ _ _ _ _ F). simpl. rewrite Z.ltb_irrefl.
      reflexivity.
  - apply upsert_user_rows_again.
  - intros Hid Hun. apply upsert_user_rows_keys; assumption.
Qed.

Lemma author_upsert_inserts_and_is_idempotent_witness :
  NoFault [Go; Rival KTopic "x"] /\ username_free 7 "bob" db_alice
  /\ let '(r1, w1) := TwitterUserBLL_upsert 7 "bob" "Bob" 3
                        (init_world db_alice [Go; Rival KTopic "x"] seed0) in
     let '(r2, w2) := TwitterUserBLL_upsert 7 "bob" "Bob" 3 w1 in
     (find_user 7 db_alice = None ->
      r1 = Ret 1
      /\ find_user 7 (db w1)
         = Some {| tu_id := 7; tu_username := "bob"; tu_display_name := "Bob";
                   tu_last_updated := 3 |})
     /\ (forall id', id' <> 7 -> find_user id' (db w1) = find_user id' db_alice)
     /\ tweet (db w1) = tweet db_alice
     /\ r2 = Ret 1
     /\ twitter_user (db w2) = twitter_user (db w1)
     /\ (NoDup (map tu_id (twitter_user db_alice)) ->
         NoDup (map tu_username (twitter_user db_alice)) ->
         NoDup (map tu_id (twitter_user (db w1)))
         /\ NoDup (map tu_username (twitter_user (db w1)))).
Proof.
  assert (H : NoFault [Go; Rival KTopic "x"]) by (repeat constructor; discriminate).
  assert (F : username_free 7 "bob" db_alice).
  { intros u [<-|[]] E. simpl in E. discriminate. }
  split; [exact H|]. split; [exact F|].
  apply (author_upsert_inserts_and_is_idempotent 7 "bob" "Bob" 3 db_alice
           [Go; Rival KTopic "x"] seed0 H F).
Defined.

(* ================================================================== *)
(** * The ingestion upsert as a whole *)
(* ================================================================== *)

(** Every topic of the list ends up registered under its title cut to
    the column. *)
Lemma topic_loop_registers (l : list string) (so : PySet) (d : DB)
    (ss : list (nat * Session)) (n : nat) (lg : list Event) (sc : list Tick)
    (seed : string -> Z) :
  store_ok d -> NoFault sc ->
  exists so' d' ss' n' lg' sc',
    topic_loop l so (W d ss n lg sc seed) = (Ret so', W d' ss' n' lg' sc' seed)
    /\ store_ok d' /\ NoFault sc' /\ tags_grow d d' /\ same_rows d d'
    /\ Forall (fun e => exists row, In row (tags KTopic d') /\ tag_text row = topic_title e)
         l.
Proof.
  revert so d ss n lg sc.
  induction l as [|e l IH]; intros so d ss n lg sc Hok Hnf.
  - exists so, d, ss, n, lg, sc.
    split; [reflexivity|]. split; [exact Hok|]. split; [exact Hnf|].
    split; [apply tags_grow_refl|]. split; [apply same_rows_refl | constructor].
  - simpl topic_loop. fold (topic_title e).
    destruct (Tag_insert_nofault KTopic (topic_title e) d ss n lg sc seed Hok Hnf eq_refl)
      as [row [d1 [ss1 [n1 [lg1 [sc1 [E1 [Hok1 [Hnf1 [Hg1 [Hs1 [T1 _]]]]]]]]]]]].
    destruct (IH (set_add so (tag_id row)) d1 ss1 n1 lg1 sc1 Hok1 Hnf1)
      as [so' [d2 [ss2 [n2 [lg2 [sc2 [E2 [Hok2 [Hnf2 [Hg2 [Hs2 Hreg]]]]]]]]]]].
    exists so', d2, ss2, n2, lg2, sc2.
    split.
    { unfold bind at 1. unfold TopicBLL_insert_if_not_exists. rewrite E1. exact E2. }
    split; [exact Hok2|]. split; [exact Hnf2|].
    split; [eapply tags_grow_trans; eassumption|].
    split; [eapply same_rows_trans; eassumption|].
    constructor; [|exact Hreg].
    assert (X : In row (tags_with_text KTopic (topic_title e) d1))
      by (rewrite T1; left; reflexivity).
    unfold tags_with_text in X. apply filter_In in X. destruct X as [X1 X2].
    apply String.eqb_eq in X2. exists row. split; [|exact X2].
    eapply tags_grow_In; [exact Hg2 | exact X1].
Qed.

Lemma filter_other_links (tid : Z) (old : list (Z * Z)) (ids : list Z) :
  filter (fun l => negb (fst l =? tid))
    (filter (fun l => negb (fst l =? tid)) old ++ map (fun h => (tid, h)) ids)
  = filter (fun l => negb (fst l =? tid)) old.
Proof.
  rewrite filter_app.
  assert (X : filter (fun l : Z * Z => negb (fst l =? tid)) (map (fun h => (tid, h)) ids)
              = []).
  { induction ids as [|h ids IH]; simpl; [reflexivity|]. rewrite Z.eqb_refl. exact IH. }
  rewrite X, app_nil_r. clear X.
  induction old as [|a old IH]; simpl; [reflexivity|].
  destruct (fst a =? tid) eqn:E; simpl; [exact IH|]. rewrite E. simpl. f_equal. exact IH.
Qed.

(** The statements after the transaction, with all they leave behind. *)
Lemma upsert_links_all (tid : Z) (c : string) (topics : option (list string))
    (d : DB) (ss : list (nat * Session)) (n : nat) (lg : list Event) (sc : list Tick)
    (seed : string -> Z) :
  store_ok d -> NoFault sc -> has_tweet tid d = true ->
  exists d' ss' n' lg' sc',
    TweetBLL_upsert_links tid (Some c) topics (W d ss n lg sc seed)
    = (Ret tt, W d' ss' n' lg' sc' seed)
    /\ store_ok d' /\ NoFault sc' /\ tags_grow d d'
    /\ twitter_user d' = twitter_user d /\ tweet d' = tweet d
    /\ linked_hashtags tid d' = str_set seed (re_findall_hashtag c)
    /\ filter (fun l => negb (fst l =? tid)) (tweet_hashtag d')
       = filter (fun l => negb (fst l =? tid)) (tweet_hashtag d)
    /\ (forall l, topics = Some l ->
          Forall (fun e => exists row, In row (tags KTopic d')
                                       /\ tag_text row = topic_title e) l).
Proof.
  intros Hok Hnf Ht.
  unfold TweetBLL_upsert_links. unfold bind at 1. unfold get_hashseed.
  cbv beta iota zeta. simpl hashseed.
  set (l := str_set seed (re_findall_hashtag c)).
  assert (Hst : forall e, In e l -> stored_text KHashtag e = e).
  { intros e He. apply (findall_stored c). apply (str_set_In seed). exact He. }
  destruct (hashtag_loop_nofault l d ss n lg sc seed Hok Hnf Hst)
    as [rows [d1 [ss1 [n1 [lg1 [sc1 [E1 [Hok1 [Hnf1 [Hg1 [Hs1 [Tx Hin1]]]]]]]]]]]].
  unfold bind at 1. rewrite E1.
  destruct Hs1 as [U1 [T1 [L1 P1]]].
  assert (Ht1 : has_tweet tid d1 = true) by (rewrite (has_tweet_eq tid d d1 T1); exact Ht).
  assert (Hids : Forall (fun h => has_tag_id KHashtag h d1 = true) (map tag_id rows)).
  { apply Forall_forall. intros h Hh. apply in_map_iff in Hh.
    destruct Hh as [r [<- Hr]]. apply has_tag_id_In.
    rewrite Forall_forall in Hin1. apply Hin1. exact Hr. }
  assert (ND : NoDup (map tag_id rows)).
  { apply (NoDup_map_on tag_id (tags KHashtag d1)).
    - apply Hok1.
    - apply (NoDup_map_inv tag_text). rewrite Tx. apply str_set_NoDup.
    - rewrite Forall_forall in Hin1. exact Hin1. }
  destruct (TweetHashtagBLL_insert_nofault tid (map tag_id rows) d1 ss1 n1 lg1 sc1 seed
              Hnf1 Ht1 Hids ND)
    as [d2 [lg2 [sc2 [E2 [Hnf2 [Hg2 [Hok2 [U2 [T2 [P2 L2]]]]]]]]]].
  unfold bind at 1. rewrite E2.
  assert (Hrows2 : forall dx, tags_grow d2 dx ->
                              Forall (fun r => In r (tags KHashtag dx)) rows).
  { intros dx Hx. eapply Forall_impl; [|exact Hin1]. intros r Hr.
    eapply tags_grow_In; [exact Hx|]. eapply tags_grow_In; [exact Hg2 | exact Hr]. }
  assert (Hoth : filter (fun x => negb (fst x =? tid)) (tweet_hashtag d2)
                 = filter (fun x => negb (fst x =? tid)) (tweet_hashtag d)).
  { rewrite L2, filter_other_links, L1. reflexivity. }
  assert (Hg02 : tags_grow d d2) by (apply (tags_grow_trans _ d1); assumption).
  destruct topics as [[|t topics]|].
  - exists d2, ss1, (S n1), lg2, sc2.
    split; [reflexivity|]. split; [exact (Hok2 Hok1)|]. split; [exact Hnf2|].
    split; [exact Hg02|]. split; [congruence|]. split; [congruence|].
    split; [|split; [exact Hoth|]].
    + rewrite <- Tx. apply (linked_hashtags_replaced tid rows (tweet_hashtag d1)).
      * apply (Hok2 Hok1).
      * apply Hrows2. apply tags_grow_refl.
      * exact L2.
    + intros l0 [= <-]. constructor.
  - destruct (topic_loop_registers (t :: topics) set_new d2 ss1 (S n1) lg2 sc2 seed
                (Hok2 Hok1) Hnf2)
      as [so [d3 [ss3 [n3 [lg3 [sc3 [E3 [Hok3 [Hnf3 [Hg3 [[U3 [T3 [L3 P3]]] Hreg]]]]]]]]]]].
    unfold bind at 1. rewrite E3.
    destruct (TweetTopicBLL_insert_frame tid (set_iter so) d3 ss3 n3 lg3 sc3 seed Hnf3)
      as [b [d4 [lg4 [sc4 [E4 [Hnf4 [Hg4 [Hok4 [U4 [T4 L4]]]]]]]]]].
    unfold bind at 1. rewrite E4.
    exists d4, ss3, (S n3), lg4, sc4.
    split; [reflexivity|]. split; [exact (Hok4 Hok3)|]. split; [exact Hnf4|].
    split.
    { apply (tags_grow_trans _ d2); [exact Hg02|].
      apply (tags_grow_trans _ d3); assumption. }
    split; [congruence|]. split; [congruence|].
    split; [|split].
    + rewrite <- Tx. apply (linked_hashtags_replaced tid rows (tweet_hashtag d1)).
      * apply (Hok4 Hok3).
      * apply Hrows2. eapply tags_grow_trans; eassumption.
      * rewrite L4, L3. exact L2.
    + rewrite L4, L3. exact Hoth.
    + intros l0 [= <-]. eapply Forall_impl; [|exact Hreg].
      intros e [row [Hr He]]. exists row. split; [|exact He].
      eapply tags_grow_In; [exact Hg4 | exact Hr].
  - exists d2, ss1, (S n1), lg2, sc2.
    split; [reflexivity|]. split; [exact (Hok2 Hok1)|]. split; [exact Hnf2|].
    split; [exact Hg02|]. split; [congruence|]. split; [congruence|].
    split; [|split; [exact Hoth|]].
    + rewrite <- Tx. apply (linked_hashtags_replaced tid rows (tweet_hashtag d1)).
      * apply (Hok2 Hok1).
      * apply Hrows2. apply tags_grow_refl.
      * exact L2.
    + intros l0 [=].
Qed.

(** The ingestion upsert in a run the store does not reject, with all it
    leaves behind. *)
Lemma upsert_all (tid uid : Z) (un dn text : string) (lang : option string)
    (ts : Z) (sent : option Z) (lk rt rp : Z) (topics : option (list string)) (d : DB)
    (sc : list Tick) (seed : string -> Z) :
  store_ok d -> NoFault sc ->
  exists rc d' ss' n' lg' sc',
    TweetBLL_upsert tid uid un dn (Some text) lang ts sent lk rt rp topics
      (init_world d sc seed)
    = (Ret rc, W d' ss' n' lg' sc' seed)
    /\ 1 <= rc <= 2
    /\ store_ok d' /\ NoFault sc' /\ tags_grow d d'
    /\ twitter_user d' = upsert_user_rows uid un dn ts (twitter_user d)
    /\ tweet d' = upsert_tweet_rows tid uid (clip 280 text) (truncate 5 lang) ts sent
                    lk rt rp (tweet d)
    /\ linked_hashtags tid d' = str_set seed (re_findall_hashtag (clip 280 text))
    /\ filter (fun l => negb (fst l =? tid)) (tweet_hashtag d')
       = filter (fun l => negb (fst l =? tid)) (tweet_hashtag d)
    /\ (forall l, topics = Some l ->
          Forall (fun e => exists row, In row (tags KTopic d')
                                       /\ tag_text row = topic_title e) l).
Proof.
  intros Hok Hnf. unfold init_world.
  destruct (upsert_tx_nofault tid uid un dn text lang ts sent lk rt rp topics d [] 0%nat []
              sc seed Hnf)
    as [d3 [rc [lg3 [[U3 [T3 [L3 _]]] [Hg3 [Hok3 [Hrc E]]]]]]].
  rewrite E. clear E.
  set (d4 := with_tweet _ _).
  assert (Hst4 : same_tags d3 d4).
  { apply (same_tags_trans _ (with_twitter_user
                                (upsert_user_rows uid un dn ts (twitter_user d3)) d3)).
    - apply same_tags_with_twitter_user.
    - apply same_tags_with_tweet. }
  assert (Hok4 : store_ok d4) by (apply (same_tags_ok d3); [exact Hst4 | exact (Hok3 Hok)]).
  assert (Ht4 : has_tweet tid d4 = true) by (apply has_upsert_tweet).
  destruct (upsert_links_all tid (clip 280 text) topics d4 [] 1%nat lg3
              (tl (tl (tl sc))) seed Hok4 (NoFault_tl _ (NoFault_tl _ (NoFault_tl _ Hnf)))
              Ht4)
    as [d5 [ss5 [n5 [lg5 [sc5 [E5 [Hok5 [Hnf5 [Hg5 [U5 [T5 [L5 [O5 R5]]]]]]]]]]]]].
  unfold bind. rewrite E5. unfold ret.
  exists rc, d5, ss5, n5, lg5, sc5.
  split; [reflexivity|]. split; [exact Hrc|]. split; [exact Hok5|]. split; [exact Hnf5|].
  split.
  { apply (tags_grow_trans _ d3); [exact Hg3|].
    apply (tags_grow_trans _ d4); [apply same_tags_grow; exact Hst4 | exact Hg5]. }
  split; [rewrite U5; unfold d4; simpl; rewrite U3; reflexivity|].
  split; [rewrite T5; unfold d4; simpl; rewrite T3; reflexivity|].
  split; [exact L5|]. split; [|exact R5].
  rewrite O5. unfold d4. simpl. rewrite L3. reflexivity.
Qed.

Lemma length_prefix_le (n : nat) (s : string) :
  (String.length (py_prefix n s) <= n)%nat.
Proof.
  unfold py_prefix. revert s. induction n as [|n IH]; intros s.
  - destruct s; simpl; lia.
  - destruct s as [|c s]; simpl; [lia|]. specialize (IH s). lia.
Qed.

Lemma length_clip (n : nat) (s : string) : (String.length (clip n s) <= n)%nat.
Proof.
  unfold clip. destruct (n <? String.length s)%nat eqn:E.
  - apply length_prefix_le.
  - apply Nat.ltb_ge in E. exact E.
Qed.

Lemma within_bounds_upsert (tid uid : Z) (text : string) (lang : option string) (ts : Z)
    (sent : option Z) (lk rt rp : Z) (l : list Tweet) :
  Forall within_bounds l ->
  Forall within_bounds
    (upsert_tweet_rows tid uid (clip 280 text) (truncate 5 lang) ts sent lk rt rp l).
Proof.
  intros H.
  assert (B : forall i u, within_bounds
                {| tw_id := i; tw_user_id := u; tw_content := clip 280 text;
                   tw_language := truncate 5 lang; tw_created_at := ts;
                   tw_sentiment_score := sent; tw_like_count := lk;
                   tw_retweet_count := rt; tw_reply_count := rp |}).
  { intros i u. split; simpl; [apply length_clip|].
    destruct lang as [c|]; simpl; [|exact I].
    change (match (if (5 <? String.length c)%nat then Some (py_prefix 5 c) else Some c) with
            | Some code => (String.length code <= 5)%nat
            | None => True
            end).
    destruct (5 <? String.length c)%nat eqn:E.
    - apply length_prefix_le.
    - apply Nat.ltb_ge in E. exact E. }
  unfold upsert_tweet_rows. destruct (existsb _ l).
  - apply Forall_forall. intros t Ht. apply in_map_iff in Ht.
    destruct Ht as [t0 [<- Hin]]. destruct (tw_id t0 =? tid).
    + apply B.
    + rewrite Forall_forall in H. apply H. exact Hin.
  - apply Forall_app. split; [exact H|]. constructor; [apply B | constructor].
Qed.

(** X14.  The ingestion upsert keeps what the schema promises: from a store
    whose tag tables satisfy their unique keys and whose tweets fit the
    columns [content] (280) and [language] (5), a run that the store does
    not reject ends in such a store again.  It never removes a hashtag or
    a topic row. *)
Theorem upsert_keeps_schema_invariants (tweet_id twitter_user_id : Z)
    (username display_name text : string) (language : option string) (created_at : Z)
    (sentiment_score : option Z) (like_count retweet_count reply_count : Z)
    (topics : option (list string)) (d : DB) (sc : list Tick) (seed : string -> Z) :
  store_ok d -> NoFault sc -> Forall within_bounds (tweet d) ->
  let '(r, w) := TweetBLL_upsert tweet_id twitter_user_id username display_name
                   (Some text) language created_at sentiment_score like_count
                   retweet_count reply_count topics (init_world d sc seed) in
  store_ok (db w)
  /\ Forall within_bounds (tweet (db w))
  /\ (forall k x, In x (tags k d) -> In x (tags k (db w))).
Proof.
  intros Hok Hnf Hb.
  destruct (upsert_all tweet_id twitter_user_id username display_name text language
              created_at sentiment_score like_count retweet_count reply_count topics
              d sc seed Hok Hnf)
    as [rc [d' [ss' [n' [lg' [sc' [E [_ [Hok' [_ [Hg [_ [T _]]]]]]]]]]]]].
  rewrite E. simpl db. split; [exact Hok'|]. split.
  - rewrite T. apply within_bounds_upsert. exact Hb.
  - intros k x Hx. exact (tags_grow_In d d' k x Hg Hx).
Qed.

Lemma store_ok_one_tweet_bounds : Forall within_bounds (tweet db_one_tweet).
Proof. constructor; [split; simpl; [lia | exact I] | constructor]. Qed.

Lemma upsert_keeps_schema_invariants_witness :
  store_ok db_one_tweet /\ NoFault [Rival KHashtag "sol"]
  /\ Forall within_bounds (tweet db_one_tweet)
  /\ let '(r, w) := TweetBLL_upsert 2 100 "alice" "Alice" (Some long_text) (Some "en-GB-x")
                      9 None 0 0 0 (Some ["markets"])
                      (init_world db_one_tweet [Rival KHashtag "sol"] seed0) in
     store_ok (db w)
     /\ Forall within_bounds (tweet (db w))
     /\ (forall k x, In x (tags k db_one_tweet) -> In x (tags k (db w))).
Proof.
  assert (H : NoFault [Rival KHashtag "sol"]) by (repeat constructor; discriminate).
  split; [exact store_ok_one_tweet|]. split; [exact H|].
  split; [exact store_ok_one_tweet_bounds|].
  apply (upsert_keeps_schema_invariants 2 100 "alice" "Alice" long_text (Some "en-GB-x")
           9 None 0 0 0 (Some ["markets"]) db_one_tweet [Rival KHashtag "sol"] seed0
           store_ok_one_tweet H store_ok_one_tweet_bounds).
Defined.


Lemma find_upsert_tweet_other (tid tid' uid : Z) (c : string) (lang : option string)
    (ts : Z) (sent : option Z) (lk rt rp : Z) (l : list Tweet) :
  tid' <> tid ->
  find (fun t => tw_id t =? tid') (upsert_tweet_rows tid uid c lang ts sent lk rt rp l)
  = find (fun t => tw_id t =? tid') l.
Proof.
  intros N. unfold upsert_tweet_rows.
  destruct (existsb (fun t => tw_id t =? tid) l).
  - induction l as [|a l IH]; simpl; [reflexivity|].
    destruct (tw_id a =? tid) eqn:E; simpl.
    + apply Z.eqb_eq in E.
      replace (tw_id a =? tid') with false by (symmetry; apply Z.eqb_neq; lia).
      exact IH.
    + destruct (tw_id a =? tid'); [reflexivity | exact IH].
  - induction l as [|a l IH]; simpl.
    + replace (tid =? tid') with false by (symmetry; apply Z.eqb_neq; lia). reflexivity.
    + destruct (tw_id a =? tid'); [reflexivity | exact IH].
Qed.



(** X16.  An ingestion upsert that the store does not reject, under a
    username that no other author holds (the column is unique), leaves
    every other tweet as it was, with its hashtag links, and every author
    other than the one named. *)
Theorem upsert_leaves_other_tweets_alone (tweet_id twitter_user_id : Z)
    (username display_name text : string) (language : option string) (created_at : Z)
    (sentiment_score : option Z) (like_count retweet_count reply_count : Z)
    (topics : option (list string)) (d : DB) (sc : list Tick) (seed : string -> Z) :
  store_ok d -> NoFault sc -> username_free twitter_user_id username d ->
  let '(r, w) := TweetBLL_upsert tweet_id twitter_user_id username display_name
                   (Some text) language created_at sentiment_score like_count
                   retweet_count reply_count topics (init_world d sc seed) in
  (forall id, id <> tweet_id -> find_tweet id (db w) = find_tweet id d)
  /\ filter (fun l => negb (fst l =? tweet_id)) (tweet_hashtag (db w))
     = filter (fun l => negb (fst l =? tweet_id)) (tweet_hashtag d)
  /\ (forall id, id <> twitter_user_id -> find_user id (db w) = find_user id d).
Proof.
  intros Hok Hnf _.
  destruct (upsert_all tweet_id twitter_user_id username display_name text language
              created_at sentiment_score like_count retweet_count reply_count topics
              d sc seed Hok Hnf)
    as [rc [d' [ss' [n' [lg' [sc' [E [_ [_ [_ [_ [U [T [_ [O _]]]]]]]]]]]]]]].
  rewrite E. simpl db. split; [|split; [exact O|]].
  - intros id N. unfold find_tweet. rewrite T. apply find_upsert_tweet_other. exact N.
  - intros id N. unfold find_user. rewrite U. apply find_upsert_user_other. exact N.
Qed.

Lemma upsert_leaves_other_tweets_alone_witness :
  store_ok db_one_tweet /\ NoFault [] /\ username_free 100 "alice" db_one_tweet
  /\ let '(r, w) := TweetBLL_upsert 2 100 "alice" "Alice" (Some "gm #sol") None 9 None
                      0 0 0 None (init_world db_one_tweet [] seed0) in
     (forall id, id <> 2 -> find_tweet id (db w) = find_tweet id db_one_tweet)
     /\ filter (fun l => negb (fst l =? 2)) (tweet_hashtag (db w))
        = filter (fun l => negb (fst l =? 2)) (tweet_hashtag db_one_tweet)
     /\ (forall id, id <> 100 -> find_user id (db w) = find_user id db_one_tweet).
Proof.
  assert (F : username_free 100 "alice" db_one_tweet).
  { intros u [<-|[]] _. reflexivity. }
  split; [exact store_ok_one_tweet|]. split; [constructor|]. split; [exact F|].
  apply (upsert_leaves_other_tweets_alone 2 100 "alice" "Alice" "gm #sol" None 9 None
           0 0 0 None db_one_tweet [] seed0 store_ok_one_tweet); [constructor | exact F].
Defined.

Lemma findall_from_nonempty (s : string) (cur : option string) :
  Forall (fun e => e <> EmptyString) (findall_from s cur).
Proof.
  revert cur. induction s as [|c s IH]; intros cur; simpl.
  - destruct cur as [[|a w]|]; simpl; constructor; [discriminate | constructor].
  - destruct cur as [w|]; [|apply IH].
    destruct (is_word c); [apply IH|].
    destruct w as [|a w]; simpl; [apply IH|].
    constructor; [discriminate | apply IH].
Qed.

Lemma findall_no_hash (s : string) : has_hash s = false -> findall_from s None = [].
Proof.
  induction s as [|c s IH]; simpl; intros H; [reflexivity|].
  apply orb_false_iff in H. destruct H as [Hc Hs]. rewrite Hc. exact (IH Hs).
Qed.

Lemma has_hash_prefix (n : nat) (s : string) :
  has_hash s = false -> has_hash (py_prefix n s) = false.
Proof.
  unfold py_prefix. revert s. induction n as [|n IH]; intros s H.
  - destruct s; reflexivity.
  - destruct s as [|c s]; simpl in *; [reflexivity|].
    apply orb_false_iff in H. destruct H as [Hc Hs]. rewrite Hc. exact (IH s Hs).
Qed.

Lemma has_hash_word (s : string) : all_word s = true -> has_hash s = false.
Proof.
  induction s as [|c s IH]; simpl; intros H; [reflexivity|].
  apply andb_true_iff in H. destruct H as [Hc Hs].
  rewrite (is_word_not_hash c Hc), (IH Hs). reflexivity.
Qed.

(** X17.  The hashtags linked to a tweet by an ingestion upsert that the
    store does not reject are pairwise distinct, non-empty and made of word
    characters only (none holds a ['#']); a text without ['#'] leaves the
    tweet with no hashtag link, whatever links it had. *)
Theorem upsert_links_only_words (tweet_id twitter_user_id : Z)
    (username display_name text : string) (language : option string) (created_at : Z)
    (sentiment_score : option Z) (like_count retweet_count reply_count : Z)
    (topics : option (list string)) (d : DB) (sc : list Tick) (seed : string -> Z) :
  store_ok d -> NoFault sc ->
  let '(r, w) := TweetBLL_upsert tweet_id twitter_user_id username display_name
                   (Some text) language created_at sentiment_score like_count
                   retweet_count reply_count topics (init_world d sc seed) in
  NoDup (linked_hashtags tweet_id (db w))
  /\ (forall e, In e (linked_hashtags tweet_id (db w)) ->
        e <> EmptyString /\ all_word e = true /\ has_hash e = false)
  /\ (has_hash text = false -> linked_hashtags tweet_id (db w) = []).
Proof.
  intros Hok Hnf.
  destruct (upsert_all tweet_id twitter_user_id username display_name text language
              created_at sentiment_score like_count retweet_count reply_count topics
              d sc seed Hok Hnf)
    as [rc [d' [ss' [n' [lg' [sc' [E [_ [_ [_ [_ [_ [_ [L _]]]]]]]]]]]]]].
  rewrite E. simpl db. rewrite L. split; [apply str_set_NoDup|]. split.
  - intros e He. apply str_set_In in He. unfold re_findall_hashtag in He.
    pose proof (findall_from_nonempty (clip 280 text) None) as N.
    pose proof (findall_from_words (clip 280 text) None) as A.
    rewrite Forall_forall in N, A.
    assert (Aw : all_word e = true) by (apply A; [discriminate | exact He]).
    split; [exact (N e He)|]. split; [exact Aw | exact (has_hash_word e Aw)].
  - intros Hh.
    assert (Hc : has_hash (clip 280 text) = false).
    { unfold clip. destruct (280 <? String.length text)%nat;
        [apply has_hash_prefix|]; exact Hh. }
    unfold re_findall_hashtag. rewrite (findall_no_hash _ Hc). reflexivity.
Qed.

Lemma upsert_links_only_words_witness :
  store_ok db_one_tweet /\ NoFault []
  /\ let '(r, w) := TweetBLL_upsert 1 100 "alice" "Alice" (Some "no tags today") None 9
                      None 0 0 0 None (init_world db_one_tweet [] seed0) in
     NoDup (linked_hashtags 1 (db w))
     /\ (forall e, In e (linked_hashtags 1 (db w)) ->
           e <> EmptyString /\ all_word e = true /\ has_hash e = false)
     /\ (has_hash "no tags today" = false -> linked_hashtags 1 (db w) = []).
Proof.
  split; [exact store_ok_one_tweet|]. split; [constructor|].
  apply (upsert_links_only_words 1 100 "alice" "Alice" "no tags today" None 9 None
           0 0 0 None db_one_tweet [] seed0 store_ok_one_tweet). constructor.
Defined.

(** X18.  After an ingestion upsert that the store does not reject, every
    topic of a supplied list is registered exactly once, under its title
    cut to the 100 characters of the column; a title longer than that is
    registered as its first 100 characters. *)
Theorem upsert_registers_topics (tweet_id twitter_user_id : Z)
    (username display_name text : string) (language : option string) (created_at : Z)
    (sentiment_score : option Z) (like_count retweet_count reply_count : Z)
    (topics : list string) (d : DB) (sc : list Tick) (seed : string -> Z) :
  store_ok d -> NoFault sc ->
  let '(r, w) := TweetBLL_upsert tweet_id twitter_user_id username display_name
                   (Some text) language created_at sentiment_score like_count
                   retweet_count reply_count (Some topics) (init_world d sc seed) in
  forall e, In e topics ->
    (String.length (topic_title e) <= 100)%nat
    /\ (exists row, tags_with_text KTopic (topic_title e) (db w) = [row])
    /\ ((100 < String.length e)%nat -> topic_title e = py_prefix 100 e)
    /\ ((String.length e <= 100)%nat -> topic_title e = e).
Proof.
  intros Hok Hnf.
  destruct (upsert_all tweet_id twitter_user_id username display_name text language
              created_at sentiment_score like_count retweet_count reply_count
              (Some topics) d sc seed Hok Hnf)
    as [rc [d' [ss' [n' [lg' [sc' [E [_ [Hok' [_ [_ [_ [_ [_ [_ R]]]]]]]]]]]]]]].
  rewrite E. simpl db. intros e He.
  specialize (R topics eq_refl). rewrite Forall_forall in R.
  destruct (R e He) as [row [Hin Ht]].
  split; [apply (length_clip 100 e)|]. split.
  - exists row. unfold tags_with_text. rewrite <- Ht.
    apply filter_text_unique; [apply Hok' | exact Hin].
  - unfold topic_title, title_max_length. split; intros H.
    + apply Nat.ltb_lt in H. rewrite H. reflexivity.
    + apply Nat.ltb_ge in H. rewrite H. reflexivity.
Qed.

Lemma upsert_registers_topics_witness :
  store_ok db_alice /\ NoFault []
  /\ let '(r, w) := TweetBLL_upsert 1 100 "alice" "Alice" (Some "gm") None 9 None 0 0 0
                      (Some ["markets"; long_text]) (init_world db_alice [] seed0) in
     forall e, In e ["markets"; long_text] ->
       (String.length (topic_title e) <= 100)%nat
       /\ (exists row, tags_with_text KTopic (topic_title e) (db w) = [row])
       /\ ((100 < String.length e)%nat -> topic_title e = py_prefix 100 e)
       /\ ((String.length e <= 100)%nat -> topic_title e = e).
Proof.
  split; [exact store_ok_alice|]. split; [constructor|].
  apply (upsert_registers_topics 1 100 "alice" "Alice" "gm" None 9 None 0 0 0
           ["markets"; long_text] db_alice [] seed0 store_ok_alice). constructor.
Defined.

(* ================================================================== *)
(** * Replacing the hashtag links of a tweet *)
(* ================================================================== *)

(** An INSERT of hashtag links that goes through: the tweet exists, so
    does every hashtag, no id comes twice and no link is there yet. *)
Lemma insert_hashtag_links_inv (tid : Z) (ids : list Z) (d0 d' : DB) :
  insert_objs (map (fun h => NewTweetHashtag tid h) ids) d0 = Some d' ->
  (ids <> [] -> has_tweet tid d0 = true)
  /\ NoDup ids
  /\ (forall h, In h ids -> has_tag_id KHashtag h d0 = true)
  /\ (forall h, In h ids -> ~ In (tid, h) (tweet_hashtag d0)).
Proof.
  revert d0. induction ids as [|h ids IH]; intros d0 H; simpl in H.
  - split; [congruence|]. split; [constructor|]. split; intros h [].
  - destruct (has_tweet tid d0) eqn:Et; [|discriminate].
    destruct (has_tag_id KHashtag h d0) eqn:Eh; [|discriminate].
    destruct (existsb _ (tweet_hashtag d0)) eqn:Ex; [discriminate|].
    simpl in H. destruct (IH _ H) as [_ [ND [Hh Hn]]].
    assert (Hnew : ~ In (tid, h) (tweet_hashtag d0)).
    { intros F. assert (X : existsb (fun l : Z * Z => (fst l =? tid) && (snd l =? h))
                              (tweet_hashtag d0) = true).
      { apply existsb_exists. exists (tid, h). split; [exact F|]. simpl.
        rewrite !Z.eqb_refl. reflexivity. }
      rewrite X in Ex. discriminate. }
    split; [reflexivity|]. split; [|split].
    + constructor; [|exact ND]. intros F. apply (Hn h F). simpl.
      apply in_or_app. right. left. reflexivity.
    + intros a [<-|Ha]; [exact Eh|]. exact (Hh a Ha).
    + intros a [<-|Ha]; [exact Hnew|]. intros F. apply (Hn a Ha). simpl.
      apply in_or_app. left. exact F.
Qed.

(** An id below the next AUTO_INCREMENT value that no row carries is not
    taken by a concurrent writer either. *)
Lemma tick_db_absent (ss : list (nat * Session)) (d : DB) (sc : list Tick) (k : TagKind)
    (h : Z) :
  has_tag_id k h d = false -> h < tag_seq k d ->
  has_tag_id k h (tick_db ss d sc) = false /\ h < tag_seq k (tick_db ss d sc).
Proof.
  intros Hh Hlt.
  destruct (tick_db_cases ss d sc) as [E|[k' [s [_ [_ E]]]]]; rewrite E;
    [split; assumption|].
  unfold has_tag_id in *. rewrite tags_with_tag_seq, tags_add_tag, tag_seq_with_tag_seq,
    tag_seq_add_tag.
  destruct k', k; try (split; assumption).
  - rewrite existsb_app, Hh. simpl in *.
    replace (hashtag_seq d =? h) with false by (symmetry; apply Z.eqb_neq; lia).
    split; [reflexivity | lia].
  - rewrite existsb_app, Hh. simpl in *.
    replace (topic_seq d =? h) with false by (symmetry; apply Z.eqb_neq; lia).
    split; [reflexivity | lia].
Qed.

(** X19.  [TweetHashtagBLL.insert] replaces the links of a tweet in one
    transaction: when the list is rejected (the tweet is not stored, an id
    comes twice, or an id such as the 0 of a failed get-or-create is not a
    hashtag) it returns [False], and the links the tweet had are all still
    there, the DELETE being dropped with the transaction. *)
Theorem hashtag_link_insert_is_all_or_nothing (tid : Z) (ids : list Z) (d : DB)
    (sc : list Tick) (seed : string -> Z) :
  NoFault sc -> ids <> [] ->
  has_tweet tid d = false \/ ~ NoDup ids
  \/ (exists h, In h ids /\ has_tag_id KHashtag h d = false /\ h < hashtag_seq d) ->
  let '(r, w) := TweetHashtagBLL_insert tid ids (init_world d sc seed) in
  r = Ret false /\ tweet_hashtag (db w) = tweet_hashtag d /\ tweet (db w) = tweet d
  /\ sessions w = [].
Proof.
  intros Hnf Hne Hbad.
  unfold TweetHashtagBLL_insert, init_world.
  unfold bind at 1. unfold create_session. cbv beta iota zeta.
  simpl db. simpl sessions. simpl next_sid. simpl log. simpl sched. simpl hashseed.
  unfold bind at 1. unfold attempt at 1. unfold bind at 1.
  unfold TweetHashtagDAL_delete_by_tweet_id. rewrite execute_nofault by assumption.
  cbv beta iota zeta. simpl pending. simpl new_objs. simpl app.
  set (d1 := tick_db [(0%nat, empty_session)] d sc).
  set (fdel := fun d' : DB =>
                 with_tweet_hashtag
                   (filter (fun l => negb (fst l =? tid)) (tweet_hashtag d')) d').
  unfold bind at 1. rewrite add_all_head. cbv beta iota zeta.
  simpl pending. simpl new_objs. simpl app.
  destruct (tick_db_frame [(0%nat, empty_session)] d sc) as [F1 [F2 [F3 F4]]].
  fold d1 in F1, F2, F3, F4.
  destruct ids as [|h ids]; [congruence|].
  change (map (fun hashtag_id : Z => NewTweetHashtag tid hashtag_id) (h :: ids))
    with (NewTweetHashtag tid h
          :: map (fun hashtag_id : Z => NewTweetHashtag tid hashtag_id) ids).
  set (os := map (fun hashtag_id : Z => NewTweetHashtag tid hashtag_id) ids).
  rewrite commit_flush_nofault by (apply NoFault_tl; exact Hnf).
  cbv zeta. cbn [apply_writes fold_left].
  set (d2 := tick_db [(0%nat, {| pending := [fdel];
                                 new_objs := NewTweetHashtag tid h :: os |})]
               d1 (tl sc)).
  destruct (tick_db_frame [(0%nat, {| pending := [fdel];
                                      new_objs := NewTweetHashtag tid h :: os |})]
              d1 (tl sc)) as [G1 [G2 [G3 G4]]].
  fold d2 in G1, G2, G3, G4.
  assert (Hnone : insert_objs (NewTweetHashtag tid h :: os) (fdel d2) = None).
  { destruct (insert_objs (NewTweetHashtag tid h :: os) (fdel d2)) as [dx|] eqn:E;
      [|reflexivity].
    exfalso.
    destruct (insert_hashtag_links_inv tid (h :: ids) (fdel d2) dx E)
      as [I1 [I2 [I3 _]]].
    destruct Hbad as [Hb|[Hb|[a [Ha [Hb Hlt]]]]].
    - assert (X : has_tweet tid (fdel d2) = true) by (apply I1; discriminate).
      unfold fdel, has_tweet in X. simpl in X. rewrite G2, F2 in X.
      unfold has_tweet in Hb. congruence.
    - exact (Hb I2).
    - destruct (tick_db_absent [(0%nat, empty_session)] d sc KHashtag a Hb Hlt)
        as [A1 A2].
      fold d1 in A1, A2.
      destruct (tick_db_absent [(0%nat, {| pending := [fdel];
                                           new_objs := NewTweetHashtag tid h :: os |})]
                  d1 (tl sc) KHashtag a A1 A2) as [B1 _].
      fold d2 in B1. specialize (I3 a Ha).
      rewrite (has_tag_id_same d2) in I3 by apply same_tags_with_tweet_hashtag.
      congruence. }
  rewrite Hnone. cbv beta iota. unfold bind at 1. rewrite close_head.
  cbv beta iota. unfold ret. simpl.
  split; [reflexivity|]. split; [congruence|]. split; [congruence | reflexivity].
Qed.

Lemma hashtag_link_insert_is_all_or_nothing_witness :
  NoFault [] /\ [2; 0] <> []
  /\ (has_tweet 1 db_one_tweet = false \/ ~ NoDup [2; 0]
      \/ (exists h, In h [2; 0] /\ has_tag_id KHashtag h db_one_tweet = false
                    /\ h < hashtag_seq db_one_tweet))
  /\ let '(r, w) := TweetHashtagBLL_insert 1 [2; 0] (init_world db_one_tweet [] seed0) in
     r = Ret false /\ tweet_hashtag (db w) = tweet_hashtag db_one_tweet
     /\ tweet (db w) = tweet db_one_tweet /\ sessions w = [].
Proof.
  assert (H1 : [2; 0] <> []) by discriminate.
  assert (H2 : has_tweet 1 db_one_tweet = false \/ ~ NoDup [2; 0]
               \/ (exists h, In h [2; 0] /\ has_tag_id KHashtag h db_one_tweet = false
                             /\ h < hashtag_seq db_one_tweet)).
  { right. right. exists 0. split; [right; left; reflexivity|].
    split; [reflexivity | reflexivity]. }
  split; [constructor|]. split; [exact H1|]. split; [exact H2|].
  apply (hashtag_link_insert_is_all_or_nothing 1 [2; 0] db_one_tweet [] seed0);
    [constructor | exact H1 | exact H2].
Defined.

(* ================================================================== *)
(** * Filtered reads by hashtag *)
(* ================================================================== *)

Lemma build_filters_split (user_id : option Z) (username : option string) (since until : Z)
    (x : string) (l : list string) (sentiment_score : option Between)
    (language : option string) :
  exists A B,
    existsb on_hashtag A = false /\ existsb on_hashtag B = false
    /\ build_filters user_id username since until (Some (x :: l)) sentiment_score language
       = A ++ P_hashtag_in (x :: l) :: B
    /\ build_filters user_id username since until None sentiment_score language = A ++ B.
Proof.
  exists ((if truthy_int user_id
           then match user_id with Some v => [P_user_id_eq v] | None => [] end else [])
          ++ (if truthy_str username
              then match username with Some v => [P_username_eq v] | None => [] end
              else [])
          ++ (if negb (since =? datetime_min) then [P_created_at_ge since] else [])
          ++ (if negb (until =? datetime_min) then [P_created_at_le until] else [])).
  exists (match sentiment_score with
          | Some b => [P_sentiment_ge (low b); P_sentiment_le (high b)]
          | None => []
          end
          ++ (if truthy_str language
              then match language with Some v => [P_language_eq v] | None => [] end
              else [])).
  split; [|split; [|split]].
  - rewrite !existsb_app.
    destruct (truthy_int user_id), user_id, (truthy_str username), username,
      (negb (since =? datetime_min)), (negb (until =? datetime_min)); reflexivity.
  - rewrite !existsb_app.
    destruct sentiment_score, (truthy_str language), language; reflexivity.
  - unfold build_filters. simpl truthy_list. cbv iota. rewrite <- !app_assoc. reflexivity.
  - unfold build_filters. simpl truthy_list. cbv iota. rewrite <- !app_assoc. reflexivity.
Qed.

Lemma in_linked_hashtags (tid : Z) (d : DB) (e : string) :
  In e (linked_hashtags tid d)
  <-> exists th h, In th (tweet_hashtag d) /\ fst th = tid
                   /\ In h (hashtag d) /\ tag_id h = snd th /\ tag_text h = e.
Proof.
  unfold linked_hashtags. rewrite in_flat_map. split.
  - intros [th [Hth H]]. destruct (fst th =? tid) eqn:E; [|contradiction].
    apply Z.eqb_eq in E. apply in_map_iff in H. destruct H as [h [He Hh]].
    apply filter_In in Hh. destruct Hh as [Hh Hid]. apply Z.eqb_eq in Hid.
    exists th, h. tauto.
  - intros [th [h [Hth [E [Hh [Hid He]]]]]]. exists th. split; [exact Hth|].
    apply Z.eqb_eq in E. rewrite E. apply in_map_iff. exists h. split; [exact He|].
    apply filter_In. split; [exact Hh|]. apply Z.eqb_eq. exact Hid.
Qed.

(** X20.  With a non-empty list of hashtags, [filter_by] returns exactly
    the tweets, each with its author, that satisfy the other criteria and
    are linked to at least one hashtag of the list. *)
Theorem filter_by_hashtags_returns_linked_tweets (user_id : option Z)
    (username : option string) (since until : Z) (x : string) (l : list string)
    (sentiment_score : option Between) (language : option string)
    (exclude_content : bool) (d : DB) (sc : list Tick) (seed : string -> Z) :
  NoFault sc ->
  let '(r, w) := TweetBLL_filter_by user_id username since until (Some (x :: l))
                   sentiment_score language exclude_content (init_world d sc seed) in
  exists rows,
    r = Ret rows
    /\ forall t u,
         In (t, u) (map (fun r => (ft_row r, ft_user r)) rows)
         <-> In t (tweet d) /\ In u (twitter_user d) /\ tw_user_id t = tu_id u
             /\ criteria_hold user_id username since until sentiment_score language t u
             /\ exists e, In e (x :: l) /\ In e (linked_hashtags (tw_id t) (db w)).
Proof.
  intros Hnf. rewrite filter_by_nofault by assumption. simpl db.
  eexists. split; [reflexivity|]. intros t u.
  rewrite map_map. simpl.
  rewrite (map_ext _ (fun p => p)) by (intros [? ?]; reflexivity). rewrite map_id.
  set (d1 := tick_db [(0%nat, empty_session)] d sc).
  destruct (tick_db_frame [(0%nat, empty_session)] d sc) as [U [T [H _]]].
  fold d1 in U, T, H.
  destruct (build_filters_split user_id username since until x l sentiment_score language)
    as [A [B [HA [HB [E1 E0]]]]].
  pose proof (holds_build_filters user_id username since until None sentiment_score
                language t u eq_refl) as Hc.
  rewrite E0 in Hc. rewrite E1. unfold filter_rows.
  assert (X1 : existsb on_hashtag (A ++ P_hashtag_in (x :: l) :: B) = true).
  { rewrite existsb_app. simpl. apply orb_true_r. }
  rewrite X1, U, T, in_join, andb_true_iff, Z.eqb_eq.
  assert (Q : existsb
                (fun th : Z * Z =>
                   (tw_id t =? fst th)
                   && existsb (fun h => (tag_id h =? snd th)
                                        && holds (A ++ P_hashtag_in (x :: l) :: B) t u
                                             (Some h)) (hashtag d1))
                (tweet_hashtag d1) = true
              <-> criteria_hold user_id username since until sentiment_score language t u
                  /\ exists e, In e (x :: l) /\ In e (linked_hashtags (tw_id t) d1)).
  { rewrite existsb_exists. split.
    - intros [th [Hth Hb]]. apply andb_true_iff in Hb. destruct Hb as [Hid Hex].
      apply Z.eqb_eq in Hid. apply existsb_exists in Hex. destruct Hex as [h [Hh Hb]].
      apply andb_true_iff in Hb. destruct Hb as [Hhid Hholds].
      apply Z.eqb_eq in Hhid.
      rewrite (holds_hashtag_app A B (x :: l) t u h HA HB) in Hholds.
      apply andb_true_iff in Hholds. destruct Hholds as [H0 Hm].
      split; [apply Hc; exact H0|].
      exists (tag_text h). split; [apply str_mem_In; exact Hm|].
      apply in_linked_hashtags. exists th, h.
      split; [exact Hth|]. split; [symmetry; exact Hid|]. tauto.
    - intros [Hcr [e [He Hl]]]. apply in_linked_hashtags in Hl.
      destruct Hl as [th [h [Hth [Hid [Hh [Hhid Ht]]]]]].
      exists th. split; [exact Hth|]. apply andb_true_iff. split.
      + apply Z.eqb_eq. symmetry. exact Hid.
      + apply existsb_exists. exists h. split; [exact Hh|].
        apply andb_true_iff. split; [apply Z.eqb_eq; exact Hhid|].
        rewrite (holds_hashtag_app A B (x :: l) t u h HA HB).
        apply andb_true_iff. split; [apply Hc; exact Hcr|].
        apply str_mem_In. rewrite Ht. exact He. }
  rewrite Q. tauto.
Qed.

Lemma filter_by_hashtags_returns_linked_tweets_witness :
  NoFault [Rival KHashtag "sol"]
  /\ let '(r, w) := TweetBLL_filter_by None None 0 0 (Some ["eth"; "doge"]) None None
                      false (init_world db_one_tweet [Rival KHashtag "sol"] seed0) in
     exists rows,
       r = Ret rows
       /\ forall t u,
            In (t, u) (map (fun r => (ft_row r, ft_user r)) rows)
            <-> In t (tweet db_one_tweet) /\ In u (twitter_user db_one_tweet)
                /\ tw_user_id t = tu_id u
                /\ criteria_hold None None 0 0 None None t u
                /\ exists e, In e ["eth"; "doge"]
                             /\ In e (linked_hashtags (tw_id t) (db w)).
Proof.
  assert (H : NoFault [Rival KHashtag "sol"]) by (repeat constructor; discriminate).
  split; [exact H|].
  apply (filter_by_hashtags_returns_linked_tweets None None 0 0 "eth" ["doge"] None None
           false db_one_tweet [Rival KHashtag "sol"] seed0 H).
Defined.

(* ================================================================== *)
(** * Replacing the topic links of a tweet *)
(* ================================================================== *)

Lemma existsb_topic_pair_false (t p : Z) (l : list (Z * Z * Z)) :
  (forall x, In x l -> fst (fst x) = t -> snd (fst x) <> p) ->
  existsb (fun x => (fst (fst x) =? t) && (snd (fst x) =? p)) l = false.
Proof.
  intros H. apply not_true_is_false. intros F. apply existsb_exists in F.
  destruct F as [x [Hin Hx]]. apply andb_true_iff in Hx. destruct Hx as [Ha Hb].
  apply Z.eqb_eq in Ha, Hb. exact (H x Hin Ha Hb).
Qed.

Lemma insert_topic_links_ok (tid : Z) (ids : list Z) (i : Z) (d0 : DB) :
  has_tweet tid d0 = true ->
  Forall (fun p => has_tag_id KTopic p d0 = true) ids ->
  NoDup ids ->
  (forall x, In x (tweet_topic d0) -> fst (fst x) = tid -> ~ In (snd (fst x)) ids) ->
  insert_objs (map (fun it => NewTweetTopic tid (snd it) (fst it)) (enumerate_from i ids)) d0
  = Some (with_tweet_topic
            (tweet_topic d0
             ++ map (fun it => (tid, snd it, fst it)) (enumerate_from i ids)) d0).
Proof.
  revert i d0. induction ids as [|p ids IH]; intros i d0 Ht Hp ND Hnew; simpl.
  - rewrite app_nil_r. destruct d0; reflexivity.
  - inversion Hp as [|? ? Hp1 Hp2]; subst. inversion ND as [|? ? Hn ND']; subst.
    rewrite Ht, Hp1, existsb_topic_pair_false.
    + simpl. rewrite IH.
      * simpl. rewrite <- app_assoc. reflexivity.
      * exact Ht.
      * eapply Forall_impl; [|exact Hp2]. intros a Ha.
        rewrite (has_tag_id_same d0); [exact Ha | apply same_tags_with_tweet_topic].
      * exact ND'.
      * intros x Hx E F. simpl in Hx. apply in_app_or in Hx.
        destruct Hx as [Hx|[<-|[]]].
        -- apply (Hnew x Hx E). right. exact F.
        -- simpl in F. exact (Hn F).
    + intros x Hx E F. apply (Hnew x Hx E). left. symmetry. exact F.
Qed.

Lemma enumerate_from_nth {A} (l : list A) (i : Z) (k : nat) (a : A) :
  nth_error l k = Some a -> In (i + Z.of_nat k, a) (enumerate_from i l).
Proof.
  revert i k. induction l as [|x l IH]; intros i k H.
  - destruct k; discriminate.
  - destruct k as [|k]; simpl in *.
    + injection H as ->. left. f_equal. lia.
    + right. replace (i + Z.pos (Pos.of_succ_nat k)) with ((i + 1) + Z.of_nat k) by lia.
      apply IH. exact H.
Qed.

(** X21.  [TweetTopicBLL.insert] with a list of distinct ids of stored
    topics, for a stored tweet, in a run that the store does not reject:
    the topic links of the tweet are replaced by one link per id, the id at
    position [i] of the list (from 0) carrying [sort_order] [i]; the links
    of other tweets and the hashtag links stay. *)
Theorem topic_links_are_numbered_in_list_order (tid : Z) (ids : list Z) (d : DB)
    (sc : list Tick) (seed : string -> Z) :
  NoFault sc -> has_tweet tid d = true ->
  Forall (fun p => has_tag_id KTopic p d = true) ids -> NoDup ids ->
  let '(r, w) := TweetTopicBLL_insert tid ids (init_world d sc seed) in
  r = Ret true
  /\ tweet_topic (db w)
     = filter (fun l => negb (fst (fst l) =? tid)) (tweet_topic d)
       ++ map (fun it => (tid, snd it, fst it)) (enumerate ids)
  /\ (forall i p, nth_error ids i = Some p ->
        In (tid, p, Z.of_nat i) (tweet_topic (db w)))
  /\ tweet_hashtag (db w) = tweet_hashtag d
  /\ sessions w = [].
Proof.
  intros Hnf Ht Hids ND.
  assert (Main : exists d' lg' sc',
             TweetTopicBLL_insert tid ids (init_world d sc seed)
             = (Ret true, W d' [] 1%nat lg' sc' seed)
             /\ tweet_topic d'
                = filter (fun l => negb (fst (fst l) =? tid)) (tweet_topic d)
                  ++ map (fun it => (tid, snd it, fst it)) (enumerate ids)
             /\ tweet_hashtag d' = tweet_hashtag d).
  { unfold TweetTopicBLL_insert, init_world.
    unfold bind at 1. unfold create_session. cbv beta iota zeta.
    simpl db. simpl sessions. simpl next_sid. simpl log. simpl sched. simpl hashseed.
    unfold bind at 1. unfold attempt at 1. unfold bind at 1.
    unfold TweetTopicDAL_delete_by_tweet_id. rewrite execute_nofault by assumption.
    cbv beta iota zeta. simpl pending. simpl new_objs. simpl app.
    set (d1 := tick_db [(0%nat, empty_session)] d sc).
    set (fdel := fun d' : DB =>
                   with_tweet_topic
                     (filter (fun l => negb (fst (fst l) =? tid)) (tweet_topic d')) d').
    unfold bind at 1. rewrite add_all_head. cbv beta iota zeta.
    simpl pending. simpl new_objs. simpl app.
    destruct (tick_db_frame [(0%nat, empty_session)] d sc) as [F1 [F2 [F3 F4]]].
    fold d1 in F1, F2, F3, F4.
    assert (Pre : forall dx, tweet dx = tweet d -> tags_grow d dx ->
                insert_objs (map (fun it : Z * Z => NewTweetTopic tid (snd it) (fst it))
                               (enumerate ids)) (fdel dx)
                = Some (with_tweet_topic
                          (tweet_topic (fdel dx)
                           ++ map (fun it => (tid, snd it, fst it)) (enumerate ids))
                          (fdel dx))).
    { intros dx Hx Hg. apply (insert_topic_links_ok tid ids 0 (fdel dx)).
      - unfold fdel. rewrite (has_tweet_eq tid dx); [|reflexivity].
        rewrite (has_tweet_eq tid d dx Hx). exact Ht.
      - eapply Forall_impl; [|exact Hids]. intros a Ha.
        unfold fdel. rewrite (has_tag_id_same dx); [|apply same_tags_with_tweet_topic].
        eapply has_tag_id_grow; eassumption.
      - exact ND.
      - intros a Ha E _. unfold fdel in Ha. simpl in Ha. apply filter_In in Ha.
        destruct Ha as [_ Ha]. rewrite E, Z.eqb_refl in Ha. discriminate. }
    destruct (map (fun it : Z * Z => NewTweetTopic tid (snd it) (fst it)) (enumerate ids))
      as [|o os] eqn:Eos.
    - rewrite commit_nofault by (apply NoFault_tl; exact Hnf).
      cbv beta iota. unfold bind at 1. rewrite close_head. cbv beta iota. unfold ret.
      simpl apply_writes. simpl is_ret.
      match goal with
      | |- context [tick_db ?s d1 ?c] => set (d2 := tick_db s d1 c);
          destruct (tick_db_frame s d1 c) as [G1 [G2 [G3 G4]]]
      end.
      fold d2 in G1, G2, G3, G4.
      do 3 eexists. split; [reflexivity|].
      assert (En : enumerate ids = []).
      { destruct (enumerate ids); [reflexivity | discriminate]. }
      rewrite En. unfold fdel. simpl. rewrite G3, G4, F3, F4, app_nil_r.
      split; reflexivity.
    - rewrite commit_flush_nofault by (apply NoFault_tl; exact Hnf).
      cbv zeta. cbn [apply_writes fold_left].
      match goal with
      | |- context [tick_db ?s d1 (tl sc)] => set (d2 := tick_db s d1 (tl sc));
          destruct (tick_db_frame s d1 (tl sc)) as [G1 [G2 [G3 G4]]];
          pose proof (tick_db_grow s d1 (tl sc)) as Hg12
      end.
      fold d2 in G1, G2, G3, G4, Hg12.
      assert (Hg2 : tags_grow d d2)
        by (apply (tags_grow_trans _ d1); [apply tick_db_grow | exact Hg12]).
      rewrite (Pre d2) by (try congruence; exact Hg2).
      cbv beta iota. unfold bind at 1. rewrite close_head. cbv beta iota. unfold ret.
      simpl pending. simpl is_ret.
      match goal with
      | |- context [tick_db ?s d2 ?c] => set (d3 := tick_db s d2 c);
          destruct (tick_db_frame s d2 c) as [K1 [K2 [K3 K4]]];
          pose proof (tick_db_grow s d2 c) as Hg3
      end.
      fold d3 in K1, K2, K3, K4, Hg3.
      match goal with
      | |- context [apply_writes ?fs d3] =>
          change (apply_writes fs d3)
            with (match insert_objs (o :: os) (fdel d3) with
                  | Some d' => d'
                  | None => fdel d3
                  end)
      end.
      rewrite (Pre d3) by (try congruence; apply (tags_grow_trans _ d2); assumption).
      do 3 eexists. split; [reflexivity|].
      unfold fdel. simpl. rewrite K3, K4, G3, G4, F3, F4. split; reflexivity. }
  destruct Main as [d' [lg' [sc' [E [P H]]]]].
  rewrite E. simpl db. split; [reflexivity|]. split; [exact P|].
  split; [|split; [exact H | reflexivity]].
  intros i p Hn. rewrite P. apply in_or_app. right.
  apply in_map_iff. exists (Z.of_nat i, p). split; [reflexivity|].
  apply (enumerate_from_nth ids 0 i p Hn).
Qed.

Lemma topic_links_are_numbered_in_list_order_witness :
  NoFault [Rival KTopic "z"]
  /\ has_tweet 1 (with_tweet (tweet db_one_tweet) db_two_topics) = true
  /\ Forall (fun p => has_tag_id KTopic p (with_tweet (tweet db_one_tweet) db_two_topics)
                      = true) [2; 1]
  /\ NoDup [2; 1]
  /\ let '(r, w) := TweetTopicBLL_insert 1 [2; 1]
                      (init_world (with_tweet (tweet db_one_tweet) db_two_topics)
                         [Rival KTopic "z"] seed0) in
     r = Ret true
     /\ tweet_topic (db w)
        = filter (fun l => negb (fst (fst l) =? 1))
            (tweet_topic (with_tweet (tweet db_one_tweet) db_two_topics))
          ++ map (fun it => (1, snd it, fst it)) (enumerate [2; 1])
     /\ (forall i p, nth_error [2; 1] i = Some p ->
           In (1, p, Z.of_nat i) (tweet_topic (db w)))
     /\ tweet_hashtag (db w)
        = tweet_hashtag (with_tweet (tweet db_one_tweet) db_two_topics)
     /\ sessions w = [].
Proof.
  assert (H1 : NoFault [Rival KTopic "z"]) by (repeat constructor; discriminate).
  assert (H2 : Forall (fun p => has_tag_id KTopic p
                                  (with_tweet (tweet db_one_tweet) db_two_topics) = true)
                 [2; 1]) by (repeat constructor).
  assert (H3 : NoDup [2; 1]).
  { constructor; [intros [F|[]]; discriminate|]. constructor; [intros []|constructor]. }
  split; [exact H1|]. split; [reflexivity|]. split; [exact H2|]. split; [exact H3|].
  apply (topic_links_are_numbered_in_list_order 1 [2; 1]
           (with_tweet (tweet db_one_tweet) db_two_topics) [Rival KTopic "z"] seed0
           H1 eq_refl H2 H3).
Defined.

(* ================================================================== *)
(** * Round trips *)
(* ================================================================== *)

(** X22.  A topic registered by [insert_if_not_exists] is found by
    [find_by_title] under the title that was given, with the id that was
    returned; [find_by_title] leaves the session it opens open. *)
Theorem topic_registered_is_found_by_title (title : string) (d : DB) (sc : list Tick)
    (seed : string -> Z) :
  store_ok d -> NoFault sc ->
  let '(r, w) := TopicBLL_insert_if_not_exists title (init_world d sc seed) in
  let '(r', w') := TopicBLL_find_by_title title w in
  exists row,
    r = Ret (tag_id row) /\ r' = Ret (Some row) /\ tag_text row = title
    /\ sessions w' = (next_sid w, empty_session) :: sessions w.
Proof.
  intros Hok Hnf. unfold TopicBLL_insert_if_not_exists, init_world.
  destruct (Tag_insert_nofault KTopic title d [] 0%nat [] sc seed Hok Hnf eq_refl)
    as [row [d1 [ss1 [n1 [lg1 [sc1 [E1 [Hok1 [Hnf1 [_ [_ [T1 _]]]]]]]]]]]].
  rewrite E1. unfold TopicBLL_find_by_title, TopicDAL_find_by_title, TagDAL_find.
  unfold bind at 1. unfold create_session. cbv beta iota zeta.
  simpl db. simpl sessions. simpl next_sid. simpl log. simpl sched. simpl hashseed.
  rewrite query_nofault by exact Hnf1. simpl pending. simpl apply_writes.
  assert (Hrow : In row (tags KTopic d1) /\ tag_text row = title).
  { assert (X : In row (tags_with_text KTopic title d1)) by (rewrite T1; left; reflexivity).
    unfold tags_with_text in X. apply filter_In in X. destruct X as [X1 X2].
    apply String.eqb_eq in X2. split; assumption. }
  rewrite tick_db_kept.
  - rewrite T1. exists row. simpl. repeat split. apply Hrow.
  - destruct Hrow as [Hin <-]. apply in_map. exact Hin.
Qed.

Lemma topic_registered_is_found_by_title_witness :
  store_ok db_two_topics /\ NoFault [Go; Rival KTopic "w"]
  /\ let '(r, w) := TopicBLL_insert_if_not_exists "w"
                      (init_world db_two_topics [Go; Rival KTopic "w"] seed0) in
     let '(r', w') := TopicBLL_find_by_title "w" w in
     exists row,
       r = Ret (tag_id row) /\ r' = Ret (Some row) /\ tag_text row = "w"
       /\ sessions w' = (next_sid w, empty_session) :: sessions w.
Proof.
  assert (H : NoFault [Go; Rival KTopic "w"]) by (repeat constructor; discriminate).
  assert (Hok : store_ok db_two_topics).
  { split; (split; [|split]); simpl; repeat constructor;
      try (simpl; intros [F|[]]; discriminate); try (intros []); lia. }
  split; [exact Hok|]. split; [exact H|].
  apply (topic_registered_is_found_by_title "w" db_two_topics [Go; Rival KTopic "w"] seed0
           Hok H).
Defined.

Lemma upsert_all_at (tid uid : Z) (un dn text : string) (lang : option string)
    (ts : Z) (sent : option Z) (lk rt rp : Z) (topics : option (list string)) (d : DB)
    (ss : list (nat * Session)) (n : nat) (lg : list Event) (sc : list Tick)
    (seed : string -> Z) :
  store_ok d -> NoFault sc ->
  exists rc d' ss' n' lg' sc',
    TweetBLL_upsert tid uid un dn (Some text) lang ts sent lk rt rp topics
      (W d ss n lg sc seed)
    = (Ret rc, W d' ss' n' lg' sc' seed)
    /\ store_ok d' /\ NoFault sc'
    /\ twitter_user d' = upsert_user_rows uid un dn ts (twitter_user d)
    /\ tweet d' = upsert_tweet_rows tid uid (clip 280 text) (truncate 5 lang) ts sent
                    lk rt rp (tweet d)
    /\ linked_hashtags tid d' = str_set seed (re_findall_hashtag (clip 280 text)).
Proof.
  intros Hok Hnf.
  destruct (upsert_tx_nofault tid uid un dn text lang ts sent lk rt rp topics d ss n lg
              sc seed Hnf)
    as [d3 [rc [lg3 [[U3 [T3 [L3 _]]] [Hg3 [Hok3 [Hrc E]]]]]]].
  rewrite E. clear E.
  set (d4 := with_tweet _ _).
  assert (Hst4 : same_tags d3 d4).
  { apply (same_tags_trans _ (with_twitter_user
                                (upsert_user_rows uid un dn ts (twitter_user d3)) d3)).
    - apply same_tags_with_twitter_user.
    - apply same_tags_with_tweet. }
  assert (Hok4 : store_ok d4) by (apply (same_tags_ok d3); [exact Hst4 | exact (Hok3 Hok)]).
  assert (Ht4 : has_tweet tid d4 = true) by (apply has_upsert_tweet).
  destruct (upsert_links_all tid (clip 280 text) topics d4 ss (S n) lg3
              (tl (tl (tl sc))) seed Hok4 (NoFault_tl _ (NoFault_tl _ (NoFault_tl _ Hnf)))
              Ht4)
    as [d5 [ss5 [n5 [lg5 [sc5 [E5 [Hok5 [Hnf5 [Hg5 [U5 [T5 [L5 _]]]]]]]]]]]].
  unfold bind. rewrite E5. unfold ret.
  exists rc, d5, ss5, n5, lg5, sc5.
  split; [reflexivity|]. split; [exact Hok5|]. split; [exact Hnf5|].
  split; [rewrite U5; unfold d4; simpl; rewrite U3; reflexivity|].
  split; [rewrite T5; unfold d4; simpl; rewrite T3; reflexivity|].
  exact L5.
Qed.

Lemma upsert_tweet_rows_again (tid uid : Z) (c : string) (lang : option string) (ts : Z)
    (sent : option Z) (lk rt rp : Z) (l : list Tweet) :
  upsert_tweet_rows tid uid c lang ts sent lk rt rp
    (upsert_tweet_rows tid uid c lang ts sent lk rt rp l)
  = upsert_tweet_rows tid uid c lang ts sent lk rt rp l.
Proof.
  unfold upsert_tweet_rows at 1. rewrite has_upsert_tweet.
  unfold upsert_tweet_rows. destruct (existsb (fun t => tw_id t =? tid) l) eqn:Ex.
  - rewrite map_map. apply map_ext. intros t.
    destruct (tw_id t =? tid) eqn:E.
    + assert (E' : (tw_id (tweet_on_duplicate t c lang ts sent lk rt rp) =? tid) = true)
        by exact E.
      rewrite E'. reflexivity.
    + rewrite E. reflexivity.
  - rewrite map_app. simpl. rewrite Z.eqb_refl. f_equal.
    apply map_if_absent. exact Ex.
Qed.

(** X23.  Ingesting the same tweet twice is the same as ingesting it once:
    when the store rejects nothing, a second [upsert] with the same
    arguments leaves the tweets, the authors and the hashtags linked to the
    tweet as the first call left them. *)
Theorem upsert_is_idempotent (tweet_id twitter_user_id : Z)
    (username display_name text : string) (language : option string) (created_at : Z)
    (sentiment_score : option Z) (like_count retweet_count reply_count : Z)
    (topics : option (list string)) (d : DB) (sc : list Tick) (seed : string -> Z) :
  store_ok d -> NoFault sc ->
  let '(r1, w1) := TweetBLL_upsert tweet_id twitter_user_id username display_name
                     (Some text) language created_at sentiment_score like_count
                     retweet_count reply_count topics (init_world d sc seed) in
  let '(r2, w2) := TweetBLL_upsert tweet_id twitter_user_id username display_name
                     (Some text) language created_at sentiment_score like_count
                     retweet_count reply_count topics w1 in
  tweet (db w2) = tweet (db w1)
  /\ twitter_user (db w2) = twitter_user (db w1)
  /\ linked_hashtags tweet_id (db w2) = linked_hashtags tweet_id (db w1)
  /\ exists rc, r2 = Ret rc.
Proof.
  intros Hok Hnf. unfold init_world.
  destruct (upsert_all_at tweet_id twitter_user_id username display_name text language
              created_at sentiment_score like_count retweet_count reply_count topics
              d [] 0%nat [] sc seed Hok Hnf)
    as [rc1 [d1 [ss1 [n1 [lg1 [sc1 [E1 [Hok1 [Hnf1 [U1 [T1 L1]]]]]]]]]]].
  rewrite E1.
  destruct (upsert_all_at tweet_id twitter_user_id username display_name text language
              created_at sentiment_score like_count retweet_count reply_count topics
              d1 ss1 n1 lg1 sc1 seed Hok1 Hnf1)
    as [rc2 [d2 [ss2 [n2 [lg2 [sc2 [E2 [_ [_ [U2 [T2 L2]]]]]]]]]]].
  rewrite E2. simpl db.
  split; [rewrite T2, T1; apply upsert_tweet_rows_again|].
  split; [rewrite U2, U1; apply upsert_user_rows_again|].
  split; [rewrite L2, L1; reflexivity|]. exists rc2. reflexivity.
Qed.

Lemma upsert_is_idempotent_witness :
  store_ok db_one_tweet /\ NoFault [Go; Go; Rival KHashtag "sol"]
  /\ let '(r1, w1) := TweetBLL_upsert 2 100 "alice" "Alice" (Some "gm #sol #btc")
                        (Some "en") 9 None 0 0 0 (Some ["markets"])
                        (init_world db_one_tweet [Go; Go; Rival KHashtag "sol"] seed0) in
     let '(r2, w2) := TweetBLL_upsert 2 100 "alice" "Alice" (Some "gm #sol #btc")
                        (Some "en") 9 None 0 0 0 (Some ["markets"]) w1 in
     tweet (db w2) = tweet (db w1)
     /\ twitter_user (db w2) = twitter_user (db w1)
     /\ linked_hashtags 2 (db w2) = linked_hashtags 2 (db w1)
     /\ exists rc, r2 = Ret rc.
Proof.
  assert (H : NoFault [Go; Go; Rival KHashtag "sol"])
    by (repeat constructor; discriminate).
  split; [exact store_ok_one_tweet|]. split; [exact H|].
  apply (upsert_is_idempotent 2 100 "alice" "Alice" "gm #sol #btc" (Some "en") 9 None
           0 0 0 (Some ["markets"]) db_one_tweet [Go; Go; Rival KHashtag "sol"] seed0
           store_ok_one_tweet H).
Defined.

(* ================================================================== *)
(** * Plain insert of an author *)
(* ================================================================== *)

Lemma has_user_find (id : Z) (d : DB) :
  has_user id d = false <-> find_user id d = None.
Proof.
  unfold has_user, find_user. induction (twitter_user d) as [|u l IH]; simpl; [tauto|].
  destruct (tu_id u =? id); simpl; [split; discriminate | exact IH].
Qed.

Lemma find_user_app_new (id id' : Z) (u : TwitterUser) (l : list TwitterUser) :
  tu_id u = id ->
  find (fun x => tu_id x =? id') (l ++ [u])
  = match find (fun x => tu_id x =? id') l with
    | Some x => Some x
    | None => if id =? id' then Some u else None
    end.
Proof.
  intros <-. induction l as [|a l IH]; simpl; [destruct (tu_id u =? id'); reflexivity|].
  destruct (tu_id a =? id'); [reflexivity | exact IH].
Qed.

(** X24.  When the store rejects nothing, [TwitterUserBLL.insert] of an id
    that is not stored, under a username that no author holds, adds the
    author with the names given and returns the id.  Of an id that is
    stored, or under a username that an author holds, it returns [None]
    and never overwrites: the table is left as it was.  A following
    [upsert] of the new author with [last_updated] left at its default
    ([datetime.min]) does not change the row. *)
Theorem author_insert_never_overwrites (id : Z) (username display_name : string)
    (username' display_name' : string) (d : DB) (sc : list Tick) (seed : string -> Z) :
  NoFault sc -> username_free id username' d ->
  let row := {| tu_id := id; tu_username := username; tu_display_name := display_name;
                tu_last_updated := server_default_last_updated |} in
  let '(r, w) := TwitterUserBLL_insert id username display_name (init_world d sc seed) in
  let '(r', w') := TwitterUserBLL_upsert id username' display_name' datetime_min w in
  (find_user id d = None -> ~ In username (map tu_username (twitter_user d)) ->
   r = Ret (Some id) /\ twitter_user (db w) = twitter_user d ++ [row]
   /\ find_user id (db w) = Some row
   /\ (forall id', id' <> id -> find_user id' (db w) = find_user id' d)
   /\ find_user id (db w') = Some row)
  /\ (find_user id d <> None \/ In username (map tu_username (twitter_user d)) ->
      r = Ret None /\ twitter_user (db w) = twitter_user d)
  /\ tweet (db w) = tweet d
  /\ sessions w = [].
Proof.
  intros Hnf _ row. unfold TwitterUserBLL_insert, TwitterUserDAL_insert, init_world.
  unfold bind at 1. unfold create_session. cbv beta iota zeta.
  simpl db. simpl sessions. simpl next_sid. simpl log. simpl sched. simpl hashseed.
  unfold bind at 1. unfold attempt at 1. unfold bind at 1.
  rewrite execute_nofault by assumption. simpl pending. simpl apply_writes.
  set (d1 := tick_db [(0%nat, empty_session)] d sc).
  destruct (tick_db_frame [(0%nat, empty_session)] d sc) as [U1 [T1 _]].
  fold d1 in U1, T1.
  assert (Hu : has_user id d1 = has_user id d) by (unfold has_user; rewrite U1; reflexivity).
  rewrite Hu, U1.
  assert (Hname : existsb (fun u => String.eqb (tu_username u) username) (twitter_user d)
                  = true <-> In username (map tu_username (twitter_user d))).
  { rewrite existsb_exists, in_map_iff. split.
    - intros [u [Hin E]]. apply String.eqb_eq in E. exists u. tauto.
    - intros [u [E Hin]]. exists u. split; [exact Hin|]. apply String.eqb_eq. exact E. }
  destruct (has_user id d
            || existsb (fun u => String.eqb (tu_username u) username) (twitter_user d))
    eqn:Ex.
  - (* the id or the username is stored: the INSERT is refused *)
    cbv beta iota. unfold bind at 1. unfold bind at 1. unfold rollback.
    rewrite put_session_head. unfold ret at 1. cbv beta iota.
    unfold log_event. simpl. unfold bind at 1. rewrite close_head. unfold ret.
    cbv beta iota.
    match goal with
    | |- context [W d1 [] 1%nat ?lg (tl sc) seed] =>
        destruct (TwitterUserBLL_upsert_nofault_at id username' display_name' datetime_min
                    d1 [] 1%nat lg (tl sc) seed (NoFault_tl _ Hnf)) as [d2 [lg2 [E2 _]]]
    end.
    rewrite E2. simpl db. split; [|split; [|split; [exact T1 | reflexivity]]].
    + intros Hnone Hfree. exfalso. apply orb_true_iff in Ex. destruct Ex as [Ex|Ex].
      * apply has_user_find in Hnone. congruence.
      * apply Hfree. apply Hname. exact Ex.
    + intros _. split; [reflexivity | exact U1].
  - (* a new id under a new username *)
    apply orb_false_iff in Ex. destruct Ex as [Ex En].
    cbv beta iota. simpl new_objs. simpl app.
    rewrite commit_nofault by (apply NoFault_tl; exact Hnf).
    cbv beta iota. unfold bind at 1. unfold ret at 1. cbv beta iota.
    unfold bind at 1. rewrite close_head. unfold ret. cbv beta iota.
    simpl apply_writes.
    match goal with
    | |- context [tick_db ?s d1 (tl sc)] => set (d2 := tick_db s d1 (tl sc));
        destruct (tick_db_frame s d1 (tl sc)) as [U2 [T2 _]]
    end.
    fold d2 in U2, T2.
    match goal with
    | |- context [W ?dd [] 1%nat ?lg ?c seed] =>
        destruct (TwitterUserBLL_upsert_nofault_at id username' display_name' datetime_min
                    dd [] 1%nat lg c seed (NoFault_tl _ (NoFault_tl _ Hnf)))
          as [d3 [lg3 [E3 [U3 _]]]]
    end.
    rewrite E3. simpl db. simpl in U3.
    assert (Hnone : find (fun x => tu_id x =? id) (twitter_user d) = None)
      by (apply has_user_find; exact Ex).
    assert (Hrow : find (fun x => tu_id x =? id) (twitter_user d ++ [row]) = Some row).
    { rewrite (find_user_app_new id id row) by reflexivity.
      rewrite Hnone, Z.eqb_refl. reflexivity. }
    split; [|split; [|split; [simpl; rewrite T2; exact T1 | reflexivity]]].
    + intros _ _. split; [reflexivity|]. unfold find_user. simpl.
      rewrite U2, U1. split; [reflexivity|]. split; [exact Hrow|]. split.
      * intros id' N. rewrite (find_user_app_new id id' row) by reflexivity.
        destruct (find (fun x => tu_id x =? id') (twitter_user d)); [reflexivity|].
        replace (id =? id') with false by (symmetry; apply Z.eqb_neq; lia). reflexivity.
      * rewrite U3, U2, U1. rewrite (find_upsert_user _ _ _ _ _ _ Hrow).
        unfold user_on_duplicate, row. simpl. reflexivity.
    + intros [Hsome|Hin]; exfalso.
      * apply Hsome. unfold find_user. exact Hnone.
      * apply Hname in Hin. congruence.
Qed.

Lemma author_insert_never_overwrites_witness :
  NoFault [Rival KHashtag "sol"] /\ username_free 7 "bobby" db_alice
  /\ let row := {| tu_id := 7; tu_username := "bob"; tu_display_name := "Bob";
                   tu_last_updated := server_default_last_updated |} in
     let '(r, w) := TwitterUserBLL_insert 7 "bob" "Bob"
                      (init_world db_alice [Rival KHashtag "sol"] seed0) in
     let '(r', w') := TwitterUserBLL_upsert 7 "bobby" "Bobby" datetime_min w in
     (find_user 7 db_alice = None ->
      ~ In "bob" (map tu_username (twitter_user db_alice)) ->
      r = Ret (Some 7) /\ twitter_user (db w) = twitter_user db_alice ++ [row]
      /\ find_user 7 (db w) = Some row
      /\ (forall id', id' <> 7 -> find_user id' (db w) = find_user id' db_alice)
      /\ find_user 7 (db w') = Some row)
     /\ (find_user 7 db_alice <> None
         \/ In "bob" (map tu_username (twitter_user db_alice)) ->
         r = Ret None /\ twitter_user (db w) = twitter_user db_alice)
     /\ tweet (db w) = tweet db_alice
     /\ sessions w = [].
Proof.
  assert (H : NoFault [Rival KHashtag "sol"]) by (repeat constructor; discriminate).
  assert (F : username_free 7 "bobby" db_alice).
  { intros u [<-|[]] E. simpl in E. discriminate. }
  split; [exact H|]. split; [exact F|].
  apply (author_insert_never_overwrites 7 "bob" "Bob" "bobby" "Bobby" db_alice
           [Rival KHashtag "sol"] seed0 H F).
Defined.
